(** * Hostasis CLI: key handling, depth and feed-index resolution, feed updates

    A shallow embedding of the TypeScript sources
    - [src/utils/crypto.ts]   ([hexToBytes], [bytesToHex], [getAddressFromPrivateKey]),
    - [src/utils/swarm.ts]    ([fetchBatchDepth], [fetchNextFeedIndex]),
    - [src/commands/upload.ts] (the action of [createUploadCommand]),
    - [src/commands/feed.ts]   ([updateFeed] and the action of [createFeedCommand]),
    followed by the properties the specification states about them. *)

From Stdlib Require Import ZArith NArith List Ascii String Bool Lia.
From Stdlib Require Import Strings.Byte Strings.HexString DecimalString.
From stdpp Require Import gmap strings.
Import ListNotations.

Local Open Scope string_scope.
Local Open Scope Z_scope.
Local Set Warnings "-register-all".

(** ** JavaScript values *)

Module JS.

(** [Number.MAX_SAFE_INTEGER]. *)
Definition MAX_SAFE_INTEGER : Z := 2 ^ 53 - 1.

(** A JavaScript number.  [Int z] is the double that equals the integer [z],
    kept only for [|z| <= MAX_SAFE_INTEGER], where integer arithmetic on
    doubles is exact; [Untracked] is any other double (a fraction, an
    infinity, an integer past the safe range): the embedding does not follow
    its value.  [-0] and [0] are identified. *)
Inductive Number' : Type :=
| NaN
| Int (z : Z)
| Untracked.

Definition number_of_Z (z : Z) : Number' :=
  if Z.abs z <=? MAX_SAFE_INTEGER then Int z else Untracked.

(** A JavaScript value, as far as the program meets them: what a parsed JSON
    body can hold, [undefined], plain objects as finite maps from property
    names, and arrays. *)
Inductive Value : Type :=
| VUndefined
| VNull
| VBool (b : bool)
| VNumber (n : Number')
| VString (s : string)
| VObject (props : gmap string Value)
| VArray (items : list Value).

(** ToBoolean. *)
Definition truthy (v : Value) : bool :=
  match v with
  | VUndefined | VNull => false
  | VBool b => b
  | VNumber NaN => false
  | VNumber (Int z) => negb (z =? 0)
  | VNumber Untracked => true
  | VString s => negb (String.eqb s "")
  | VObject _ | VArray _ => true
  end.

(** [a || b] on values already evaluated (both operands of every [||] in the
    sources are property reads, which have no effect). *)
Definition or (a b : Value) : Value := if truthy a then a else b.

(** [a ?? b]. *)
Definition nullish (a b : Value) : Value :=
  match a with
  | VUndefined | VNull => b
  | _ => a
  end.

(** [v?.name]: a property read that yields [undefined] on [undefined] and
    [null]; primitives and arrays have none of the properties the sources
    read. *)
Definition get (v : Value) (name : string) : Value :=
  match v with
  | VObject props => default VUndefined (props !! name)
  | _ => VUndefined
  end.

Definition of_option (o : option string) : Value :=
  match o with
  | Some s => VString s
  | None => VUndefined
  end.

(** *** [parseInt] *)

(** White space and line terminators among the code units below 256. *)
Definition is_white_space (c : ascii) : bool :=
  let n := N_of_ascii c in
  ((9 <=? n) && (n <=? 13) || (n =? 32) || (n =? 160))%N.

Fixpoint trim_start (s : string) : string :=
  match s with
  | String c r => if is_white_space c then trim_start r else s
  | EmptyString => s
  end.

(** The value of a character as a digit: [0-9], then [a-z] or [A-Z] for 10
    to 35. *)
Definition digit_value (c : ascii) : option Z :=
  let n := Z.of_N (N_of_ascii c) in
  if (48 <=? n) && (n <=? 57) then Some (n - 48)
  else if (97 <=? n) && (n <=? 122) then Some (n - 87)
  else if (65 <=? n) && (n <=? 90) then Some (n - 55)
  else None.

(** The longest prefix of [s] made of digits of radix [R], as digit values. *)
Fixpoint digits_prefix (R : Z) (s : string) : list Z :=
  match s with
  | String c r =>
      match digit_value c with
      | Some d => if d <? R then d :: digits_prefix R r else []
      | None => []
      end
  | EmptyString => []
  end.

Definition digits_value (R : Z) (ds : list Z) : Z :=
  fold_left (fun acc d => acc * R + d) ds 0.

Definition strip_hex_prefix (s : string) : string :=
  match s with
  | String "0" (String "x" r) => r
  | String "0" (String "X" r) => r
  | _ => s
  end.

(** [parseInt(s, radix)]; [radix = 0] stands for a call without radix. *)
Definition parseInt (s : string) (radix : Z) : Number' :=
  let s0 := trim_start s in
  let '(sign, s1) :=
    match s0 with
    | String "-" r => (-1, r)
    | String "+" r => (1, r)
    | _ => (1, s0)
    end in
  if negb (radix =? 0) && ((radix <? 2) || (36 <? radix)) then NaN
  else
    let strip := (radix =? 0) || (radix =? 16) in
    let s2 := if strip then strip_hex_prefix s1 else s1 in
    let R := if strip && negb (String.eqb s2 s1) then 16
             else if radix =? 0 then 10 else radix in
    match digits_prefix R s2 with
    | [] => NaN
    | ds => number_of_Z (sign * digits_value R ds)
    end.

(** [x + 1] for a number [x]. *)
Definition succ (n : Number') : Number' :=
  match n with
  | Int z => number_of_Z (z + 1)
  | other => other
  end.

(** *** The text of a value *)

(** [String(x)] for a number [x].  The digits of a number the embedding does
    not follow are not followed either: they are written [?], which no
    number prints as. *)
Definition number_text (n : Number') : string :=
  match n with
  | NaN => "NaN"
  | Int z => NilZero.string_of_int (Z.to_int z)
  | Untracked => "?"
  end.

(** [String(a)] for an array [a], which is [a.join()]: the texts of the
    elements with commas between them, [null] and [undefined] counting for
    the empty text. *)
Fixpoint element_text (v : Value) : string :=
  match v with
  | VUndefined | VNull => ""
  | VBool true => "true"
  | VBool false => "false"
  | VNumber n => number_text n
  | VString s => s
  | VObject _ => "[object Object]"
  | VArray items => String.concat "," (map element_text items)
  end.

Definition array_text (items : list Value) : string :=
  String.concat "," (map element_text items).

End JS.

(** ** Effects: what a run does to the outside, and how it ends *)

Module Eff.

(** What a [throw] carries: an [Error] built by the program with its message;
    an [Error] raised inside a library or the platform; or the [Error] of an
    HTTP client, as axios raises them, which has a [response] property
    ([undefined] when no response arrived) and the [config] of the request
    with its [url] and its [method], a text when there is one. *)
Inductive Exception : Type :=
| Error (message : string)
| LibraryError (origin : string)
| HttpError (origin : string) (response url : JS.Value) (method : option string).

Inductive Completion (A : Type) : Type :=
| Normal (a : A)
| Throw (e : Exception).
Arguments Normal {A} a.
Arguments Throw {A} e.

(** A text shown to the user: a literal; a template literal with one
    interpolated value, [`pre${v}post`]; [s.toUpperCase()];
    [JSON.stringify(v, null, 2)] for a value and for an exception; and
    [error.stack]. *)
Inductive Text : Type :=
| Lit (s : string)
| Template (pre : string) (v : JS.Value) (post : string)
| UpperCase (s : string)
| Json (v : JS.Value)
| JsonOfError (e : Exception)
| Stack (e : Exception).

(** The object handed to [writeFeedUpdate]. *)
Record WriteRequest : Type := {
  vaultPrivateKey : JS.Value;
  signerPrivateKey : JS.Value;
  contentReference : JS.Value;
  feedIndex : JS.Value;
  batchId : JS.Value;
  depth : JS.Value;
  gatewayUrl : JS.Value;
  topic : list byte
}.

(** The configuration of a [StampedUploader]. *)
Record UploaderConfig : Type := {
  uploader_gatewayUrl : string;
  uploader_batchId : string;
  uploader_privateKey : string;
  uploader_depth : JS.Value
}.

Record File : Type := {
  file_name : string;
  file_data : list byte
}.

Record UploadResult : Type := {
  reference : string;
  url : string;
  cid : string
}.

(** The observable steps of a run, in the order they happen. *)
Inductive Event : Type :=
(* network *)
| ReadContract (rpcUrl address functionName : string) (args : list string)
| HttpGet (url : string) (timeout : Z)
| UploadFiles (config : UploaderConfig) (files : list File)
              (indexDocument : option string) (isSPA : bool)
| WriteFeedUpdate (request : WriteRequest)
(* file system *)
| FsStat (path : string)
| Glob (pattern : string)
| ReadFile (path : string)
(* the spinner and the console *)
| SpinnerStart (text : Text)
| SpinnerText (text : Text)
| SpinnerSucceed (text : Text)
| SpinnerWarn (text : Text)
| SpinnerFail (text : Text)
| ConsoleLog (items : list Text)
| ConsoleError (items : list Text)
| ProcessExit (code : Z).

Definition is_network (ev : Event) : bool :=
  match ev with
  | ReadContract _ _ _ _ | HttpGet _ _ | UploadFiles _ _ _ _ | WriteFeedUpdate _ => true
  | _ => false
  end.

(** A computation: the events it caused, then how it completed. *)
Definition M (A : Type) : Type := list Event * Completion A.

Definition ret {A} (a : A) : M A := ([], Normal a).
Definition throw {A} (e : Exception) : M A := ([], Throw e).
Definition emit (ev : Event) : M unit := ([ev], Normal tt).

Definition bind {A B} (m : M A) (k : A -> M B) : M B :=
  match m with
  | (t, Normal a) => let '(t', r) := k a in ((t ++ t')%list, r)
  | (t, Throw e) => (t, Throw e)
  end.

(** [try { m } catch (error) { handler }]. *)
Definition try_catch {A} (m : M A) (handler : Exception -> M A) : M A :=
  match m with
  | (t, Throw e) => let '(t', r) := handler e in ((t ++ t')%list, r)
  | done => done
  end.

(** The result of a call into a library, brought into a computation. *)
Definition lift {A} (c : Completion A) : M A := ([], c).

(** [if (c) { m }] for a statement. *)
Definition when (c : bool) (m : M unit) : M unit := if c then m else ret tt.

Definition trace {A} (m : M A) : list Event := fst m.
Definition completion {A} (m : M A) : Completion A := snd m.

End Eff.

Import Eff.

Notation "x <- m ;; k" := (Eff.bind m (fun x => k))
  (at level 100, m at next level, right associativity).
Notation "m ;;; k" := (Eff.bind m (fun _ => k))
  (at level 100, right associativity).

(** ** The outside world

    Everything the program calls and does not define: the hash and the curve
    of [@noble], the stamping library [@hostasis/swarm-stamper], the contract
    reader of [viem], the HTTP server behind [axios], the file system, and
    the two constants of [utils/urls.ts]. *)

Record Response : Type := {
  status : Z;
  headers : gmap string string;
  data : JS.Value
}.

Inductive HttpOutcome : Type :=
| NoResponse                  (* timeout, DNS failure, connection refused *)
| Responded (r : Response).

Record World : Type := {
  (* @noble/hashes/sha3, @noble/curves/secp256k1 *)
  keccak_256 : list byte -> list byte;
  getPublicKey : list byte -> Completion (list byte);
  (* @hostasis/swarm-stamper *)
  normalizeProjectSlug : JS.Value -> Completion string;
  deriveProjectKey : JS.Value -> string -> Completion string;
  writeFeedUpdate : WriteRequest -> Completion unit;
  newStampedUploader : UploaderConfig -> Completion unit;
  uploadFiles : UploaderConfig -> list File -> option string -> bool ->
                Completion UploadResult;
  (* viem: client.readContract on a client bound to an RPC URL *)
  readContract : string -> string -> string -> list string -> Completion Z;
  (* the server answering a GET *)
  http : string -> HttpOutcome;
  (* node: path, fs, glob *)
  path_resolve : string -> string;
  path_join : string -> string -> string;
  path_relative : string -> string -> string;
  path_dirname : string -> string;
  stat_isDirectory : string -> Completion bool;
  glob : string -> Completion (list string);
  readFile : string -> Completion (list byte);
  (* utils/urls.ts *)
  DEFAULT_GATEWAY_URL : string;
  DEFAULT_GNOSIS_RPC_URL : string
}.

(** ** [src/utils/crypto.ts] *)

Module Crypto.

(** Storing a number into a [Uint8Array]: ToUint8.  (The numbers stored here
    come from [parseInt] on two characters and are always tracked.) *)
Definition ToUint8 (n : JS.Number') : byte :=
  match n with
  | JS.Int z => default x00 (Byte.of_N (Z.to_N (z mod 256)))
  | _ => x00
  end.

(** [hex.replace(/^0x/, '')]. *)
Definition remove_0x (hex : string) : string :=
  match hex with
  | String "0" (String "x" r) => r
  | _ => hex
  end.

Definition hexToBytes (hex : string) : list byte :=
  let hexWithoutPrefix := remove_0x hex in
  (* new Uint8Array(hexWithoutPrefix.length / 2): the length is truncated *)
  let length := (String.length hexWithoutPrefix / 2)%nat in
  map (fun i =>
         ToUint8 (JS.parseInt (String.substring (i * 2) 2 hexWithoutPrefix) 16))
      (seq 0 length).

Definition hex_digit (d : N) : ascii :=
  if (d <? 10)%N then ascii_of_N (48 + d) else ascii_of_N (87 + d).

(** [b.toString(16)] for an element of a [Uint8Array]. *)
Definition toString16 (b : byte) : string :=
  let n := Byte.to_N b in
  if (n <? 16)%N then String (hex_digit n) ""
  else String (hex_digit (n / 16)) (String (hex_digit (n mod 16)) "").

(** [s.padStart(2, '0')]. *)
Definition padStart2 (s : string) : string :=
  match String.length s with
  | O => "00"
  | S O => String "0" s
  | _ => s
  end.

Definition bytesToHex (bytes : list byte) : string :=
  String.concat "" (map (fun b => padStart2 (toString16 b)) bytes).

(** [a.slice(1)] and [a.slice(-20)]. *)
Definition slice_from_1 (a : list byte) : list byte := skipn 1 a.
Definition slice_last_20 (a : list byte) : list byte :=
  skipn (List.length a - 20) a.

Definition getAddressFromPrivateKey (w : World) (privateKeyHex : string)
  : Completion (list byte) :=
  let privateKeyBytes := hexToBytes privateKeyHex in
  match getPublicKey w privateKeyBytes with
  | Throw e => Throw e
  | Normal publicKey =>
      let publicKeyHash := keccak_256 w (slice_from_1 publicKey) in
      Normal (slice_last_20 publicKeyHash)
  end.

(** [hexToBytes] applied to a value the type checker did not see: anything
    but a string has no [replace] method. *)
Definition hexToBytes_value (v : JS.Value) : Completion (list byte) :=
  match v with
  | JS.VString s => Normal (hexToBytes s)
  | _ => Throw (LibraryError "TypeError: hex.replace is not a function")
  end.

End Crypto.

(** ** [src/utils/swarm.ts]

    The module carries its own copies of [hexToBytes], [bytesToHex] and
    [getAddressFromPrivateKey], letter for letter those of [utils/crypto.ts];
    the definitions of [Crypto] stand for both. *)

Module Swarm.

Import Crypto.

(** PostageStamp contract on Gnosis Chain. *)
Definition POSTAGE_STAMP_ADDRESS : string :=
  "0x45a1502382541Cd610CC9068e88727426b696293".

(** The one function of [BATCH_DEPTH_ABI]. *)
Definition BATCH_DEPTH_FUNCTION : string := "batchDepth".

(** The default of the parameter [rpcUrl]. *)
Definition FETCH_BATCH_DEPTH_DEFAULT_RPC : string := "https://rpc.gnosis.gateway.fm".

Definition fetchBatchDepth (w : World) (batchId : string) (rpcUrl : option string)
  : M JS.Value :=
  let rpcUrl := default FETCH_BATCH_DEPTH_DEFAULT_RPC rpcUrl in
  try_catch
    (let prefixedBatchId :=
       if String.prefix "0x" batchId then batchId else "0x" ++ batchId in
     emit (ReadContract rpcUrl POSTAGE_STAMP_ADDRESS BATCH_DEPTH_FUNCTION
             [prefixedBatchId]) ;;;
     depth <- lift (readContract w rpcUrl POSTAGE_STAMP_ADDRESS
                      BATCH_DEPTH_FUNCTION [prefixedBatchId]) ;;
     ret (JS.VNumber (JS.number_of_Z depth)))
    (fun _ => ret JS.VNull).

(** [axios.get(url, { timeout, validateStatus })]: the promise rejects when no
    response arrives and when [validateStatus] refuses the status. *)
Definition axios_get (w : World) (url : string) (timeout : Z)
    (validateStatus : Z -> bool) : M Response :=
  emit (HttpGet url timeout) ;;;
  match http w url with
  | NoResponse => throw (LibraryError "AxiosError: no response")
  | Responded r =>
      if validateStatus (status r) then ret r
      else throw (LibraryError "AxiosError: status refused")
  end.

(** [response.headers[name]]. *)
Definition header (r : Response) (name : string) : JS.Value :=
  JS.of_option (headers r !! name).

Definition is_undefined (v : JS.Value) : bool :=
  match v with
  | JS.VUndefined => true
  | _ => false
  end.

Definition is_null (v : JS.Value) : bool :=
  match v with
  | JS.VNull => true
  | _ => false
  end.

(** [v + 1] for a [v] that is not a string: a number is incremented, [true],
    [false] and [null] are converted first, a plain object is converted to
    the text [[object Object]] and an array to the text of its elements, and
    the [1] is appended. *)
Definition plus_one (v : JS.Value) : JS.Value :=
  match v with
  | JS.VString s => JS.VString (s ++ "1")
  | JS.VObject _ => JS.VString "[object Object]1"
  | JS.VArray items => JS.VString (JS.array_text items ++ "1")
  | JS.VNumber n => JS.VNumber (JS.succ n)
  | JS.VBool b => JS.VNumber (JS.Int (if b then 2 else 1))
  | JS.VNull => JS.VNumber (JS.Int 1)
  | JS.VUndefined => JS.VNumber JS.NaN
  end.

(** The value read for the next index, and for the current one. *)
Definition feedIndexNext_of (response : Response) : JS.Value :=
  JS.or (header response "swarm-feed-index-next")
        (JS.get (data response) "feedIndexNext").

Definition feedIndex_of (response : Response) : JS.Value :=
  JS.or (header response "swarm-feed-index")
        (JS.get (data response) "feedIndex").

(** The address the feed is looked up at. *)
Definition feed_url (gatewayUrl : string) (owner topic : list byte) : string :=
  gatewayUrl ++ "/feeds/" ++ bytesToHex owner ++ "/" ++ bytesToHex topic.

Definition NULL_TOPIC : list byte := repeat x00 32.

Definition fetchNextFeedIndex (w : World) (vaultPrivateKey gatewayUrl : string)
    (topic : option (list byte)) : M JS.Value :=
  let topic := default NULL_TOPIC topic in
  try_catch
    (owner <- lift (getAddressFromPrivateKey w vaultPrivateKey) ;;
     response <- axios_get w (feed_url gatewayUrl owner topic) 5000
                   (fun status => (status =? 200) || (status =? 404)) ;;
     (* If feed doesn't exist yet (404), start at index 0 *)
     if status response =? 404 then ret (JS.VNumber (JS.Int 0))
     else
       (* Try to get feedIndexNext from headers or body *)
       let feedIndexNext := feedIndexNext_of response in
       if negb (is_undefined feedIndexNext) then
         match feedIndexNext with
         | JS.VString s => ret (JS.VNumber (JS.parseInt s 16))
         | _ => ret feedIndexNext
         end
       else
         (* If we have feedIndex but not feedIndexNext, increment it *)
         let feedIndex := feedIndex_of response in
         if negb (is_undefined feedIndex) then
           match feedIndex with
           | JS.VString s => ret (JS.VNumber (JS.succ (JS.parseInt s 16)))
           | _ => ret (plus_one feedIndex)
           end
         else ret JS.VNull)
    (fun _ => ret JS.VNull).

End Swarm.

(** ** What the two commands share *)

Module Cli.

Definition is_hex_char (c : ascii) : bool :=
  match JS.digit_value c with
  | Some d => d <? 16
  | None => false
  end.

(** [s.match(/^(0x)?[0-9a-fA-F]{64}$/)] is not null. *)
Definition matches_hex64 (s : string) : bool :=
  let body := Crypto.remove_0x s in
  (String.length body =? 64)%nat && forallb is_hex_char (list_ascii_of_string body).

(** An option of the command line in a condition: absent and empty are
    false. *)
Definition given (o : option string) : bool := JS.truthy (JS.of_option o).

(** [o || fallback] for an option that holds text. *)
Definition or_default (o : option string) (fallback : string) : string :=
  match o with
  | Some s => if String.eqb s "" then fallback else s
  | None => fallback
  end.

(** [error instanceof Error ? error.message : error]; a library's exception is
    shown by where it came from. *)
Definition error_message (e : Exception) : Text :=
  match e with
  | Error message => Lit message
  | LibraryError origin => Lit origin
  | HttpError origin _ _ _ => Lit origin
  end.

End Cli.

(** ** [src/commands/feed.ts] *)

Module Feed.

Import Crypto Swarm Cli.

(** [updateFeed(options)].  The argument is the object the caller built; a
    property it did not set reads as [undefined]. *)
Definition updateFeed (w : World) (options : gmap string JS.Value) : M unit :=
  let opt name := JS.get (JS.VObject options) name in
  topic <- (if JS.truthy (opt "topic") then lift (hexToBytes_value (opt "topic"))
            else ret NULL_TOPIC) ;;
  let index := JS.nullish (opt "index") (JS.VNumber (JS.Int 0)) in
  let depth := JS.nullish (opt "depth") (JS.VNumber (JS.Int 20)) in
  let gateway := JS.or (opt "gateway") (JS.VString "https://bzz.sh") in
  (* Derive project key if project is specified *)
  signerPrivateKey <-
    (if JS.truthy (opt "project") then
       projectSlug <- lift (normalizeProjectSlug w (opt "project")) ;;
       projectKey <- lift (deriveProjectKey w (opt "vaultKey") projectSlug) ;;
       ret (JS.VString projectKey)
     else ret JS.VUndefined) ;;
  let request := {|
    vaultPrivateKey := opt "vaultKey";
    signerPrivateKey := signerPrivateKey;
    contentReference := opt "reference";
    feedIndex := index;
    Eff.batchId := opt "batchId";
    Eff.depth := depth;
    gatewayUrl := gateway;
    Eff.topic := topic |} in
  emit (WriteFeedUpdate request) ;;;
  lift (writeFeedUpdate w request).

(** The options of [feed update] as commander hands them to the action. *)
Record Options : Type := {
  reference : string;
  key : string;
  project : option string;
  gateway : option string;
  index : option string;
  topic : option string;
  batchId : option string;
  depth : option string;
  quiet : bool
}.

(** Derive project key if project is specified: the signer key handed to the
    library, and [feedOwnerKey]. *)
Definition keys_block (w : World) (options : Options) : M (JS.Value * string) :=
  if given (project options) then
    projectSlug <- lift (normalizeProjectSlug w (JS.of_option (project options))) ;;
    projectKey <- lift (deriveProjectKey w (JS.VString (key options)) projectSlug) ;;
    when (negb (quiet options))
      (emit (SpinnerSucceed (Lit ("Using project: " ++ projectSlug))) ;;;
       emit (SpinnerStart (Lit "Preparing feed update..."))) ;;;
    ret (JS.VString projectKey, projectKey)
  else ret (JS.VUndefined, key options).

(** Fetch batch depth if not provided. *)
Definition depth_block (w : World) (options : Options) : M JS.Value :=
  let talk := negb (quiet options) in
  if given (depth options) then
    ret (JS.VNumber (JS.parseInt (default "" (depth options)) 0))
  else
    when talk (emit (SpinnerText (Lit "Fetching batch depth..."))) ;;;
    fetchedDepth <- fetchBatchDepth w (default "" (batchId options))
                      (Some (or_default (gateway options) (DEFAULT_GATEWAY_URL w))) ;;
    if negb (is_null fetchedDepth) then
      when talk
        (emit (SpinnerSucceed (Template "Using batch depth: " fetchedDepth "")) ;;;
         emit (SpinnerStart (Lit "Preparing feed update..."))) ;;;
      ret fetchedDepth
    else
      when talk
        (emit (SpinnerWarn (Lit "Could not fetch batch depth, using default: 20")) ;;;
         emit (SpinnerStart (Lit "Preparing feed update..."))) ;;;
      ret (JS.VNumber (JS.Int 20)).

(** Fetch next feed index if not provided (use feed owner key). *)
Definition index_block (w : World) (options : Options) (feedOwnerKey : string)
    (topic : list byte) : M JS.Value :=
  let talk := negb (quiet options) in
  if given (index options) then
    ret (JS.VNumber (JS.parseInt (default "" (index options)) 0))
  else
    when talk (emit (SpinnerText (Lit "Fetching next feed index..."))) ;;;
    fetchedIndex <- fetchNextFeedIndex w feedOwnerKey
                      (or_default (gateway options) (DEFAULT_GATEWAY_URL w))
                      (Some topic) ;;
    if negb (is_null fetchedIndex) then
      when talk (emit (SpinnerSucceed (Template "Using feed index: " fetchedIndex ""))) ;;;
      ret fetchedIndex
    else
      when talk
        (emit (SpinnerWarn (Lit "Could not fetch feed index, using default: 0"))) ;;;
      ret (JS.VNumber (JS.Int 0)).

(** [options.topic ? hexToBytes(options.topic) : new Uint8Array(32)]. *)
Definition topic_of (options : Options) : list byte :=
  if given (topic options) then hexToBytes (default "" (topic options))
  else NULL_TOPIC.

(** The object given to [writeFeedUpdate] by the action. *)
Definition request_of (w : World) (options : Options)
    (signerPrivateKey index depth : JS.Value) : WriteRequest := {|
  vaultPrivateKey := JS.VString (key options);
  signerPrivateKey := signerPrivateKey;
  contentReference := JS.VString (reference options);
  feedIndex := index;
  Eff.batchId := JS.VString (default "" (batchId options));
  Eff.depth := depth;
  gatewayUrl := JS.VString (or_default (gateway options) (DEFAULT_GATEWAY_URL w));
  Eff.topic := topic_of options |}.

(** What the action prints once the write went through.  (The owner is
    rendered by [Binary.uint8ArrayToHex], which writes bytes as
    [bytesToHex] does.) *)
Definition report (w : World) (options : Options) (feedOwnerKey : string)
    (index : JS.Value) : M unit :=
  if quiet options then emit (ConsoleLog [Lit "success"])
  else
    emit (SpinnerSucceed (Lit "Feed updated successfully")) ;;;
    emit (ConsoleLog [Lit "Feed update complete!"]) ;;;
    emit (ConsoleLog [Lit "Index:     "; Template "" index ""]) ;;;
    emit (ConsoleLog [Lit "Reference: "; Lit (reference options)]) ;;;
    (* Calculate feed address for display (use feed owner key) *)
    owner <- lift (getAddressFromPrivateKey w feedOwnerKey) ;;
    emit (ConsoleLog [Lit "Owner:     "; Lit ("0x" ++ bytesToHex owner)]) ;;;
    when (given (project options))
      (emit (ConsoleLog [Lit "Project:   "; Lit (default "" (project options))])).

(** Validate inputs. *)
Definition validate (options : Options) : M unit :=
  when (negb (matches_hex64 (reference options)))
    (throw (Error "Invalid reference format (expected 64 hex characters)")) ;;;
  when (negb (matches_hex64 (key options)))
    (throw (Error "Invalid key format (expected 64 hex characters)")) ;;;
  when (negb (given (batchId options)))
    (throw (Error "--batch-id is required for feed updates")).

(** The body of the action's [try]. *)
Definition update_try (w : World) (options : Options) : M unit :=
  validate options ;;;
  keys <- keys_block w options ;;
  depth <- depth_block w options ;;
  index <- index_block w options (snd keys) (topic_of options) ;;
  when (negb (quiet options))
    (emit (SpinnerText (Template "Writing feed update at index " index "..."))) ;;;
  let request := request_of w options (fst keys) index depth in
  emit (WriteFeedUpdate request) ;;;
  lift (writeFeedUpdate w request) ;;;
  report w options (snd keys) index.

(** The action of [feed update]: the [try], and the [catch] that reports and
    leaves with exit code 1. *)
Definition update_action (w : World) (options : Options) : M unit :=
  when (negb (quiet options)) (emit (SpinnerStart (Lit "Updating feed..."))) ;;;
  try_catch (update_try w options)
    (fun error =>
       when (negb (quiet options)) (emit (SpinnerFail (Lit "Feed update failed"))) ;;;
       emit (ConsoleError [Lit "Error:"; error_message error]) ;;;
       emit (ProcessExit 1)).

(** The defaults commander fills in before the action runs. *)
Definition with_defaults (w : World) (options : Options) : Options := {|
  reference := reference options;
  key := key options;
  project := project options;
  gateway := Some (default (DEFAULT_GATEWAY_URL w) (gateway options));
  index := index options;
  topic := topic options;
  batchId := batchId options;
  depth := depth options;
  quiet := quiet options
|}.

End Feed.

(** ** [src/commands/upload.ts] *)

Module Upload.

Import Crypto Swarm Cli.

(** The options of [upload] as commander hands them to the action. *)
Record Options : Type := {
  batchId : string;
  key : string;
  gateway : option string;
  indexDocument : option string;
  spa : bool;
  quiet : bool;
  verbose : bool;
  gnosisRpc : option string;
  project : option string;
  output : option string;
  feed : bool;
  feedIndex : option string;
  depth : option string
}.

(** Convert file paths to File objects. *)
Fixpoint pathsToFiles (w : World) (filePaths : list string) (basePath : string)
  : M (list File) :=
  match filePaths with
  | [] => ret []
  | filePath :: more =>
      let fullPath := path_resolve w filePath in
      let relativePath := path_relative w basePath fullPath in
      emit (ReadFile fullPath) ;;;
      fileData <- lift (readFile w fullPath) ;;
      files <- pathsToFiles w more basePath ;;
      ret ({| file_name := relativePath; file_data := fileData |} :: files)
  end.

(** The object literal passed to [updateFeed]. *)
Definition updateFeed_argument (options : Options) (result : UploadResult)
    (feedIndex depth : JS.Value) : gmap string JS.Value :=
  <[ "reference" := JS.VString (reference result) ]>
  (<[ "reserveKey" := JS.VString (key options) ]>
  (<[ "batchId" := JS.VString (batchId options) ]>
  (<[ "gateway" := JS.of_option (gateway options) ]>
  (<[ "index" := feedIndex ]>
  (<[ "depth" := depth ]>
  (<[ "project" := JS.of_option (project options) ]> ∅)))))).

(** Derive project key if project is specified: [feedOwnerKey]. *)
Definition keys_block (w : World) (options : Options) : M string :=
  if given (project options) then
    projectSlug <- lift (normalizeProjectSlug w (JS.of_option (project options))) ;;
    projectKey <- lift (deriveProjectKey w (JS.VString (key options)) projectSlug) ;;
    when (negb (quiet options))
      (emit (SpinnerSucceed (Lit ("Using project: " ++ projectSlug)))) ;;;
    ret projectKey
  else ret (key options).

(** Fetch next feed index if not provided. *)
Definition index_block (w : World) (options : Options) (feedOwnerKey : string)
  : M JS.Value :=
  let talk := negb (quiet options) in
  if given (feedIndex options) then
    ret (JS.VNumber (JS.parseInt (default "" (feedIndex options)) 0))
  else
    when talk (emit (SpinnerStart (Lit "Fetching next feed index..."))) ;;;
    fetchedIndex <- fetchNextFeedIndex w feedOwnerKey
                      (or_default (gateway options) (DEFAULT_GATEWAY_URL w)) None ;;
    if negb (is_null fetchedIndex) then
      when talk (emit (SpinnerSucceed (Template "Using feed index: " fetchedIndex ""))) ;;;
      ret fetchedIndex
    else
      when talk
        (emit (SpinnerWarn (Lit "Could not fetch feed index, using default: 0"))) ;;;
      ret (JS.VNumber (JS.Int 0)).

(** Update feed if requested: the body of [if (options.feed)]. *)
Definition feed_block (w : World) (options : Options) (result : UploadResult)
    (depth : JS.Value) : M unit :=
  feedOwnerKey <- keys_block w options ;;
  feedIndex <- index_block w options feedOwnerKey ;;
  when (negb (quiet options)) (emit (SpinnerStart (Lit "Updating feed..."))) ;;;
  Feed.updateFeed w (updateFeed_argument options result feedIndex depth) ;;;
  when (negb (quiet options)) (emit (SpinnerSucceed (Lit "Feed updated successfully"))).

(** Fetch batch depth if not provided. *)
Definition depth_block (w : World) (options : Options) : M JS.Value :=
  let talk := negb (quiet options) in
  if given (depth options) then
    ret (JS.VNumber (JS.parseInt (default "" (depth options)) 0))
  else
    when talk (emit (SpinnerText (Lit "Fetching batch depth..."))) ;;;
    fetchedDepth <- fetchBatchDepth w (batchId options) (gnosisRpc options) ;;
    if negb (is_null fetchedDepth) then
      when talk
        (emit (SpinnerSucceed (Template "Using batch depth: " fetchedDepth "")) ;;;
         emit (SpinnerStart (Lit "Preparing upload..."))) ;;;
      ret fetchedDepth
    else
      when talk
        (emit (SpinnerWarn (Lit "Could not fetch batch depth, using default: 20")) ;;;
         emit (SpinnerStart (Lit "Preparing upload..."))) ;;;
      ret (JS.VNumber (JS.Int 20)).

(** Validate inputs. *)
Definition validate (options : Options) : M unit :=
  when (negb (matches_hex64 (batchId options)))
    (throw (Error "Invalid batch ID format (expected 64 hex characters)")) ;;;
  when (negb (matches_hex64 (key options)))
    (throw (Error "Invalid key format (expected 64 hex characters)")).

(** Resolve path, and read the directory or the single file. *)
Definition files_block (w : World) (uploadPath : string) (options : Options)
  : M (list File) :=
  let talk := negb (quiet options) in
  let fullPath := path_resolve w uploadPath in
  emit (FsStat fullPath) ;;;
  isDirectory <- lift (stat_isDirectory w fullPath) ;;
  if isDirectory : bool then
    (* Upload entire directory *)
    when talk (emit (SpinnerText (Lit "Scanning directory..."))) ;;;
    let pattern := path_join w fullPath "**/*" in
    emit (Glob pattern) ;;;
    filePaths <- lift (glob w pattern) ;;
    when (List.length filePaths =? 0)%nat
      (throw (Error "No files found in directory")) ;;;
    when talk
      (emit (SpinnerSucceed
               (Template "Found "
                  (JS.VNumber (JS.Int (Z.of_nat (List.length filePaths)))) " files")) ;;;
       emit (SpinnerStart (Lit "Preparing files..."))) ;;;
    pathsToFiles w filePaths fullPath
  else
    (* Upload single file *)
    pathsToFiles w [fullPath] (path_dirname w fullPath).

(** Create uploader: the configuration. *)
Definition config_of (w : World) (options : Options) (depth : JS.Value)
  : UploaderConfig := {|
  uploader_gatewayUrl := or_default (gateway options) (DEFAULT_GATEWAY_URL w);
  uploader_batchId := batchId options;
  uploader_privateKey := key options;
  uploader_depth := depth |}.

(** Output results. *)
Definition report (options : Options) (result : UploadResult) : M unit :=
  if given (output options) && String.eqb (default "" (output options)) "json" then
    emit (ConsoleLog [Lit "reference"; Lit (reference result);
                      Lit "url"; Lit (url result); Lit "cid"; Lit (cid result)])
  else if negb (quiet options) then
    emit (ConsoleLog [Lit "Upload successful!"]) ;;;
    emit (ConsoleLog [Lit "Reference:"; Lit (reference result)]) ;;;
    emit (ConsoleLog [Lit "CID:      "; Lit (cid result)]) ;;;
    emit (ConsoleLog [Lit "URL:      "; Lit (url result)])
  else
    emit (ConsoleLog [Lit (reference result)]).

(** The body of the action's [try].  (The progress callback given to
    [uploadFiles] only rewrites the spinner while the library runs; it is
    part of the library call here.) *)
Definition upload_try (w : World) (uploadPath : string) (options : Options) : M unit :=
  validate options ;;;
  files <- files_block w uploadPath options ;;
  depth <- depth_block w options ;;
  let config := config_of w options depth in
  lift (newStampedUploader w config) ;;;
  when (negb (quiet options)) (emit (SpinnerText (Lit "Uploading to Swarm..."))) ;;;
  emit (UploadFiles config files (indexDocument options) (spa options)) ;;;
  result <- lift (uploadFiles w config files (indexDocument options) (spa options)) ;;
  when (feed options) (feed_block w options result depth) ;;;
  report options result.

(** Show axios error details if it's an HTTP error: the body of
    [if (error && typeof error === 'object' && 'response' in error)]. *)
Definition http_error_details (response url : JS.Value) (method : option string)
  : M unit :=
  emit (ConsoleError [Lit "HTTP Error Details:"]) ;;;
  emit (ConsoleError [Lit "Status:"; Template "" (JS.get response "status") ""]) ;;;
  emit (ConsoleError [Lit "Status Text:";
                      Template "" (JS.get response "statusText") ""]) ;;;
  emit (ConsoleError [Lit "URL:"; Template "" url ""]) ;;;
  emit (ConsoleError [Lit "Method:";
                      match method with
                      | Some m => UpperCase m
                      | None => Template "" JS.VUndefined ""
                      end]) ;;;
  when (JS.truthy (JS.get response "headers"))
    (emit (ConsoleError [Lit "Response Headers:";
                         Json (JS.get response "headers")])) ;;;
  when (JS.truthy (JS.get response "data"))
    (emit (ConsoleError [Lit "Response Data:"; Json (JS.get response "data")])).

(** The body of [if (options.verbose)] in the [catch].  (Every exception of
    the embedding is an instance of [Error].) *)
Definition verbose_error_details (error : Exception) : M unit :=
  emit (ConsoleError [Lit "=== Verbose Error Details ==="]) ;;;
  emit (ConsoleError [Lit "Stack trace:"]) ;;;
  emit (ConsoleError [Stack error]) ;;;
  match error with
  | HttpError _ response url method => http_error_details response url method
  | _ => ret tt
  end ;;;
  emit (ConsoleError [Lit "Full error object:"]) ;;;
  emit (ConsoleError [JsonOfError error]).

(** The action of [upload]: the [try], and the [catch] that reports (at more
    length under [--verbose]) and leaves with exit code 1. *)
Definition upload_action (w : World) (uploadPath : string) (options : Options)
  : M unit :=
  when (negb (quiet options)) (emit (SpinnerStart (Lit "Preparing upload..."))) ;;;
  try_catch (upload_try w uploadPath options)
    (fun error =>
       when (negb (quiet options)) (emit (SpinnerFail (Lit "Upload failed"))) ;;;
       emit (ConsoleError [Lit "Error:"; error_message error]) ;;;
       when (verbose options) (verbose_error_details error) ;;;
       emit (ProcessExit 1)).

(** The defaults commander fills in before the action runs. *)
Definition with_defaults (w : World) (options : Options) : Options := {|
  batchId := batchId options;
  key := key options;
  gateway := Some (default (DEFAULT_GATEWAY_URL w) (gateway options));
  indexDocument := Some (default "index.html" (indexDocument options));
  spa := spa options;
  quiet := quiet options;
  verbose := verbose options;
  gnosisRpc := Some (default (DEFAULT_GNOSIS_RPC_URL w) (gnosisRpc options));
  project := project options;
  output := Some (default "text" (output options));
  feed := feed options;
  feedIndex := feedIndex options;
  depth := depth options
|}.

End Upload.

(** ** [normalizeProjectSlug], from the specification *)

Module Stamper.

Definition lowercase (c : ascii) : ascii :=
  let n := N_of_ascii c in
  if ((65 <=? n) && (n <=? 90))%N then ascii_of_N (n + 32) else c.

(** A character of [[a-z0-9]]. *)
Definition is_slug_alnum (c : ascii) : bool :=
  let n := N_of_ascii c in
  ((48 <=? n) && (n <=? 57) || (97 <=? n) && (n <=? 122))%N.

Definition hyphen : ascii := "-"%char.

(** Every maximal run of characters outside [[a-z0-9]] becomes one hyphen;
    [in_run] says that the run the next character would extend has its
    hyphen already. *)
Fixpoint collapse_runs (in_run : bool) (cs : list ascii) : list ascii :=
  match cs with
  | [] => []
  | c :: rest =>
      if is_slug_alnum c then c :: collapse_runs false rest
      else if in_run then collapse_runs true rest
      else hyphen :: collapse_runs true rest
  end.

Fixpoint trim_leading (cs : list ascii) : list ascii :=
  match cs with
  | c :: rest => if Ascii.eqb c hyphen then trim_leading rest else cs
  | [] => []
  end.

Definition trim_hyphens (cs : list ascii) : list ascii :=
  rev (trim_leading (rev (trim_leading cs))).

(** The slug before the check for emptiness. *)
Definition slug_chars (name : string) : list ascii :=
  firstn 50 (trim_hyphens (collapse_runs false (map lowercase (list_ascii_of_string name)))).

(** Modelled from the spec: [normalizeProjectSlug] of the package
    [@hostasis/swarm-stamper], which the commands import and whose source is
    not among the files of this repository.  Section 4.2: "lowercases,
    replaces every maximal run of characters outside [a-z0-9] with a single
    -, trims leading/trailing -, truncates to 50 characters.  Fails with
    InvalidSlug if the result is empty." *)
Definition normalizeProjectSlug (name : string) : Completion string :=
  match slug_chars name with
  | [] => Throw (Error "InvalidSlug")
  | cs => Normal (string_of_list_ascii cs)
  end.

End Stamper.

(** ** Reading a trace *)

Module Trace.

(** The contract reads of a trace: RPC URL, contract address, function,
    arguments. *)
Definition rpc_calls (t : list Event) : list (string * string * string * list string) :=
  flat_map (fun ev => match ev with
                      | ReadContract u a f args => [(u, a, f, args)]
                      | _ => []
                      end) t.

(** The addresses fetched with GET. *)
Definition http_gets (t : list Event) : list string :=
  flat_map (fun ev => match ev with HttpGet u _ => [u] | _ => [] end) t.

(** The requests handed to [writeFeedUpdate]. *)
Definition writes (t : list Event) : list WriteRequest :=
  flat_map (fun ev => match ev with WriteFeedUpdate r => [r] | _ => [] end) t.

(** The configurations uploads ran with. *)
Definition uploads (t : list Event) : list UploaderConfig :=
  flat_map (fun ev => match ev with UploadFiles c _ _ _ => [c] | _ => [] end) t.

(** The warnings shown. *)
Definition warnings (t : list Event) : list Text :=
  flat_map (fun ev => match ev with SpinnerWarn m => [m] | _ => [] end) t.

(** The errors printed. *)
Definition errors (t : list Event) : list (list Text) :=
  flat_map (fun ev => match ev with ConsoleError m => [m] | _ => [] end) t.

(** The events that reach the network. *)
Definition network (t : list Event) : list Event := List.filter is_network t.

End Trace.

(** ** A small world to run the commands in

    Stand-ins for the libraries, enough to evaluate a run: the "public key"
    of 32 bytes is the marker [0x04] and the key twice, the "hash" keeps the
    first 32 bytes, the project key is a fixed text. *)

Module Example.

Definition K : string :=
  "1111111111111111111111111111111111111111111111111111111111111111".
Definition BATCH : string :=
  "2222222222222222222222222222222222222222222222222222222222222222".
Definition REFERENCE : string :=
  "3333333333333333333333333333333333333333333333333333333333333333".
Definition PROJECT_KEY : string :=
  "4444444444444444444444444444444444444444444444444444444444444444".

Definition publicKey (k : list byte) : Completion (list byte) :=
  if (List.length k =? 32)%nat then Normal (x04 :: k ++ k)%list
  else Throw (LibraryError "invalid private key").

Definition digest (bs : list byte) : list byte :=
  firstn 32 (bs ++ repeat x00 32)%list.

Definition slug (v : JS.Value) : Completion string :=
  match v with
  | JS.VString s => Stamper.normalizeProjectSlug s
  | _ => Throw (LibraryError "TypeError")
  end.

Definition derive (parent : JS.Value) (slug : string) : Completion string :=
  match parent with
  | JS.VString _ => Normal PROJECT_KEY
  | _ => Throw (LibraryError "TypeError")
  end.

(** A world whose chain answers [rpc] and whose gateway answers [gateway];
    writes and uploads succeed, the path given is a single file. *)
Definition world (rpc : Completion Z) (gateway : string -> HttpOutcome) : World := {|
  keccak_256 := digest;
  getPublicKey := publicKey;
  normalizeProjectSlug := slug;
  deriveProjectKey := derive;
  writeFeedUpdate := fun _ => Normal tt;
  newStampedUploader := fun _ => Normal tt;
  uploadFiles := fun _ _ _ _ =>
    Normal {| reference := REFERENCE; url := "https://bzz.sh/bzz/ref"; cid := "bah5" |};
  readContract := fun _ _ _ _ => rpc;
  http := gateway;
  path_resolve := fun p => p;
  path_join := fun a b => a ++ "/" ++ b;
  path_relative := fun _ p => p;
  path_dirname := fun _ => ".";
  stat_isDirectory := fun _ => Normal false;
  glob := fun _ => Normal [];
  readFile := fun _ => Normal [];
  DEFAULT_GATEWAY_URL := "https://bzz.sh";
  DEFAULT_GNOSIS_RPC_URL := "https://rpc.gnosis.gateway.fm"
|}.

Definition respond (status : Z) (headers : list (string * string)) (data : JS.Value)
  : string -> HttpOutcome :=
  fun _ => Responded {| status := status; headers := list_to_map headers; data := data |}.

Definition unreachable : Completion Z := Throw (LibraryError "HttpRequestError").

Definition feed_options : Feed.Options := {|
  Feed.reference := REFERENCE;
  Feed.key := K;
  Feed.project := None;
  Feed.gateway := Some "https://bzz.sh";
  Feed.index := None;
  Feed.topic := None;
  Feed.batchId := Some BATCH;
  Feed.depth := None;
  Feed.quiet := false
|}.

Definition upload_options : Upload.Options := {|
  Upload.batchId := BATCH;
  Upload.key := K;
  Upload.gateway := Some "https://bzz.sh";
  Upload.indexDocument := Some "index.html";
  Upload.spa := false;
  Upload.quiet := false;
  Upload.verbose := false;
  Upload.gnosisRpc := Some "https://rpc.gnosis.gateway.fm";
  Upload.project := None;
  Upload.output := Some "text";
  Upload.feed := true;
  Upload.feedIndex := None;
  Upload.depth := None
|}.


(** [feed update --batch-id xyz]. *)
Definition xyz_feed_options : Feed.Options := {|
  Feed.reference := REFERENCE;
  Feed.key := K;
  Feed.project := None;
  Feed.gateway := Some "https://bzz.sh";
  Feed.index := None;
  Feed.topic := None;
  Feed.batchId := Some "xyz";
  Feed.depth := None;
  Feed.quiet := false
|}.

(** [feed update --project "My Blog" --depth 20 --index 7]. *)
Definition project_feed_options : Feed.Options := {|
  Feed.reference := REFERENCE;
  Feed.key := K;
  Feed.project := Some "My Blog";
  Feed.gateway := Some "https://bzz.sh";
  Feed.index := Some "7";
  Feed.topic := None;
  Feed.batchId := Some BATCH;
  Feed.depth := Some "20";
  Feed.quiet := false
|}.


End Example.

(** ** Notions the properties are stated with *)

Module Spec.

Import Crypto.

(** The two characters [bytesToHex] writes for one byte. *)
Definition byte_hex (b : byte) : string := padStart2 (toString16 b).

(** A character of [[0-9a-f]]. *)
Definition is_lower_hex (c : ascii) : bool :=
  let n := N_of_ascii c in
  ((48 <=? n) && (n <=? 57) || (97 <=? n) && (n <=? 102))%N.

Definition lowercase_hex (s : string) : bool :=
  forallb is_lower_hex (list_ascii_of_string s).

(** The sixteen digits. *)
Definition lower_hex_digits : list ascii :=
  list_ascii_of_string "0123456789abcdef".

(** What one step of the decoding loop stores. *)
Definition decode_pair (c1 c2 : ascii) : byte :=
  ToUint8 (JS.parseInt (String c1 (String c2 "")) 16).

(** The loop of [hexToBytes] on the text without prefix. *)
Definition decode (s : string) : list byte :=
  map (fun i => ToUint8 (JS.parseInt (String.substring (i * 2) 2 s) 16))
      (seq 0 (String.length s / 2)).

(** A character a slug may hold: [[a-z0-9]] or the hyphen. *)
Definition is_slug_char (c : ascii) : bool :=
  Stamper.is_slug_alnum c || Ascii.eqb c Stamper.hyphen.

(** No two hyphens side by side. *)
Fixpoint no_adjacent_hyphens (cs : list ascii) : bool :=
  match cs with
  | c :: (d :: _) as rest =>
      negb (Ascii.eqb c Stamper.hyphen && Ascii.eqb d Stamper.hyphen)
      && no_adjacent_hyphens rest
  | _ => true
  end.

(** The first character, if there is one, is not a hyphen. *)
Definition no_leading_hyphen (cs : list ascii) : bool :=
  match cs with
  | c :: _ => negb (Ascii.eqb c Stamper.hyphen)
  | [] => true
  end.

(** A text of hexadecimal digits, at least one. *)
Definition is_hex_text (s : string) : bool :=
  negb (String.eqb s "") && forallb Cli.is_hex_char (list_ascii_of_string s).

(** The number a text of hexadecimal digits writes, read by the Standard
    Library. *)
Definition base16 (s : string) : Z := Z.of_N (HexString.Raw.to_N s 0).

(** The header and the body field a response may give an index in. *)
Definition NEXT : string * string := ("swarm-feed-index-next", "feedIndexNext").
Definition CURRENT : string * string := ("swarm-feed-index", "feedIndex").

(** The response carries the field with value [v]: as a header whose text is
    not empty, or, without the header, in the body as a number or a text. *)
Inductive carries (r : Response) (field : string * string) : JS.Value -> Prop :=
| carries_header (s : string) :
    headers r !! fst field = Some s -> s <> "" ->
    carries r field (JS.VString s)
| carries_body_number (n : JS.Number') :
    headers r !! fst field = None ->
    JS.get (data r) (snd field) = JS.VNumber n ->
    carries r field (JS.VNumber n)
| carries_body_text (s : string) :
    headers r !! fst field = None ->
    JS.get (data r) (snd field) = JS.VString s ->
    carries r field (JS.VString s).

(** The response has the field neither as a header nor in the body. *)
Definition lacks (r : Response) (field : string * string) : Prop :=
  headers r !! fst field = None /\ JS.get (data r) (snd field) = JS.VUndefined.

(** The number a field's value stands for: a text is read in base 16, a
    number is itself. *)
Definition reading (v : JS.Value) : JS.Number' :=
  match v with
  | JS.VString s => JS.parseInt s 16
  | JS.VNumber n => n
  | _ => JS.NaN
  end.

(** A number, or [null]. *)
Definition number_or_null (v : JS.Value) : bool :=
  match v with
  | JS.VNumber _ | JS.VNull => true
  | _ => false
  end.

(** What the body may hold as [feedIndexNext] for the result to be a number
    or [null]: anything but a boolean, an object or an array; and as
    [feedIndex]: anything but an object or an array. *)
Definition next_field_ok (v : JS.Value) : bool :=
  match v with
  | JS.VBool _ | JS.VObject _ | JS.VArray _ => false
  | _ => true
  end.

Definition current_field_ok (v : JS.Value) : bool :=
  match v with
  | JS.VObject _ | JS.VArray _ => false
  | _ => true
  end.

(** The key that owns and signs the feed: the project key derived from the
    reserve key and the slug of the project name when a project is given,
    the reserve key itself otherwise. *)
Definition signer_key (w : World) (reserveKey : string) (project : option string)
  : Completion string :=
  if Cli.given project then
    match normalizeProjectSlug w (JS.of_option project) with
    | Normal slug => deriveProjectKey w (JS.VString reserveKey) slug
    | Throw e => Throw e
    end
  else Normal reserveKey.

(** An event that neither reaches the network nor warns, reports an error or
    ends the process. *)
Definition unremarkable (ev : Event) : bool :=
  match ev with
  | FsStat _ | Glob _ | ReadFile _ | SpinnerStart _ | SpinnerText _
  | SpinnerSucceed _ | ConsoleLog _ => true
  | _ => false
  end.

(** [null] replaced by a fallback. *)
Definition or_fallback (fetched fallback : JS.Value) : JS.Value :=
  if Swarm.is_null fetched then fallback else fetched.

(** A text of decimal digits, at least one, and the number it writes: each
    digit counts for its place. *)
Definition is_decimal_char (c : ascii) : bool :=
  let n := N_of_ascii c in ((48 <=? n) && (n <=? 57))%N.

Definition is_decimal_text (s : string) : bool :=
  negb (String.eqb s "") && forallb is_decimal_char (list_ascii_of_string s).

Fixpoint base10 (s : string) : Z :=
  match s with
  | String c rest =>
      (Z.of_N (N_of_ascii c) - 48) * 10 ^ Z.of_nat (String.length rest) + base10 rest
  | EmptyString => 0
  end.

(** [0x] put in front of a batch id that has none. *)
Definition prefixed (batchId : string) : string :=
  if String.prefix "0x" batchId then batchId else "0x" ++ batchId.

(** The read of [batchDepth] on the PostageStamp contract, through [rpcUrl]. *)
Definition depth_read (rpcUrl batchId : string) : Event :=
  ReadContract rpcUrl Swarm.POSTAGE_STAMP_ADDRESS Swarm.BATCH_DEPTH_FUNCTION
    [prefixed batchId].

(** The contract read the feed command issues to resolve a depth. *)
Definition feed_depth_read (w : World) (o : Feed.Options) : Event :=
  depth_read (Cli.or_default (Feed.gateway o) (DEFAULT_GATEWAY_URL w))
    (default "" (Feed.batchId o)).

(** The contract read the upload command issues to resolve a depth. *)
Definition upload_depth_read (o : Upload.Options) : Event :=
  depth_read (default Swarm.FETCH_BATCH_DEPTH_DEFAULT_RPC (Upload.gnosisRpc o))
    (Upload.batchId o).

(** The lookup of the feed of [owner] and [topic] at the gateway. *)
Definition feed_lookup (gatewayUrl : string) (owner topic : list byte) : Event :=
  HttpGet (Swarm.feed_url gatewayUrl owner topic) 5000.

(** What a computation returned, [fallback] standing in for a throw. *)
Definition returned {A : Type} (fallback : A) (m : M A) : A :=
  match completion m with
  | Normal a => a
  | Throw _ => fallback
  end.

(** Section 4.5, step 2: an explicit depth is used as given; otherwise the
    depth fetched, and 20 when none could be. *)
Definition resolved_depth (explicit : option string) (fetched : JS.Value) : JS.Value :=
  if Cli.given explicit then JS.VNumber (JS.parseInt (default "" explicit) 0)
  else or_fallback fetched (JS.VNumber (JS.Int 20)).

(** Section 4.5, step 3: an explicit index is used as given; otherwise the
    index fetched, and 0 when none could be. *)
Definition resolved_index (explicit : option string) (fetched : JS.Value) : JS.Value :=
  if Cli.given explicit then JS.VNumber (JS.parseInt (default "" explicit) 0)
  else or_fallback fetched (JS.VNumber (JS.Int 0)).

(** The warning shown when no depth could be fetched. *)
Definition DEPTH_WARNING : Text :=
  Lit "Could not fetch batch depth, using default: 20".

(** The request [updateFeed] builds from the object the upload command
    passes it. *)
Definition upload_request (o : Upload.Options) (result : UploadResult)
    (signerPrivateKey feedIndex depth : JS.Value) : WriteRequest := {|
  vaultPrivateKey := JS.VUndefined;
  signerPrivateKey := signerPrivateKey;
  contentReference := JS.VString (reference result);
  Eff.feedIndex := JS.nullish feedIndex (JS.VNumber (JS.Int 0));
  Eff.batchId := JS.VString (Upload.batchId o);
  Eff.depth := JS.nullish depth (JS.VNumber (JS.Int 20));
  gatewayUrl := JS.or (JS.of_option (Upload.gateway o)) (JS.VString "https://bzz.sh");
  Eff.topic := Swarm.NULL_TOPIC |}.

(** The lookup the index resolution issues for the feed owned by [signer]:
    none when the index is explicit, none either when [signer] has no
    address. *)
Definition index_lookup (w : World) (explicit : option string)
    (signer gatewayUrl : string) (topic : list byte) : list Event :=
  if Cli.given explicit then []
  else match Crypto.getAddressFromPrivateKey w signer with
       | Normal owner => [feed_lookup gatewayUrl owner topic]
       | Throw _ => []
       end.


(** The depth the upload command resolves. *)
Definition upload_depth (w : World) (o : Upload.Options) : JS.Value :=
  resolved_depth (Upload.depth o)
    (returned JS.VNull
       (Swarm.fetchBatchDepth w (Upload.batchId o) (Upload.gnosisRpc o))).

(** The depth and the index the feed command resolves. *)
Definition feed_depth (w : World) (o : Feed.Options) : JS.Value :=
  resolved_depth (Feed.depth o)
    (returned JS.VNull
       (Swarm.fetchBatchDepth w (default "" (Feed.batchId o))
          (Some (Cli.or_default (Feed.gateway o) (DEFAULT_GATEWAY_URL w))))).

Definition feed_index (w : World) (o : Feed.Options) (signer : string) : JS.Value :=
  resolved_index (Feed.index o)
    (returned JS.VNull
       (Swarm.fetchNextFeedIndex w signer
          (Cli.or_default (Feed.gateway o) (DEFAULT_GATEWAY_URL w))
          (Some (Feed.topic_of o)))).

(** The signer key [updateFeed] computes from the object of the upload
    command: the project key is derived from what the object holds as
    [vaultKey], which is [undefined]. *)
Definition upload_update_signer (w : World) (o : Upload.Options) : Completion JS.Value :=
  if Cli.given (Upload.project o) then
    match normalizeProjectSlug w (JS.of_option (Upload.project o)) with
    | Normal slug =>
        match deriveProjectKey w JS.VUndefined slug with
        | Normal projectKey => Normal (JS.VString projectKey)
        | Throw e => Throw e
        end
    | Throw e => Throw e
    end
  else Normal JS.VUndefined.

End Spec.

Import Spec.

(** ** Notions written without the program's functions

    The text of bytes, the bytes of a text, the address of a key, the
    address of a feed and the slug of a name, each defined on its own, for
    the program's functions to be compared with. *)

Module Reference.

(** *** Hexadecimal text *)

(** The bytes a text of hexadecimal digits writes, two digits to the byte,
    the digits read by the Standard Library. *)
Fixpoint bytes_of_hex (s : string) : option (list byte) :=
  match s with
  | EmptyString => Some []
  | String _ EmptyString => None
  | String c1 (String c2 rest) =>
      match HexString.ascii_to_digit c1, HexString.ascii_to_digit c2,
            bytes_of_hex rest with
      | Some d1, Some d2, Some bs =>
          option_map (fun b => b :: bs) (Byte.of_N (16 * d1 + d2))
      | _, _, _ => None
      end
  end.

(** The text writes the bytes: hexadecimal digits, with [0x] in front or
    without. *)
Definition writes_bytes (text : string) (bs : list byte) : Prop :=
  exists digits,
    (text = digits \/ text = "0x" ++ digits) /\ bytes_of_hex digits = Some bs.



(** *** Addresses *)

(** [address] is the address of the key: the curve gives the key's bytes the
    uncompressed public key [0x04 :: body], and [address] is the last 20
    bytes of the hash of [body]. *)
Definition address_of (w : World) (key : string) (address : list byte) : Prop :=
  exists keyBytes body high,
    writes_bytes key keyBytes /\
    getPublicKey w keyBytes = Normal (x04 :: body) /\
    keccak_256 w body = (high ++ address)%list /\
    List.length address = 20%nat.




(** *** Slugs *)

Definition CAPITALS : list ascii := list_ascii_of_string "ABCDEFGHIJKLMNOPQRSTUVWXYZ".
Definition SMALLS : list ascii := list_ascii_of_string "abcdefghijklmnopqrstuvwxyz".
Definition FIGURES : list ascii := list_ascii_of_string "0123456789".

Fixpoint position (c : ascii) (cs : list ascii) : option nat :=
  match cs with
  | [] => None
  | d :: rest => if Ascii.eqb c d then Some O else option_map S (position c rest)
  end.

(** A capital becomes the small letter at its place in the alphabet; any
    other character stays. *)
Definition to_lower (c : ascii) : ascii :=
  match position c CAPITALS with
  | Some i => nth i SMALLS c
  | None => c
  end.

(** A character of [[a-z0-9]]. *)
Definition is_letter_or_digit (c : ascii) : bool :=
  existsb (Ascii.eqb c) (SMALLS ++ FIGURES).

(** The pieces of a text between its characters outside [[a-z0-9]]: one
    piece more than there are such characters; a piece is empty where two of
    them meet and where the text starts or ends with one. *)
Fixpoint pieces (cs : list ascii) : list (list ascii) :=
  match cs with
  | [] => [[]]
  | c :: rest =>
      if is_letter_or_digit c then (c :: hd [] (pieces rest)) :: tl (pieces rest)
      else [] :: pieces rest
  end.

Definition is_empty (piece : list ascii) : bool :=
  match piece with
  | [] => true
  | _ => false
  end.

(** The maximal runs of characters of [[a-z0-9]], in order: the pieces that
    are not empty. *)
Definition runs (cs : list ascii) : list (list ascii) :=
  List.filter (fun piece => negb (is_empty piece)) (pieces cs).

(** Words with one hyphen between neighbours. *)
Fixpoint hyphenated (words : list (list ascii)) : list ascii :=
  match words with
  | [] => []
  | [word] => word
  | word :: more => (word ++ "-"%char :: hyphenated more)%list
  end.

(** The slug of a name: the runs of [[a-z0-9]] of the name in lower case,
    hyphenated, and of that the first 50 characters. *)
Definition slug_of (name : string) : list ascii :=
  firstn 50 (hyphenated (runs (map to_lower (list_ascii_of_string name)))).

End Reference.

Import Reference.


(** ** Further notions *)

Module Notions.

(** [A-Z] to [a-z], one character and a whole text. *)
Definition lower_char (c : ascii) : ascii :=
  let n := N_of_ascii c in
  if ((65 <=? n) && (n <=? 90))%N then ascii_of_N (n + 32) else c.

Fixpoint lower_text (s : string) : string :=
  match s with
  | String c rest => String (lower_char c) (lower_text rest)
  | EmptyString => EmptyString
  end.

(** Every character of the text is one of [[0-9a-fA-F]]. *)
Definition all_hex (s : string) : bool :=
  forallb Cli.is_hex_char (list_ascii_of_string s).

(** The twenty-two hexadecimal digits. *)
Definition hex_digits : list ascii :=
  list_ascii_of_string "0123456789abcdefABCDEF".

(** A character [parseInt] makes nothing of in base 16: no digit, no white
    space, no sign. *)
Definition is_inert (c : ascii) : bool :=
  negb (Cli.is_hex_char c) && negb (JS.is_white_space c)
  && negb (Ascii.eqb c "+") && negb (Ascii.eqb c "-").

Definition all_inert (s : string) : bool :=
  forallb is_inert (list_ascii_of_string s).

(** The object with which a caller asks [updateFeed] for the write of a
    [feed update] with these options: each option under the name of the
    parameter's type, the key as [vaultKey]. *)
Definition updateFeed_call (o : Feed.Options) (index depth : JS.Value)
  : gmap string JS.Value :=
  <[ "reference" := JS.VString (Feed.reference o) ]>
  (<[ "vaultKey" := JS.VString (Feed.key o) ]>
  (<[ "batchId" := JS.VString (default "" (Feed.batchId o)) ]>
  (<[ "gateway" := JS.of_option (Feed.gateway o) ]>
  (<[ "index" := index ]>
  (<[ "depth" := depth ]>
  (<[ "topic" := JS.of_option (Feed.topic o) ]>
  (<[ "project" := JS.of_option (Feed.project o) ]> ∅))))))).

(** The warning shown when no index could be fetched. *)
Definition INDEX_WARNING : Text :=
  Lit "Could not fetch feed index, using default: 0".

End Notions.

Import Notions.

(** *** Kinds of events *)

Module Kinds.

Definition is_spinner (ev : Event) : bool :=
  match ev with
  | SpinnerStart _ | SpinnerText _ | SpinnerSucceed _ | SpinnerWarn _
  | SpinnerFail _ => true
  | _ => false
  end.

Definition is_exit (ev : Event) : bool :=
  match ev with
  | ProcessExit _ => true
  | _ => false
  end.

Definition touches_files (ev : Event) : bool :=
  match ev with
  | FsStat _ | Glob _ | ReadFile _ => true
  | _ => false
  end.

(** The lines written with [console.log]. *)
Definition console_logs (t : list Event) : list (list Text) :=
  flat_map (fun ev => match ev with ConsoleLog items => [items] | _ => [] end) t.

(** An event of the work that comes before the report of a command: nothing
    on the console, no failure shown, no exit, and the spinner only when the
    run is not quiet. *)
Definition at_work (quiet : bool) (ev : Event) : bool :=
  match ev with
  | ConsoleLog _ | ConsoleError _ | ProcessExit _ | SpinnerFail _ => false
  | SpinnerStart _ | SpinnerText _ | SpinnerSucceed _ | SpinnerWarn _ => negb quiet
  | _ => true
  end.

(** A computation that works and then reports: either it throws at work, or
    it goes on to the report [rep r] of a result [r] that is [ok]. *)
Definition works_then_reports {R : Type} (quiet : bool) (ok : R -> Prop)
    (rep : R -> M unit) (c : M unit) : Prop :=
  exists before,
    forallb (at_work quiet) before = true /\
    ((exists e, c = (before, Throw e)) \/
     (exists r, ok r /\ c = ((before ++ trace (rep r))%list, completion (rep r)))).

End Kinds.

Import Kinds.

(** *** Further runs to evaluate *)

Module Cases.

(** [upload --key abc]. *)
Definition short_key_upload_options : Upload.Options := {|
  Upload.batchId := Example.BATCH;
  Upload.key := "abc";
  Upload.gateway := Some "https://bzz.sh";
  Upload.indexDocument := Some "index.html";
  Upload.spa := false;
  Upload.quiet := false;
  Upload.verbose := false;
  Upload.gnosisRpc := Some "https://rpc.gnosis.gateway.fm";
  Upload.project := None;
  Upload.output := Some "text";
  Upload.feed := true;
  Upload.feedIndex := None;
  Upload.depth := None
|}.

(** [upload] without [--feed]. *)
Definition plain_upload_options : Upload.Options := {|
  Upload.batchId := Example.BATCH;
  Upload.key := Example.K;
  Upload.gateway := Some "https://bzz.sh";
  Upload.indexDocument := Some "index.html";
  Upload.spa := false;
  Upload.quiet := false;
  Upload.verbose := false;
  Upload.gnosisRpc := Some "https://rpc.gnosis.gateway.fm";
  Upload.project := None;
  Upload.output := Some "text";
  Upload.feed := false;
  Upload.feedIndex := None;
  Upload.depth := None
|}.

(** [upload --depth 20abc]. *)
Definition depth_20abc_upload_options : Upload.Options := {|
  Upload.batchId := Example.BATCH;
  Upload.key := Example.K;
  Upload.gateway := Some "https://bzz.sh";
  Upload.indexDocument := Some "index.html";
  Upload.spa := false;
  Upload.quiet := false;
  Upload.verbose := false;
  Upload.gnosisRpc := Some "https://rpc.gnosis.gateway.fm";
  Upload.project := None;
  Upload.output := Some "text";
  Upload.feed := false;
  Upload.feedIndex := None;
  Upload.depth := Some "20abc"
|}.

(** [feed update] without [--batch-id]. *)
Definition no_batch_feed_options : Feed.Options := {|
  Feed.reference := Example.REFERENCE;
  Feed.key := Example.K;
  Feed.project := None;
  Feed.gateway := Some "https://bzz.sh";
  Feed.index := None;
  Feed.topic := None;
  Feed.batchId := None;
  Feed.depth := None;
  Feed.quiet := false
|}.

(** The world of [Example.world] on another disk: every path is a directory
    in which [glob] finds [found], and a file is read as [read] says. *)
Definition directory_world (found : list string)
    (read : string -> Completion (list byte)) : World := {|
  keccak_256 := Example.digest;
  getPublicKey := Example.publicKey;
  normalizeProjectSlug := Example.slug;
  deriveProjectKey := Example.derive;
  writeFeedUpdate := fun _ => Normal tt;
  newStampedUploader := fun _ => Normal tt;
  uploadFiles := fun _ _ _ _ =>
    Normal {| reference := Example.REFERENCE; url := "https://bzz.sh/bzz/ref";
              cid := "bah5" |};
  readContract := fun _ _ _ _ => Example.unreachable;
  http := fun _ => NoResponse;
  path_resolve := fun p => p;
  path_join := fun a b => a ++ "/" ++ b;
  path_relative := fun _ p => p;
  path_dirname := fun _ => ".";
  stat_isDirectory := fun _ => Normal true;
  glob := fun _ => Normal found;
  readFile := read;
  DEFAULT_GATEWAY_URL := "https://bzz.sh";
  DEFAULT_GNOSIS_RPC_URL := "https://rpc.gnosis.gateway.fm"
|}.

(** The world of [Example.world] with a curve that rejects every key. *)
Definition rejecting_world : World := {|
  keccak_256 := Example.digest;
  getPublicKey := fun _ => Throw (LibraryError "invalid private key");
  normalizeProjectSlug := Example.slug;
  deriveProjectKey := Example.derive;
  writeFeedUpdate := fun _ => Normal tt;
  newStampedUploader := fun _ => Normal tt;
  uploadFiles := fun _ _ _ _ =>
    Normal {| reference := Example.REFERENCE; url := "https://bzz.sh/bzz/ref";
              cid := "bah5" |};
  readContract := fun _ _ _ _ => Example.unreachable;
  http := fun _ => NoResponse;
  path_resolve := fun p => p;
  path_join := fun a b => a ++ "/" ++ b;
  path_relative := fun _ p => p;
  path_dirname := fun _ => ".";
  stat_isDirectory := fun _ => Normal false;
  glob := fun _ => Normal [];
  readFile := fun _ => Normal [];
  DEFAULT_GATEWAY_URL := "https://bzz.sh";
  DEFAULT_GNOSIS_RPC_URL := "https://rpc.gnosis.gateway.fm"
|}.

End Cases.

(** * Properties *)

(** ** The hexadecimal codec of [utils/crypto.ts] *)

Section HexCodec.

Import Crypto.

Lemma byte_hex_shape (b : byte) :
  exists c1 c2,
    byte_hex b = String c1 (String c2 "") /\
    is_lower_hex c1 = true /\ is_lower_hex c2 = true /\
    decode_pair c1 c2 = b.
Proof.
  destruct b; do 2 eexists; (split; [reflexivity | repeat split; reflexivity]).
Qed.

Lemma is_lower_hex_cases (c : ascii) :
  is_lower_hex c = true -> In c lower_hex_digits.
Proof.
  destruct c as [[] [] [] [] [] [] [] []]; vm_compute; intros H;
    try discriminate H; tauto.
Qed.

Lemma decode_pair_encode (c1 c2 : ascii) :
  is_lower_hex c1 = true -> is_lower_hex c2 = true ->
  byte_hex (decode_pair c1 c2) = String c1 (String c2 "").
Proof.
  intros H1 H2.
  apply is_lower_hex_cases in H1. apply is_lower_hex_cases in H2.
  unfold lower_hex_digits in *. cbn [list_ascii_of_string In] in H1, H2.
  repeat (destruct H1 as [<- | H1]; [| ]);
    try contradiction;
    repeat (destruct H2 as [<- | H2]; [| ]); try contradiction;
    reflexivity.
Qed.

Lemma append_pair (c1 c2 : ascii) (s : string) :
  String c1 (String c2 "") ++ s = String c1 (String c2 s).
Proof. reflexivity. Qed.

Lemma concat_empty_cons (x : string) (xs : list string) :
  String.concat "" (x :: xs) = x ++ String.concat "" xs.
Proof.
  destruct xs as [| y ys]; cbn [String.concat].
  - induction x as [| c x IH]; [reflexivity |].
    change (String c x = String c (x ++ "")). f_equal. exact IH.
  - reflexivity.
Qed.

Lemma bytesToHex_cons (b : byte) (bs : list byte) :
  bytesToHex (b :: bs) = byte_hex b ++ bytesToHex bs.
Proof. unfold bytesToHex. cbn [map]. apply concat_empty_cons. Qed.

Lemma hexToBytes_decode (hex : string) : hexToBytes hex = decode (remove_0x hex).
Proof. reflexivity. Qed.

Lemma decode_cons2 (c1 c2 : ascii) (s : string) :
  decode (String c1 (String c2 s)) = decode_pair c1 c2 :: decode s.
Proof.
  unfold decode.
  replace (String.length (String c1 (String c2 s)) / 2)%nat
    with (S (String.length s / 2)).
  2:{ cbn [String.length].
      change (S (S (String.length s))) with (1 * 2 + String.length s)%nat.
      rewrite Nat.div_add_l by discriminate. reflexivity. }
  cbn [seq map]. f_equal.
  - unfold decode_pair. cbn [Nat.mul String.substring]. destruct s; reflexivity.
  - rewrite <- seq_shift, map_map. apply map_ext. intros i.
    reflexivity.
Qed.

Lemma decode_short (s : string) : (String.length s < 2)%nat -> decode s = [].
Proof.
  intros H. unfold decode. rewrite Nat.div_small by exact H. reflexivity.
Qed.

Lemma remove_0x_lower_hex (s : string) : lowercase_hex s = true -> remove_0x s = s.
Proof.
  intros H. destruct s as [| c1 [| c2 s]]; [reflexivity | |].
  { destruct c1 as [[] [] [] [] [] [] [] []]; reflexivity. }
  unfold lowercase_hex in H. cbn [list_ascii_of_string forallb] in H.
  apply andb_prop in H as [_ H]. apply andb_prop in H as [H _].
  unfold remove_0x.
  destruct c1 as [[] [] [] [] [] [] [] []]; try reflexivity.
  destruct c2 as [[] [] [] [] [] [] [] []]; try reflexivity.
  discriminate H.
Qed.

Lemma lowercase_hex_app (s t : string) :
  lowercase_hex (s ++ t) = lowercase_hex s && lowercase_hex t.
Proof.
  unfold lowercase_hex. induction s as [| c s IH]; [reflexivity |].
  change (is_lower_hex c && forallb is_lower_hex (list_ascii_of_string (s ++ t))
          = is_lower_hex c && forallb is_lower_hex (list_ascii_of_string s)
            && forallb is_lower_hex (list_ascii_of_string t)).
  rewrite IH. apply andb_assoc.
Qed.

Lemma bytesToHex_lowercase (bs : list byte) : lowercase_hex (bytesToHex bs) = true.
Proof.
  induction bs as [| b bs IH]; [reflexivity |].
  rewrite bytesToHex_cons, lowercase_hex_app, IH, andb_true_r.
  destruct (byte_hex_shape b) as (c1 & c2 & -> & H1 & H2 & _).
  unfold lowercase_hex. cbn [list_ascii_of_string forallb]. now rewrite H1, H2.
Qed.

Lemma bytesToHex_length (bs : list byte) :
  String.length (bytesToHex bs) = (2 * List.length bs)%nat.
Proof.
  induction bs as [| b bs IH]; [reflexivity |].
  rewrite bytesToHex_cons.
  destruct (byte_hex_shape b) as (c1 & c2 & -> & _).
  rewrite append_pair. cbn [String.length List.length]. rewrite IH. lia.
Qed.

Lemma decode_bytesToHex (bs : list byte) : decode (bytesToHex bs) = bs.
Proof.
  induction bs as [| b bs IH]; [reflexivity |].
  rewrite bytesToHex_cons.
  destruct (byte_hex_shape b) as (c1 & c2 & -> & _ & _ & Hb).
  rewrite append_pair, decode_cons2, IH, Hb. reflexivity.
Qed.

Lemma bytesToHex_decode (n : nat) :
  forall s, (String.length s <= 2 * n)%nat ->
            Nat.even (String.length s) = true -> lowercase_hex s = true ->
            bytesToHex (decode s) = s.
Proof.
  induction n as [| n IH]; intros s Hlen Heven Hhex.
  - destruct s; [reflexivity | cbn in Hlen; lia].
  - destruct s as [| c1 [| c2 s]]; [reflexivity | discriminate Heven |].
    rewrite decode_cons2, bytesToHex_cons.
    unfold lowercase_hex in Hhex. cbn [list_ascii_of_string forallb] in Hhex.
    apply andb_prop in Hhex as [H1 Hhex]. apply andb_prop in Hhex as [H2 Hhex].
    rewrite decode_pair_encode by assumption.
    rewrite append_pair. do 2 f_equal.
    apply IH; [cbn in Hlen; lia | exact Heven | exact Hhex].
Qed.

End HexCodec.

(** C10.  Decoding what [bytesToHex] wrote gives the bytes back; the text it
    writes has two characters of [[0-9a-f]] for every byte; and encoding what
    [hexToBytes] read from a text of even length made of [[0-9a-f]] (such a
    text has no [0x] in front) gives the text back. *)
Theorem hex_round_trip :
  (forall b : list byte, Crypto.hexToBytes (Crypto.bytesToHex b) = b) /\
  (forall b : list byte,
      String.length (Crypto.bytesToHex b) = (2 * List.length b)%nat /\
      lowercase_hex (Crypto.bytesToHex b) = true) /\
  (forall s : string,
      Nat.even (String.length s) = true -> lowercase_hex s = true ->
      Crypto.bytesToHex (Crypto.hexToBytes s) = s).
Proof.
  split; [| split].
  - intros b. rewrite hexToBytes_decode.
    rewrite remove_0x_lower_hex by apply bytesToHex_lowercase.
    apply decode_bytesToHex.
  - intros b. split; [apply bytesToHex_length | apply bytesToHex_lowercase].
  - intros s Heven Hhex. rewrite hexToBytes_decode, remove_0x_lower_hex by exact Hhex.
    apply (bytesToHex_decode (String.length s)); [lia | exact Heven | exact Hhex].
Qed.

Lemma hex_round_trip_witness :
  Crypto.bytesToHex (Crypto.hexToBytes "00ff1a") = "00ff1a".
Proof. apply (proj2 (proj2 hex_round_trip)); reflexivity. Defined.

(** ** Addresses *)

Section Address.

Import Crypto.

Lemma hexToBytes_length (hex : string) :
  List.length (hexToBytes hex) = (String.length (remove_0x hex) / 2)%nat.
Proof. unfold hexToBytes. now rewrite length_map, length_seq. Qed.

Lemma matches_hex64_length (hex : string) :
  Cli.matches_hex64 hex = true -> List.length (hexToBytes hex) = 32%nat.
Proof.
  unfold Cli.matches_hex64. intros H. apply andb_prop in H as [H _].
  apply Nat.eqb_eq in H. rewrite hexToBytes_length, H. reflexivity.
Qed.

End Address.


(** ** Project slugs *)

Section Slug.

Import Stamper.

Lemma hyphen_not_alnum (c : ascii) :
  Ascii.eqb c hyphen = true -> is_slug_alnum c = false.
Proof. intros H. apply Ascii.eqb_eq in H. subst c. reflexivity. Qed.

Lemma trim_leading_split (cs : list ascii) :
  exists p, cs = (p ++ trim_leading cs)%list /\ List.filter is_slug_alnum p = [].
Proof.
  induction cs as [| c cs (p & IH & Hp)].
  - exists []. split; reflexivity.
  - cbn [trim_leading]. destruct (Ascii.eqb c hyphen) eqn:E.
    + exists (c :: p). split.
      * cbn [app]. now rewrite <- IH.
      * cbn [List.filter]. now rewrite (hyphen_not_alnum c E).
    + exists []. split; reflexivity.
Qed.

Lemma trim_leading_head (cs : list ascii) :
  no_leading_hyphen (trim_leading cs) = true.
Proof.
  induction cs as [| c cs IH]; [reflexivity |].
  cbn [trim_leading]. destruct (Ascii.eqb c hyphen) eqn:E; [exact IH |].
  cbn [no_leading_hyphen]. now rewrite E.
Qed.

(** Trimming both ends cuts a piece out of the middle, and takes no letter
    or digit away. *)
Lemma trim_hyphens_split (cs : list ascii) :
  exists p q, cs = (p ++ trim_hyphens cs ++ q)%list /\
              List.filter is_slug_alnum p = [] /\ List.filter is_slug_alnum q = [].
Proof.
  unfold trim_hyphens.
  destruct (trim_leading_split cs) as (p & Hp & Fp).
  destruct (trim_leading_split (rev (trim_leading cs))) as (q & Hq & Fq).
  exists p, (rev q). split; [| split].
  - rewrite <- rev_app_distr, <- Hq, rev_involutive. exact Hp.
  - exact Fp.
  - rewrite filter_rev, Fq. reflexivity.
Qed.

Lemma no_leading_hyphen_prefix (a b : list ascii) :
  a <> [] -> no_leading_hyphen (a ++ b) = true -> no_leading_hyphen a = true.
Proof. destruct a; [congruence | intros _ H; exact H]. Qed.

Lemma trim_hyphens_head (cs : list ascii) :
  no_leading_hyphen (trim_hyphens cs) = true.
Proof.
  unfold trim_hyphens.
  destruct (trim_leading_split (rev (trim_leading cs))) as (q & Hq & _).
  destruct (rev (trim_leading (rev (trim_leading cs)))) as [| c r] eqn:E;
    [reflexivity |].
  apply (no_leading_hyphen_prefix (c :: r) (rev q)); [discriminate |].
  rewrite <- E, <- rev_app_distr, <- Hq, rev_involutive.
  apply trim_leading_head.
Qed.

Lemma trim_hyphens_last (cs : list ascii) :
  no_leading_hyphen (rev (trim_hyphens cs)) = true.
Proof. unfold trim_hyphens. rewrite rev_involutive. apply trim_leading_head. Qed.

Lemma collapse_runs_chars (in_run : bool) (cs : list ascii) :
  forallb is_slug_char (collapse_runs in_run cs) = true.
Proof.
  revert in_run. induction cs as [| c cs IH]; intros in_run; [reflexivity |].
  cbn [collapse_runs]. destruct (is_slug_alnum c) eqn:E.
  - cbn [forallb]. unfold is_slug_char at 1. now rewrite E, IH.
  - destruct in_run; [apply IH |]. cbn [forallb]. now rewrite IH.
Qed.

Lemma collapse_runs_alnum (in_run : bool) (cs : list ascii) :
  List.filter is_slug_alnum (collapse_runs in_run cs) = List.filter is_slug_alnum cs.
Proof.
  revert in_run. induction cs as [| c cs IH]; intros in_run; [reflexivity |].
  cbn [collapse_runs List.filter]. destruct (is_slug_alnum c) eqn:E.
  - cbn [List.filter]. now rewrite E, IH.
  - destruct in_run; [apply IH |]. cbn [List.filter].
    change (is_slug_alnum hyphen) with false. cbn iota. apply IH.
Qed.

(** Inside a run the next character written is not a hyphen. *)
Lemma collapse_runs_in_run (cs : list ascii) :
  no_leading_hyphen (collapse_runs true cs) = true.
Proof.
  induction cs as [| c cs IH]; [reflexivity |].
  cbn [collapse_runs]. destruct (is_slug_alnum c) eqn:E; [| exact IH].
  cbn [no_leading_hyphen]. destruct (Ascii.eqb c hyphen) eqn:H; [| reflexivity].
  rewrite (hyphen_not_alnum c H) in E. discriminate E.
Qed.

Lemma no_adjacent_cons (c : ascii) (cs : list ascii) :
  no_adjacent_hyphens (c :: cs)
  = (negb (Ascii.eqb c hyphen) || no_leading_hyphen cs) && no_adjacent_hyphens cs.
Proof.
  destruct cs as [| d cs]; cbn [no_adjacent_hyphens no_leading_hyphen].
  - now rewrite orb_true_r.
  - now rewrite negb_andb.
Qed.

Lemma collapse_runs_no_adjacent (in_run : bool) (cs : list ascii) :
  no_adjacent_hyphens (collapse_runs in_run cs) = true.
Proof.
  revert in_run. induction cs as [| c cs IH]; intros in_run; [reflexivity |].
  cbn [collapse_runs]. destruct (is_slug_alnum c) eqn:E.
  - rewrite no_adjacent_cons, IH, andb_true_r.
    destruct (Ascii.eqb c hyphen) eqn:H; [| reflexivity].
    rewrite (hyphen_not_alnum c H) in E. discriminate E.
  - destruct in_run; [apply IH |].
    now rewrite no_adjacent_cons, IH, collapse_runs_in_run, orb_true_r.
Qed.

Lemma no_adjacent_app (a b : list ascii) :
  no_adjacent_hyphens (a ++ b) = true ->
  no_adjacent_hyphens a = true /\ no_adjacent_hyphens b = true.
Proof.
  induction a as [| c a IH]; intros H; [split; [reflexivity | exact H] |].
  cbn [app] in H. rewrite no_adjacent_cons in H |- *.
  apply andb_prop in H as [H1 H2]. destruct (IH H2) as [Ha Hb].
  split; [| exact Hb]. rewrite Ha, andb_true_r.
  destruct a as [| d a]; [now rewrite orb_true_r | exact H1].
Qed.

End Slug.

(** ** The slug against its runs *)

Section SlugRuns.

Import Stamper.

Lemma lowercase_to_lower (c : ascii) : lowercase c = to_lower c.
Proof. destruct c as [[] [] [] [] [] [] [] []]; reflexivity. Qed.

Lemma alnum_letter_or_digit (c : ascii) : is_slug_alnum c = is_letter_or_digit c.
Proof. destruct c as [[] [] [] [] [] [] [] []]; reflexivity. Qed.

Lemma pieces_cons (c : ascii) (cs : list ascii) :
  pieces (c :: cs)
  = if is_slug_alnum c then (c :: hd [] (pieces cs)) :: tl (pieces cs)
    else [] :: pieces cs.
Proof. cbn [pieces]. now rewrite alnum_letter_or_digit. Qed.

Lemma pieces_split (cs : list ascii) : pieces cs = hd [] (pieces cs) :: tl (pieces cs).
Proof.
  destruct cs as [| c cs]; [reflexivity |].
  rewrite pieces_cons. now destruct (is_slug_alnum c).
Qed.

Lemma runs_split (cs : list ascii) :
  runs cs
  = ((if is_empty (hd [] (pieces cs)) then [] else [hd [] (pieces cs)])
     ++ List.filter (fun piece => negb (is_empty piece)) (tl (pieces cs)))%list.
Proof.
  unfold runs. rewrite (pieces_split cs) at 1. cbn [List.filter].
  now destruct (is_empty (hd [] (pieces cs))).
Qed.

(** Two texts with the same first piece and the same runs after it. *)
Local Abbreviation same_pieces a b :=
  (hd [] (pieces a) = hd [] (pieces b) /\
   List.filter (fun piece => negb (is_empty piece)) (tl (pieces a))
   = List.filter (fun piece => negb (is_empty piece)) (tl (pieces b))).

Lemma same_pieces_runs (a b : list ascii) : same_pieces a b -> runs a = runs b.
Proof. intros [Hh Ht]. now rewrite !runs_split, Hh, Ht. Qed.

(** One hyphen for a run of other characters leaves the runs of letters and
    digits as they are. *)
Lemma collapse_runs_pieces (cs : list ascii) :
  same_pieces (collapse_runs false cs) cs /\
  runs (collapse_runs true cs) = runs cs.
Proof.
  induction cs as [| c cs [[Hh Ht] Hr]]; [repeat split |].
  cbn [collapse_runs]. destruct (is_slug_alnum c) eqn:E.
  - assert (H : same_pieces (c :: collapse_runs false cs) (c :: cs)).
    { rewrite !pieces_cons, E. cbn [hd tl]. now rewrite Hh, Ht. }
    split; [exact H | exact (same_pieces_runs _ _ H)].
  - split.
    + rewrite (pieces_cons hyphen), (pieces_cons c cs), E.
      change (is_slug_alnum hyphen) with false. cbn [hd tl].
      split; [reflexivity | exact Hr].
    + rewrite Hr. unfold runs. rewrite pieces_cons, E. reflexivity.
Qed.

Lemma runs_lead (p cs : list ascii) :
  List.filter is_slug_alnum p = [] -> runs (p ++ cs) = runs cs.
Proof.
  induction p as [| c p IH]; intros H; [reflexivity |].
  cbn [List.filter] in H. destruct (is_slug_alnum c) eqn:E; [discriminate H |].
  cbn [app]. rewrite runs_split, pieces_cons, E. cbn [hd tl is_empty app].
  exact (IH H).
Qed.

Lemma pieces_trail (cs q : list ascii) :
  List.filter is_slug_alnum q = [] -> same_pieces (cs ++ q) cs.
Proof.
  intros Hq. induction cs as [| c cs [Hh Ht]].
  - cbn [app]. induction q as [| d q IH]; [split; reflexivity |].
    cbn [List.filter] in Hq. destruct (is_slug_alnum d) eqn:E; [discriminate Hq |].
    rewrite pieces_cons, E. cbn [hd tl pieces].
    split; [reflexivity |].
    destruct (IH Hq) as [Hh Ht]. cbn [pieces hd tl List.filter] in Hh, Ht.
    rewrite (pieces_split q). cbn [List.filter]. now rewrite Hh, Ht.
  - cbn [app]. rewrite !pieces_cons.
    destruct (is_slug_alnum c); cbn [hd tl].
    + now rewrite Hh, Ht.
    + split; [reflexivity |].
      rewrite (pieces_split (cs ++ q)), (pieces_split cs). cbn [List.filter].
      now rewrite Hh, Ht.
Qed.

Lemma trim_hyphens_runs (cs : list ascii) : runs (trim_hyphens cs) = runs cs.
Proof.
  destruct (trim_hyphens_split cs) as (p & q & Hsplit & Fp & Fq).
  rewrite Hsplit at 2. rewrite (runs_lead p _ Fp).
  symmetry. apply same_pieces_runs, pieces_trail, Fq.
Qed.

(** A text of letters, digits and hyphens is its pieces with hyphens
    between them. *)
Lemma hyphenated_pieces (cs : list ascii) :
  forallb is_slug_char cs = true -> hyphenated (pieces cs) = cs.
Proof.
  induction cs as [| c cs IH]; intros H; [reflexivity |].
  cbn [forallb] in H. apply andb_prop in H as [Hc Hcs].
  specialize (IH Hcs). rewrite (pieces_split cs) in IH.
  rewrite pieces_cons. destruct (is_slug_alnum c) eqn:E.
  - cbn [hyphenated] in IH |- *.
    destruct (tl (pieces cs)); cbn [app]; f_equal; exact IH.
  - unfold is_slug_char in Hc. rewrite E in Hc. cbn [orb] in Hc.
    apply Ascii.eqb_eq in Hc. subst c.
    rewrite (pieces_split cs).
    change (hyphenated ([] :: hd [] (pieces cs) :: tl (pieces cs)))
      with (hyphen :: hyphenated (hd [] (pieces cs) :: tl (pieces cs))).
    now rewrite IH.
Qed.

(** In a text that ends in a letter or digit and has no two hyphens side by
    side, no piece after the first is empty. *)
Lemma pieces_inner (cs : list ascii) :
  forallb is_slug_char cs = true ->
  no_adjacent_hyphens cs = true ->
  cs <> [] -> no_leading_hyphen (rev cs) = true ->
  forallb (fun piece => negb (is_empty piece)) (tl (pieces cs)) = true.
Proof.
  induction cs as [| c cs IH]; intros Hchars Hadj Hne Hlast; [congruence |].
  cbn [forallb] in Hchars. apply andb_prop in Hchars as [Hc Hcs].
  rewrite no_adjacent_cons in Hadj. apply andb_prop in Hadj as [Hhead Hadj].
  rewrite pieces_cons.
  destruct cs as [| d cs].
  - cbn [rev app no_leading_hyphen] in Hlast.
    unfold is_slug_char in Hc.
    destruct (is_slug_alnum c); [reflexivity |].
    cbn [orb] in Hc. rewrite Hc in Hlast. discriminate Hlast.
  - assert (Hlast' : no_leading_hyphen (rev (d :: cs)) = true).
    { cbn [rev] in Hlast |- *. destruct (rev cs ++ [d])%list eqn:R.
      - now destruct (rev cs).
      - exact Hlast. }
    specialize (IH Hcs Hadj ltac:(discriminate) Hlast').
    destruct (is_slug_alnum c) eqn:E; cbn [tl]; [exact IH |].
    rewrite (pieces_split (d :: cs)). cbn [forallb]. rewrite IH, andb_true_r.
    unfold is_slug_char in Hc. rewrite E in Hc. cbn [orb] in Hc.
    rewrite Hc in Hhead. cbn [negb orb no_leading_hyphen] in Hhead.
    cbn [forallb] in Hcs. apply andb_prop in Hcs as [Hd _].
    unfold is_slug_char in Hd.
    destruct (Ascii.eqb d hyphen); [discriminate Hhead |].
    rewrite orb_false_r in Hd. rewrite pieces_cons, Hd. reflexivity.
Qed.

Lemma filter_all {A : Type} (f : A -> bool) (l : list A) :
  forallb f l = true -> List.filter f l = l.
Proof.
  induction l as [| a l IH]; [reflexivity |]. cbn [forallb List.filter].
  intros H. apply andb_prop in H as [-> H]. now rewrite (IH H).
Qed.

(** A text of letters, digits and hyphens, with no hyphen at either end and
    no two side by side, is its runs with hyphens between them. *)
Lemma hyphenated_runs (cs : list ascii) :
  forallb is_slug_char cs = true ->
  no_adjacent_hyphens cs = true ->
  no_leading_hyphen cs = true -> no_leading_hyphen (rev cs) = true ->
  hyphenated (runs cs) = cs.
Proof.
  intros Hchars Hadj Hfirst Hlast.
  destruct cs as [| c cs]; [reflexivity |].
  rewrite <- (hyphenated_pieces (c :: cs) Hchars) at 2. f_equal.
  rewrite runs_split, (pieces_split (c :: cs)) at 1.
  rewrite (filter_all _ _ (pieces_inner (c :: cs) Hchars Hadj ltac:(discriminate) Hlast)).
  cbn [forallb] in Hchars. apply andb_prop in Hchars as [Hc _].
  unfold is_slug_char in Hc. cbn [no_leading_hyphen] in Hfirst.
  destruct (Ascii.eqb c hyphen); [discriminate Hfirst |].
  rewrite orb_false_r in Hc. rewrite pieces_cons, Hc. reflexivity.
Qed.

(** The slug the definition computes is the slug by runs. *)
Lemma slug_chars_runs (name : string) : slug_chars name = slug_of name.
Proof.
  unfold slug_chars, slug_of.
  rewrite (map_ext _ _ lowercase_to_lower).
  set (lowered := map to_lower (list_ascii_of_string name)).
  set (full := trim_hyphens (collapse_runs false lowered)).
  f_equal.
  destruct (trim_hyphens_split (collapse_runs false lowered))
    as (p & q & Hsplit & _ & _).
  fold full in Hsplit.
  assert (Hchars : forallb is_slug_char full = true).
  { pose proof (collapse_runs_chars false lowered) as H.
    rewrite Hsplit, !forallb_app in H.
    apply andb_prop in H as [_ H]. now apply andb_prop in H as [H _]. }
  assert (Hadj : no_adjacent_hyphens full = true).
  { pose proof (collapse_runs_no_adjacent false lowered) as H.
    rewrite Hsplit in H. apply no_adjacent_app in H as [_ H].
    now apply no_adjacent_app in H as [H _]. }
  rewrite <- (hyphenated_runs full Hchars Hadj
                (trim_hyphens_head _) (trim_hyphens_last _)).
  f_equal. subst full. rewrite trim_hyphens_runs.
  apply same_pieces_runs, collapse_runs_pieces.
Qed.

End SlugRuns.

(** C9.  [normalizeProjectSlug], as the specification words it.  For every
    name the slug is made of the maximal runs of characters of [[a-z0-9]] of
    the name in lower case, in their order, with one hyphen between
    neighbours, cut to its first 50 characters; the call returns it, and
    fails with [InvalidSlug] exactly when it is empty.  So ["My Blog!!"]
    gives ["my-blog"], blanks fail, ["my cool blog 2024"] and ["Hello
    World"] give ["my-cool-blog-2024"] and ["hello-world"], and a name of
    65 characters gives 50. *)
Theorem normalizeProjectSlug_spec :
  Stamper.normalizeProjectSlug "My Blog!!" = Normal "my-blog" /\
  Stamper.normalizeProjectSlug "  " = Throw (Error "InvalidSlug") /\
  Stamper.normalizeProjectSlug "my cool blog 2024" = Normal "my-cool-blog-2024" /\
  Stamper.normalizeProjectSlug "Hello World" = Normal "hello-world" /\
  Stamper.normalizeProjectSlug
    "Release Notes -- 2024/Q3 (final), reviewed & approved by the team"
  = Normal "release-notes-2024-q3-final-reviewed-approved-by-t" /\
  forall name : string,
    let lowered := map to_lower (list_ascii_of_string name) in
    let slug := firstn 50 (hyphenated (runs lowered)) in
    (List.length slug <= 50)%nat /\
    (slug = [] -> Stamper.normalizeProjectSlug name = Throw (Error "InvalidSlug")) /\
    (slug <> [] ->
     Stamper.normalizeProjectSlug name = Normal (string_of_list_ascii slug)).
Proof.
  repeat (split; [reflexivity |]).
  intros name lowered slug.
  assert (Hslug : Stamper.slug_chars name = slug) by apply slug_chars_runs.
  unfold Stamper.normalizeProjectSlug. rewrite Hslug.
  split; [apply firstn_le_length | split].
  - now intros ->.
  - intros Hne. now destruct slug.
Qed.

(** ** [parseInt] on hexadecimal digits *)

Section ParseInt.

Lemma hex_char_digit (c : ascii) :
  Cli.is_hex_char c = true ->
  exists d, JS.digit_value c = Some d /\ 0 <= d < 16 /\
            HexString.ascii_to_digit c = Some (Z.to_N d) /\
            JS.is_white_space c = false.
Proof.
  destruct c as [[] [] [] [] [] [] [] []]; intros H;
    try discriminate H; eexists; (split; [reflexivity |]);
    (split; [cbv; split; [discriminate | reflexivity] |]); split; reflexivity.
Qed.

Lemma digits_prefix_hex (s : string) :
  forallb Cli.is_hex_char (list_ascii_of_string s) = true ->
  forall acc, 0 <= acc ->
    fold_left (fun a d => a * 16 + d) (JS.digits_prefix 16 s) acc
    = Z.of_N (HexString.Raw.to_N s (Z.to_N acc))
    /\ (s <> "" -> JS.digits_prefix 16 s <> []).
Proof.
  induction s as [| c s IH]; intros H acc Hacc.
  - cbn. split; [now rewrite Z2N.id | congruence].
  - cbn [list_ascii_of_string forallb] in H. apply andb_prop in H as [Hc Hs].
    destruct (hex_char_digit c Hc) as (d & Hd & Hrange & Hlib & _).
    cbn [JS.digits_prefix HexString.Raw.to_N]. rewrite Hd, Hlib.
    replace (d <? 16) with true by (symmetry; apply Z.ltb_lt; lia).
    cbn [fold_left]. split; [| discriminate].
    destruct (IH Hs (acc * 16 + d) ltac:(lia)) as [-> _].
    do 2 f_equal. lia.
Qed.

(** A text that starts with a hexadecimal digit has neither blanks nor a sign
    in front, and no [0x] when the second character is a digit too. *)
Lemma parseInt_hex_head (c : ascii) (s : string) :
  Cli.is_hex_char c = true ->
  forallb Cli.is_hex_char (list_ascii_of_string s) = true ->
  JS.parseInt (String c s) 16
  = match JS.digits_prefix 16 (String c s) with
    | [] => JS.NaN
    | ds => JS.number_of_Z (JS.digits_value 16 ds)
    end.
Proof.
  intros Hc Hs.
  assert (Hx : JS.strip_hex_prefix (String c s) = String c s).
  { destruct s as [| c2 s]; [destruct c as [[] [] [] [] [] [] [] []]; reflexivity |].
    cbn [list_ascii_of_string forallb] in Hs. apply andb_prop in Hs as [Hc2 _].
    destruct c as [[] [] [] [] [] [] [] []]; try reflexivity.
    destruct c2 as [[] [] [] [] [] [] [] []]; try reflexivity; discriminate Hc2. }
  unfold JS.parseInt. unfold JS.trim_start; fold JS.trim_start.
  destruct (hex_char_digit c Hc) as (d & _ & _ & _ & ->).
  assert (Hsign :
    match String c s with
    | String "-" r => (-1, r)
    | String "+" r => (1, r)
    | _ => (1, String c s)
    end = (1, String c s)).
  { destruct c as [[] [] [] [] [] [] [] []]; try reflexivity; discriminate Hc. }
  rewrite Hsign.
  cbn [Z.eqb Pos.eqb negb andb orb Z.ltb Z.compare Pos.compare Pos.compare_cont].
  rewrite Hx, String.eqb_refl. cbn [Z.eqb Pos.eqb negb andb].
  destruct (JS.digits_prefix 16 (String c s)); [reflexivity |].
  now rewrite Z.mul_1_l.
Qed.

Lemma parseInt_hex_text (s : string) :
  is_hex_text s = true -> JS.parseInt s 16 = JS.number_of_Z (base16 s).
Proof.
  unfold is_hex_text. intros H. apply andb_prop in H as [Hne Hs].
  destruct s as [| c s]; [discriminate Hne |].
  pose proof Hs as Hall.
  cbn [list_ascii_of_string forallb] in Hs. apply andb_prop in Hs as [Hc Hs].
  rewrite (parseInt_hex_head c s Hc Hs).
  destruct (digits_prefix_hex (String c s) Hall 0 ltac:(lia)) as [Hval Hne'].
  destruct (JS.digits_prefix 16 (String c s)) as [| d ds]; [now destruct Hne' |].
  unfold JS.digits_value. rewrite Hval. reflexivity.
Qed.

End ParseInt.

Section ParseDecimal.

Lemma decimal_char_digit (c : ascii) :
  is_decimal_char c = true ->
  JS.digit_value c = Some (Z.of_N (N_of_ascii c) - 48) /\
  0 <= Z.of_N (N_of_ascii c) - 48 < 10 /\
  JS.is_white_space c = false.
Proof.
  destruct c as [[] [] [] [] [] [] [] []]; intros H;
    try discriminate H; (split; [reflexivity |]);
    (split; [cbv; split; [discriminate | reflexivity] | reflexivity]).
Qed.

Lemma digits_prefix_decimal (s : string) :
  forallb is_decimal_char (list_ascii_of_string s) = true ->
  forall acc,
    fold_left (fun a d => a * 10 + d) (JS.digits_prefix 10 s) acc
    = acc * 10 ^ Z.of_nat (String.length s) + base10 s
    /\ (s <> "" -> JS.digits_prefix 10 s <> []).
Proof.
  induction s as [| c s IH]; intros H acc.
  - cbn. split; [lia | congruence].
  - cbn [list_ascii_of_string forallb] in H. apply andb_prop in H as [Hc Hs].
    destruct (decimal_char_digit c Hc) as (Hd & Hrange & _).
    cbn [JS.digits_prefix]. rewrite Hd.
    replace (Z.of_N (N_of_ascii c) - 48 <? 10) with true
      by (symmetry; apply Z.ltb_lt; lia).
    cbn [fold_left]. split; [| discriminate].
    destruct (IH Hs (acc * 10 + (Z.of_N (N_of_ascii c) - 48))) as [-> _].
    cbn [base10 String.length]. rewrite Nat2Z.inj_succ, Z.pow_succ_r by lia. ring.
Qed.


End ParseDecimal.

(** ** The program's codec and addresses against the reference *)

Section ReferenceCodec.

Import Crypto.

Lemma digit_table (c : ascii) (d : N) :
  HexString.ascii_to_digit c = Some d ->
  In (c, d)
     [("0", 0); ("1", 1); ("2", 2); ("3", 3); ("4", 4); ("5", 5); ("6", 6);
      ("7", 7); ("8", 8); ("9", 9); ("a", 10); ("b", 11); ("c", 12); ("d", 13);
      ("e", 14); ("f", 15); ("A", 10); ("B", 11); ("C", 12); ("D", 13);
      ("E", 14); ("F", 15)]%char%N.
Proof.
  destruct c as [[] [] [] [] [] [] [] []]; intros H; vm_compute in H;
    try discriminate H; injection H as <-; cbn [In]; tauto.
Qed.

(** One step of the decoding loop stores the byte the two digits write. *)
Lemma decode_pair_digits (c1 c2 : ascii) (d1 d2 : N) (b : byte) :
  HexString.ascii_to_digit c1 = Some d1 ->
  HexString.ascii_to_digit c2 = Some d2 ->
  Byte.of_N (16 * d1 + d2) = Some b ->
  decode_pair c1 c2 = b.
Proof.
  intros H1 H2 Hb. apply digit_table in H1, H2. cbn [In] in H1, H2.
  repeat (destruct H1 as [H1 | H1]; [injection H1 as <- <- |]); try contradiction;
    repeat (destruct H2 as [H2 | H2]; [injection H2 as <- <- |]); try contradiction;
    vm_compute in Hb; injection Hb as <-; reflexivity.
Qed.

Lemma bytes_of_hex_decode (n : nat) :
  forall (digits : string) (bs : list byte),
    (String.length digits <= n)%nat ->
    bytes_of_hex digits = Some bs -> decode digits = bs.
Proof.
  induction n as [| n IH]; intros digits bs Hn H.
  - destruct digits; [| cbn in Hn; lia]. now injection H as <-.
  - destruct digits as [| c1 [| c2 rest]]; [now injection H as <- | discriminate H |].
    cbn [bytes_of_hex] in H.
    destruct (HexString.ascii_to_digit c1) as [d1 |] eqn:H1; [| discriminate H].
    destruct (HexString.ascii_to_digit c2) as [d2 |] eqn:H2; [| discriminate H].
    destruct (bytes_of_hex rest) as [tail |] eqn:Hrest; [| discriminate H].
    destruct (Byte.of_N (16 * d1 + d2)) as [b |] eqn:Hb; [| discriminate H].
    injection H as <-.
    rewrite decode_cons2, (decode_pair_digits c1 c2 d1 d2 b H1 H2 Hb).
    f_equal. apply (IH rest tail); [cbn [String.length] in Hn; lia | exact Hrest].
Qed.

Lemma bytes_of_hex_no_prefix (digits : string) (bs : list byte) :
  bytes_of_hex digits = Some bs -> remove_0x digits = digits.
Proof.
  destruct digits as [| c1 [| c2 rest]]; [reflexivity | discriminate |].
  intros H. cbn [bytes_of_hex] in H.
  destruct (HexString.ascii_to_digit c1) as [d1 |] eqn:H1; [| discriminate H].
  destruct (HexString.ascii_to_digit c2) as [d2 |] eqn:H2; [| discriminate H].
  apply digit_table in H2. cbn [In] in H2.
  destruct c1 as [[] [] [] [] [] [] [] []]; try reflexivity.
  repeat (destruct H2 as [H2 | H2]; [injection H2 as <- <-; reflexivity |]).
  contradiction.
Qed.

(** [hexToBytes] returns the bytes the text writes. *)
Lemma hexToBytes_writes (text : string) (bs : list byte) :
  writes_bytes text bs -> hexToBytes text = bs.
Proof.
  intros (digits & [-> | ->] & H); rewrite hexToBytes_decode.
  - rewrite (bytes_of_hex_no_prefix digits bs H).
    now apply (bytes_of_hex_decode (String.length digits)).
  - change (remove_0x ("0x" ++ digits)) with digits.
    now apply (bytes_of_hex_decode (String.length digits)).
Qed.


Lemma getAddressFromPrivateKey_reference (w : World) (key : string)
    (address : list byte) :
  address_of w key address -> getAddressFromPrivateKey w key = Normal address.
Proof.
  intros (keyBytes & body & high & Hkey & Hpub & Hhash & Hlen).
  unfold getAddressFromPrivateKey. rewrite (hexToBytes_writes key keyBytes Hkey), Hpub.
  unfold slice_from_1, slice_last_20. change (skipn 1 (x04 :: body)) with body.
  rewrite Hhash, length_app, Hlen.
  replace (List.length high + 20 - 20)%nat with (List.length high) by lia.
  now rewrite skipn_app, Nat.sub_diag, skipn_all.
Qed.

End ReferenceCodec.

(** C8.  For a key of 32 bytes, written as 64 hexadecimal digits with [0x]
    in front or without, to which the curve gives the uncompressed public
    key [0x04 :: body] of 65 bytes, [getAddressFromPrivateKey] returns the 20
    bytes that end the 32 bytes of the hash of [body].  The bytes of the key
    are those its digits write, read by the Standard Library.  The address
    is a function of the key alone. *)
Theorem getAddressFromPrivateKey_spec (w : World) (privateKeyHex digits : string)
    (keyBytes body : list byte) :
  privateKeyHex = digits \/ privateKeyHex = "0x" ++ digits ->
  bytes_of_hex digits = Some keyBytes ->
  List.length keyBytes = 32%nat ->
  getPublicKey w keyBytes = Normal (x04 :: body) ->
  List.length body = 64%nat ->
  List.length (keccak_256 w body) = 32%nat ->
  exists high address : list byte,
    Crypto.getAddressFromPrivateKey w privateKeyHex = Normal address /\
    List.length address = 20%nat /\
    List.length high = 12%nat /\
    keccak_256 w body = (high ++ address)%list.
Proof.
  intros Htext Hdigits Hkey Hpub Hbody Hhash.
  exists (firstn 12 (keccak_256 w body)), (skipn 12 (keccak_256 w body)).
  assert (Hlen : List.length (skipn 12 (keccak_256 w body)) = 20%nat)
    by (rewrite length_skipn, Hhash; reflexivity).
  assert (Hcut : keccak_256 w body
                 = (firstn 12 (keccak_256 w body) ++ skipn 12 (keccak_256 w body))%list)
    by (symmetry; apply firstn_skipn).
  split; [| split; [exact Hlen | split; [| exact Hcut]]].
  - apply getAddressFromPrivateKey_reference.
    exists keyBytes, body, (firstn 12 (keccak_256 w body)).
    split; [now exists digits | split; [exact Hpub | split; [exact Hcut | exact Hlen]]].
  - rewrite length_firstn, Hhash. reflexivity.
Qed.

Lemma getAddressFromPrivateKey_spec_witness :
  exists high address : list byte,
    Crypto.getAddressFromPrivateKey
      (Example.world Example.unreachable (fun _ => NoResponse)) ("0x" ++ Example.K)
    = Normal address /\
    List.length address = 20%nat /\
    List.length high = 12%nat /\
    Example.digest (repeat x11 32 ++ repeat x11 32) = (high ++ address)%list.
Proof.
  exact (getAddressFromPrivateKey_spec
           (Example.world Example.unreachable (fun _ => NoResponse))
           ("0x" ++ Example.K) Example.K (repeat x11 32)
           (repeat x11 32 ++ repeat x11 32)
           (or_intror eq_refl) eq_refl eq_refl eq_refl eq_refl eq_refl).
Defined.

(** ** Running a computation *)

Section Run.

Context {A B : Type}.

Lemma completion_bind (m : M A) (k : A -> M B) :
  completion (Eff.bind m k)
  = match completion m with
    | Normal a => completion (k a)
    | Throw e => Throw e
    end.
Proof.
  destruct m as [t [a | e]]; cbn [Eff.bind completion snd]; [| reflexivity].
  destruct (k a); reflexivity.
Qed.

Lemma trace_bind (m : M A) (k : A -> M B) :
  trace (Eff.bind m k)
  = (trace m ++ match completion m with
                | Normal a => trace (k a)
                | Throw _ => []
                end)%list.
Proof.
  destruct m as [t [a | e]]; cbn [Eff.bind completion trace fst snd].
  - destruct (k a); reflexivity.
  - now rewrite app_nil_r.
Qed.

Lemma completion_try_catch (m : M A) (handler : Exception -> M A) :
  completion (try_catch m handler)
  = match completion m with
    | Normal a => Normal a
    | Throw e => completion (handler e)
    end.
Proof.
  destruct m as [t [a | e]]; cbn [try_catch completion snd]; [reflexivity |].
  destruct (handler e); reflexivity.
Qed.

Lemma trace_try_catch (m : M A) (handler : Exception -> M A) :
  trace (try_catch m handler)
  = (trace m ++ match completion m with
                | Normal _ => []
                | Throw e => trace (handler e)
                end)%list.
Proof.
  destruct m as [t [a | e]]; cbn [try_catch completion trace fst snd].
  - now rewrite app_nil_r.
  - destruct (handler e); reflexivity.
Qed.

Lemma bind_ret (a : A) (k : A -> M B) : Eff.bind (ret a) k = k a.
Proof. unfold Eff.bind, ret. destruct (k a) as [t r]. reflexivity. Qed.

End Run.

Lemma completion_when (c : bool) (m : M unit) :
  completion (when c m) = if c then completion m else Normal tt.
Proof. destruct c; reflexivity. Qed.

Lemma trace_when (c : bool) (m : M unit) :
  trace (when c m) = if c then trace m else [].
Proof. destruct c; reflexivity. Qed.

Lemma if_same {A : Type} (c : bool) (x : A) : (if c then x else x) = x.
Proof. destruct c; reflexivity. Qed.

Create Rewrite HintDb run.
Create Rewrite HintDb project.

#[local] Hint Rewrite @completion_bind @trace_bind @completion_try_catch
  @trace_try_catch completion_when trace_when @if_same : run.

(** Unfold the plumbing of a run, keeping the calls into the world. *)
Ltac run :=
  repeat (autorewrite with run;
          cbn [completion trace fst snd ret lift emit throw app]).

(** One step of evaluation on a computation whose head is known. *)
Ltac step :=
  cbn [Eff.bind lift ret emit throw when try_catch negb app fst snd trace completion].

(** The projections of a trace go through concatenation. *)
Lemma rpc_calls_app (s t : list Event) :
  Trace.rpc_calls (s ++ t) = (Trace.rpc_calls s ++ Trace.rpc_calls t)%list.
Proof. apply flat_map_app. Qed.

Lemma http_gets_app (s t : list Event) :
  Trace.http_gets (s ++ t) = (Trace.http_gets s ++ Trace.http_gets t)%list.
Proof. apply flat_map_app. Qed.

Lemma writes_app (s t : list Event) :
  Trace.writes (s ++ t) = (Trace.writes s ++ Trace.writes t)%list.
Proof. apply flat_map_app. Qed.

Lemma uploads_app (s t : list Event) :
  Trace.uploads (s ++ t) = (Trace.uploads s ++ Trace.uploads t)%list.
Proof. apply flat_map_app. Qed.

Lemma warnings_app (s t : list Event) :
  Trace.warnings (s ++ t) = (Trace.warnings s ++ Trace.warnings t)%list.
Proof. apply flat_map_app. Qed.

Lemma errors_app (s t : list Event) :
  Trace.errors (s ++ t) = (Trace.errors s ++ Trace.errors t)%list.
Proof. apply flat_map_app. Qed.

Lemma network_app (s t : list Event) :
  Trace.network (s ++ t) = (Trace.network s ++ Trace.network t)%list.
Proof. apply List.filter_app. Qed.

#[local] Hint Rewrite rpc_calls_app http_gets_app writes_app uploads_app
  warnings_app errors_app network_app : project.



Lemma network_cons (ev : Event) (t : list Event) :
  Trace.network (ev :: t)
  = if is_network ev then ev :: Trace.network t else Trace.network t.
Proof. reflexivity. Qed.

Lemma network_nil : Trace.network [] = [].
Proof. reflexivity. Qed.

(** Compute the network events of a trace written with [::] and [++]. *)
Ltac network :=
  repeat (rewrite ?network_cons, ?network_app, ?network_nil;
          cbn [is_network app negb]);
  rewrite ?app_nil_r.

(** ** The two resolvers of [utils/swarm.ts] *)

Section Resolvers.

Import Swarm.

Lemma chain_carries (r : Response) (field : string * string) (v : JS.Value) :
  carries r field v ->
  JS.or (header r (fst field)) (JS.get (data r) (snd field)) = v /\
  is_undefined v = false.
Proof.
  intros [s Hh Hs | n Hh Hb | s Hh Hb]; unfold header; rewrite Hh;
    unfold JS.of_option, JS.or, JS.truthy.
  - apply String.eqb_neq in Hs. rewrite Hs. split; reflexivity.
  - rewrite Hb. split; reflexivity.
  - rewrite Hb. split; reflexivity.
Qed.

Lemma chain_lacks (r : Response) (field : string * string) :
  lacks r field ->
  JS.or (header r (fst field)) (JS.get (data r) (snd field)) = JS.VUndefined.
Proof. intros [Hh Hb]. unfold header. rewrite Hh, Hb. reflexivity. Qed.

(** What [fetchNextFeedIndex] makes of a response it accepted. *)
Lemma fetchNextFeedIndex_responded (w : World) (vaultPrivateKey gatewayUrl : string)
    (topic : option (list byte)) (owner : list byte) (response : Response) :
  Crypto.getAddressFromPrivateKey w vaultPrivateKey = Normal owner ->
  http w (feed_url gatewayUrl owner (default NULL_TOPIC topic)) = Responded response ->
  (status response = 200 \/ status response = 404) ->
  completion (fetchNextFeedIndex w vaultPrivateKey gatewayUrl topic)
  = if status response =? 404 then Normal (JS.VNumber (JS.Int 0))
    else if negb (is_undefined (feedIndexNext_of response)) then
      Normal match feedIndexNext_of response with
             | JS.VString s => JS.VNumber (JS.parseInt s 16)
             | v => v
             end
    else if negb (is_undefined (feedIndex_of response)) then
      Normal match feedIndex_of response with
             | JS.VString s => JS.VNumber (JS.succ (JS.parseInt s 16))
             | v => plus_one v
             end
    else Normal JS.VNull.
Proof.
  intros Hown Hhttp Hstatus.
  unfold fetchNextFeedIndex, axios_get. run. rewrite Hown. run. rewrite Hhttp.
  assert (Hok : (status response =? 200) || (status response =? 404) = true).
  { destruct Hstatus as [-> | ->]; reflexivity. }
  rewrite Hok. run.
  destruct (status response =? 404); run; [reflexivity |].
  destruct (is_undefined (feedIndexNext_of response)); cbn [negb].
  - destruct (is_undefined (feedIndex_of response)); cbn [negb]; run;
      [reflexivity |].
    destruct (feedIndex_of response); reflexivity.
  - run. destruct (feedIndexNext_of response); reflexivity.
Qed.

End Resolvers.

(** C3.  [fetchNextFeedIndex] on the response of the gateway to the lookup
    of the owner's feed.  On 404 it returns 0.  On 200: when the response
    carries a next index (header [swarm-feed-index-next], else body field
    [feedIndexNext]) it returns that value, a text read in base 16, whatever
    the current-index field holds; when it lacks a next index and carries a
    current index (header [swarm-feed-index], else body field [feedIndex])
    it returns that value plus one; when it lacks both it returns [null].
    Reading a text of hexadecimal digits in base 16 gives the number the
    digits write. *)
Theorem fetchNextFeedIndex_spec (w : World) (vaultPrivateKey gatewayUrl : string)
    (topic : option (list byte)) (owner : list byte) (response : Response) :
  Crypto.getAddressFromPrivateKey w vaultPrivateKey = Normal owner ->
  http w (Swarm.feed_url gatewayUrl owner (default Swarm.NULL_TOPIC topic))
  = Responded response ->
  let result := completion (Swarm.fetchNextFeedIndex w vaultPrivateKey gatewayUrl topic) in
  (status response = 404 -> result = Normal (JS.VNumber (JS.Int 0))) /\
  (status response = 200 ->
   forall v, carries response NEXT v -> result = Normal (JS.VNumber (reading v))) /\
  (status response = 200 -> lacks response NEXT ->
   forall v, carries response CURRENT v ->
             result = Normal (JS.VNumber (JS.succ (reading v)))) /\
  (status response = 200 -> lacks response NEXT -> lacks response CURRENT ->
   result = Normal JS.VNull) /\
  (forall s, is_hex_text s = true ->
             reading (JS.VString s) = JS.number_of_Z (base16 s)) /\
  (forall n, reading (JS.VNumber n) = n).
Proof.
  intros Hown Hhttp result.
  assert (Hrun := fetchNextFeedIndex_responded w vaultPrivateKey gatewayUrl topic
                    owner response Hown Hhttp).
  fold result in Hrun.
  split; [| split; [| split; [| split; [| split]]]].
  - intros H404. rewrite Hrun by (right; exact H404). now rewrite H404.
  - intros H200 v Hv. rewrite Hrun by (left; exact H200). rewrite H200.
    cbn [Z.eqb Pos.eqb].
    destruct (chain_carries _ _ _ Hv) as [Hchain Hdef].
    change (Swarm.feedIndexNext_of response = v) in Hchain.
    rewrite Hchain, Hdef. cbn [negb].
    destruct Hv; reflexivity.
  - intros H200 Hnext v Hv. rewrite Hrun by (left; exact H200). rewrite H200.
    cbn [Z.eqb Pos.eqb].
    pose proof (chain_lacks _ _ Hnext) as Hn.
    change (Swarm.feedIndexNext_of response = JS.VUndefined) in Hn.
    destruct (chain_carries _ _ _ Hv) as [Hchain Hdef].
    change (Swarm.feedIndex_of response = v) in Hchain.
    rewrite Hn, Hchain, Hdef. cbn [Swarm.is_undefined negb].
    destruct Hv; reflexivity.
  - intros H200 Hnext Hcur. rewrite Hrun by (left; exact H200). rewrite H200.
    cbn [Z.eqb Pos.eqb].
    pose proof (chain_lacks _ _ Hnext) as Hn.
    change (Swarm.feedIndexNext_of response = JS.VUndefined) in Hn.
    pose proof (chain_lacks _ _ Hcur) as Hc.
    change (Swarm.feedIndex_of response = JS.VUndefined) in Hc.
    now rewrite Hn, Hc.
  - intros s Hs. apply parseInt_hex_text. exact Hs.
  - reflexivity.
Qed.

(** The gateway reports the current index 4 for the owner, and no next
    index: the resolver answers 5. *)
Lemma fetchNextFeedIndex_spec_witness :
  completion
    (Swarm.fetchNextFeedIndex
       (Example.world Example.unreachable
          (Example.respond 200 [("swarm-feed-index", "0000000000000004")] JS.VUndefined))
       Example.K "https://bzz.sh" None)
  = Normal (JS.VNumber (JS.Int 5)).
Proof.
  refine (proj1 (proj2 (proj2
    (fetchNextFeedIndex_spec
       (Example.world Example.unreachable
          (Example.respond 200 [("swarm-feed-index", "0000000000000004")] JS.VUndefined))
       Example.K "https://bzz.sh" None _ _ eq_refl eq_refl))) eq_refl _
    (JS.VString "0000000000000004") _).
  - split; reflexivity.
  - apply carries_header; [reflexivity | discriminate].
Defined.

Section NeverThrow.

Import Swarm.

Lemma fetchBatchDepth_completion (w : World) (batchId : string) (rpcUrl : option string) :
  completion (fetchBatchDepth w batchId rpcUrl)
  = match readContract w (default FETCH_BATCH_DEPTH_DEFAULT_RPC rpcUrl)
            POSTAGE_STAMP_ADDRESS BATCH_DEPTH_FUNCTION
            [if String.prefix "0x" batchId then batchId else "0x" ++ batchId] with
    | Normal depth => Normal (JS.VNumber (JS.number_of_Z depth))
    | Throw _ => Normal JS.VNull
    end.
Proof.
  unfold fetchBatchDepth. run.
  destruct (readContract w _ _ _ _); reflexivity.
Qed.

Lemma fetchBatchDepth_trace (w : World) (batchId : string) (rpcUrl : option string) :
  trace (fetchBatchDepth w batchId rpcUrl)
  = [ReadContract (default FETCH_BATCH_DEPTH_DEFAULT_RPC rpcUrl)
       POSTAGE_STAMP_ADDRESS BATCH_DEPTH_FUNCTION
       [if String.prefix "0x" batchId then batchId else "0x" ++ batchId]].
Proof.
  unfold fetchBatchDepth. run.
  destruct (readContract w _ _ _ _); reflexivity.
Qed.

(** Either the resolver gave up, or the gateway answered the lookup with a
    status it accepts. *)
Lemma fetchNextFeedIndex_cases (w : World) (vaultPrivateKey gatewayUrl : string)
    (topic : option (list byte)) :
  completion (fetchNextFeedIndex w vaultPrivateKey gatewayUrl topic) = Normal JS.VNull \/
  exists owner response,
    Crypto.getAddressFromPrivateKey w vaultPrivateKey = Normal owner /\
    http w (feed_url gatewayUrl owner (default NULL_TOPIC topic)) = Responded response /\
    (status response = 200 \/ status response = 404).
Proof.
  destruct (Crypto.getAddressFromPrivateKey w vaultPrivateKey) as [owner | e] eqn:Hown.
  2:{ left. unfold fetchNextFeedIndex. run. rewrite Hown. reflexivity. }
  destruct (http w (feed_url gatewayUrl owner (default NULL_TOPIC topic)))
    as [| response] eqn:Hhttp.
  { left. unfold fetchNextFeedIndex, axios_get. run. rewrite Hown. run.
    rewrite Hhttp. reflexivity. }
  destruct ((status response =? 200) || (status response =? 404)) eqn:Hok.
  - right. exists owner, response. split; [reflexivity | split; [exact Hhttp |]].
    apply orb_prop in Hok as [H | H]; apply Z.eqb_eq in H; auto.
  - left. unfold fetchNextFeedIndex, axios_get. run. rewrite Hown. run.
    rewrite Hhttp, Hok. reflexivity.
Qed.

Lemma or_header_ok (r : Response) (name : string) (v : JS.Value)
    (ok : JS.Value -> bool) :
  (forall s, ok (JS.VString s) = true) -> ok JS.VUndefined = true -> ok v = true ->
  ok (JS.or (header r name) v) = true.
Proof.
  intros Hs Hu Hv. unfold JS.or, header.
  destruct (headers r !! name) as [s |]; cbn [JS.of_option].
  - destruct (JS.truthy (JS.VString s)); [apply Hs | exact Hv].
  - exact Hv.
Qed.

End NeverThrow.

(** C4.  Neither resolver throws: whatever the key, the batch, the chain and
    the gateway do, [fetchBatchDepth] and [fetchNextFeedIndex] complete
    normally, and [fetchBatchDepth] returns a number or [null].
    [fetchNextFeedIndex] does not: an index the body of a 200 response holds
    is not checked.  A [feedIndexNext] that is a boolean, an object or an
    array is returned as it is; a [feedIndex] that is an object or an array
    is returned as a text, [[object Object]1] or the text of the array with
    [1] appended.  Only when the bodies hold none of these is the result a
    number or [null].  Four responses of a gateway show it: the bodies
    [{"feedIndexNext": true}], [{"feedIndexNext": [7]}], [{"feedIndex": {}}]
    and [{"feedIndex": [4]}] give [true], [[7]], [[object Object]1] and
    [41]. *)
Theorem fetchNextFeedIndex_returns_unchecked_values :
  (forall (w : World) (batchId : string) (rpcUrl : option string),
      exists depth,
        completion (Swarm.fetchBatchDepth w batchId rpcUrl) = Normal depth /\
        number_or_null depth = true) /\
  (forall (w : World) (vaultPrivateKey gatewayUrl : string)
          (topic : option (list byte)),
      exists index,
        completion (Swarm.fetchNextFeedIndex w vaultPrivateKey gatewayUrl topic)
        = Normal index /\
        ((forall url response,
             http w url = Responded response ->
             next_field_ok (JS.get (data response) "feedIndexNext") = true /\
             current_field_ok (JS.get (data response) "feedIndex") = true) ->
         number_or_null index = true)) /\
  (forall (w : World) (vaultPrivateKey gatewayUrl : string)
          (topic : option (list byte)) (owner : list byte) (response : Response),
      Crypto.getAddressFromPrivateKey w vaultPrivateKey = Normal owner ->
      http w (Swarm.feed_url gatewayUrl owner (default Swarm.NULL_TOPIC topic))
      = Responded response ->
      status response = 200 ->
      headers response !! "swarm-feed-index-next" = None ->
      let result :=
        completion (Swarm.fetchNextFeedIndex w vaultPrivateKey gatewayUrl topic) in
      (forall b, JS.get (data response) "feedIndexNext" = JS.VBool b ->
                 result = Normal (JS.VBool b)) /\
      (forall props, JS.get (data response) "feedIndexNext" = JS.VObject props ->
                     result = Normal (JS.VObject props)) /\
      (forall items, JS.get (data response) "feedIndexNext" = JS.VArray items ->
                     result = Normal (JS.VArray items)) /\
      (JS.get (data response) "feedIndexNext" = JS.VUndefined ->
       headers response !! "swarm-feed-index" = None ->
       (forall props, JS.get (data response) "feedIndex" = JS.VObject props ->
                      result = Normal (JS.VString "[object Object]1")) /\
       (forall items, JS.get (data response) "feedIndex" = JS.VArray items ->
                      result = Normal (JS.VString (JS.array_text items ++ "1"))))) /\
  (let answer body :=
     completion
       (Swarm.fetchNextFeedIndex
          (Example.world Example.unreachable (Example.respond 200 [] (JS.VObject body)))
          Example.K "https://bzz.sh" None) in
   answer (<[ "feedIndexNext" := JS.VBool true ]> ∅) = Normal (JS.VBool true) /\
   answer (<[ "feedIndexNext" := JS.VArray [JS.VNumber (JS.Int 7)] ]> ∅)
   = Normal (JS.VArray [JS.VNumber (JS.Int 7)]) /\
   answer (<[ "feedIndex" := JS.VObject ∅ ]> ∅)
   = Normal (JS.VString "[object Object]1") /\
   answer (<[ "feedIndex" := JS.VArray [JS.VNumber (JS.Int 4)] ]> ∅)
   = Normal (JS.VString "41") /\
   number_or_null (JS.VBool true) = false /\
   number_or_null (JS.VArray [JS.VNumber (JS.Int 7)]) = false /\
   number_or_null (JS.VString "[object Object]1") = false /\
   number_or_null (JS.VString "41") = false).
Proof.
  split; [| split; [| split]].
  - intros w batchId rpcUrl. rewrite fetchBatchDepth_completion.
    destruct (readContract w _ _ _ _); eexists; split; reflexivity.
  - intros w vaultPrivateKey gatewayUrl topic.
    destruct (fetchNextFeedIndex_cases w vaultPrivateKey gatewayUrl topic)
      as [-> | (owner & response & Hown & Hhttp & Hstatus)].
    { eexists. split; [reflexivity | intros _; reflexivity]. }
    rewrite (fetchNextFeedIndex_responded _ _ _ _ _ _ Hown Hhttp Hstatus).
    destruct (status response =? 404);
      [eexists; split; [reflexivity | intros _; reflexivity] |].
    destruct (negb (Swarm.is_undefined (Swarm.feedIndexNext_of response))) eqn:Hn.
    + eexists. split; [reflexivity |]. intros Hbody.
      destruct (Hbody _ _ Hhttp) as [Hnext _].
      pose proof (or_header_ok response "swarm-feed-index-next" _ next_field_ok
                    (fun _ => eq_refl) eq_refl Hnext) as Hok.
      change (next_field_ok (Swarm.feedIndexNext_of response) = true) in Hok.
      destruct (Swarm.feedIndexNext_of response); try reflexivity; discriminate.
    + destruct (negb (Swarm.is_undefined (Swarm.feedIndex_of response))) eqn:Hc;
        [| eexists; split; [reflexivity | intros _; reflexivity]].
      eexists. split; [reflexivity |]. intros Hbody.
      destruct (Hbody _ _ Hhttp) as [_ Hcur].
      pose proof (or_header_ok response "swarm-feed-index" _ current_field_ok
                    (fun _ => eq_refl) eq_refl Hcur) as Hok.
      change (current_field_ok (Swarm.feedIndex_of response) = true) in Hok.
      destruct (Swarm.feedIndex_of response); try reflexivity; discriminate.
  - intros w vaultPrivateKey gatewayUrl topic owner response Hown Hhttp H200 Hnext
      result. subst result.
    rewrite (fetchNextFeedIndex_responded _ _ _ _ _ _ Hown Hhttp (or_introl H200)).
    rewrite H200. cbn [Z.eqb Pos.eqb].
    unfold Swarm.feedIndexNext_of, Swarm.feedIndex_of, Swarm.header.
    rewrite Hnext. cbn [JS.of_option JS.or JS.truthy].
    split; [| split; [| split]].
    + now intros b ->.
    + now intros props ->.
    + now intros items ->.
    + intros -> Hcur. rewrite Hcur. cbn [JS.of_option JS.or JS.truthy].
      cbn [Swarm.is_undefined negb]. split.
      * now intros props ->.
      * now intros items ->.
  - cbv zeta. repeat split; vm_compute; reflexivity.
Qed.

(** ** The steps of [feed update] *)

Section FeedSteps.

Import Swarm Cli.

Lemma unremarkable_projections (t : list Event) :
  forallb unremarkable t = true ->
  Trace.network t = [] /\ Trace.rpc_calls t = [] /\ Trace.http_gets t = [] /\
  Trace.writes t = [] /\ Trace.uploads t = [] /\ Trace.warnings t = [] /\
  Trace.errors t = [].
Proof.
  induction t as [| ev t IH]; intros H; [repeat split |].
  cbn [forallb] in H. apply andb_prop in H as [Hev Ht].
  destruct (IH Ht) as (H1 & H2 & H3 & H4 & H5 & H6 & H7).
  destruct ev; try discriminate Hev;
    cbn [Trace.network Trace.rpc_calls Trace.http_gets Trace.writes Trace.uploads
         Trace.warnings Trace.errors List.filter flat_map is_network app];
    repeat split; assumption.
Qed.

Lemma feed_validate (o : Feed.Options) :
  Feed.validate o =
  ([], if negb (matches_hex64 (Feed.reference o))
       then Throw (Error "Invalid reference format (expected 64 hex characters)")
       else if negb (matches_hex64 (Feed.key o))
       then Throw (Error "Invalid key format (expected 64 hex characters)")
       else if negb (given (Feed.batchId o))
       then Throw (Error "--batch-id is required for feed updates")
       else Normal tt).
Proof.
  unfold Feed.validate.
  destruct (matches_hex64 (Feed.reference o)), (matches_hex64 (Feed.key o)),
    (given (Feed.batchId o)); reflexivity.
Qed.

Lemma feed_keys_block (w : World) (o : Feed.Options) :
  forallb unremarkable (trace (Feed.keys_block w o)) = true /\
  completion (Feed.keys_block w o)
  = match signer_key w (Feed.key o) (Feed.project o) with
    | Normal k => Normal (if given (Feed.project o) then JS.VString k
                          else JS.VUndefined, k)
    | Throw e => Throw e
    end.
Proof.
  unfold Feed.keys_block, signer_key.
  destruct (given (Feed.project o)); [| split; reflexivity].
  destruct (normalizeProjectSlug w _) as [slug | e]; step; [| split; reflexivity].
  destruct (deriveProjectKey w _ slug) as [k | e]; step; [| split; reflexivity].
  destruct (Feed.quiet o); split; reflexivity.
Qed.

Lemma feed_depth_block (w : World) (o : Feed.Options) :
  let fetched := completion (fetchBatchDepth w (default "" (Feed.batchId o))
                   (Some (or_default (Feed.gateway o) (DEFAULT_GATEWAY_URL w)))) in
  exists fetchedDepth,
    fetched = Normal fetchedDepth /\
    completion (Feed.depth_block w o)
    = Normal (if given (Feed.depth o)
              then JS.VNumber (JS.parseInt (default "" (Feed.depth o)) 0)
              else or_fallback fetchedDepth (JS.VNumber (JS.Int 20))) /\
    Trace.network (trace (Feed.depth_block w o))
    = (if given (Feed.depth o) then [] else [feed_depth_read w o]) /\
    Trace.warnings (trace (Feed.depth_block w o))
    = (if given (Feed.depth o) || Feed.quiet o || negb (is_null fetchedDepth) then []
       else [Lit "Could not fetch batch depth, using default: 20"]) /\
    Trace.errors (trace (Feed.depth_block w o)) = [].
Proof.
  intros fetched. subst fetched. rewrite fetchBatchDepth_completion.
  unfold Feed.depth_block, feed_depth_read, depth_read, prefixed, fetchBatchDepth.
  cbn [default].
  destruct (readContract w _ _ _ _) as [z | e]; eexists; (split; [reflexivity |]);
    destruct (given (Feed.depth o)), (Feed.quiet o); repeat split; reflexivity.
Qed.

Lemma fetchNextFeedIndex_trace (w : World) (vaultPrivateKey gatewayUrl : string)
    (topic : option (list byte)) :
  trace (fetchNextFeedIndex w vaultPrivateKey gatewayUrl topic)
  = match Crypto.getAddressFromPrivateKey w vaultPrivateKey with
    | Normal owner => [feed_lookup gatewayUrl owner (default NULL_TOPIC topic)]
    | Throw _ => []
    end.
Proof.
  unfold fetchNextFeedIndex, axios_get, feed_lookup. run.
  destruct (Crypto.getAddressFromPrivateKey w vaultPrivateKey) as [owner | e];
    [| reflexivity].
  run. destruct (http w _) as [| response]; [reflexivity |].
  destruct ((status response =? 200) || (status response =? 404)); [| reflexivity].
  run. destruct (status response =? 404); [reflexivity |].
  destruct (negb (is_undefined (feedIndexNext_of response)));
    [destruct (feedIndexNext_of response); reflexivity |].
  destruct (negb (is_undefined (feedIndex_of response)));
    [destruct (feedIndex_of response); reflexivity | reflexivity].
Qed.

Lemma fetchNextFeedIndex_normal (w : World) (vaultPrivateKey gatewayUrl : string)
    (topic : option (list byte)) :
  exists fetchedIndex,
    completion (fetchNextFeedIndex w vaultPrivateKey gatewayUrl topic)
    = Normal fetchedIndex.
Proof.
  unfold fetchNextFeedIndex. rewrite completion_try_catch.
  match goal with |- context [match ?c with Normal _ => _ | Throw _ => _ end] =>
    destruct c end; eexists; reflexivity.
Qed.

(** The fetch of the next index, then the fallback: shared by the two
    commands, which differ in the spinner call that announces it. *)
Lemma index_fetch_step (quiet : bool) (announce : Event) (fetch : M JS.Value)
    (fetchedIndex : JS.Value) :
  unremarkable announce = true ->
  completion fetch = Normal fetchedIndex ->
  let step :=
    (when (negb quiet) (emit announce) ;;;
     fetchedIndex <- fetch ;;
     if negb (is_null fetchedIndex) then
       when (negb quiet)
         (emit (SpinnerSucceed (Template "Using feed index: " fetchedIndex ""))) ;;;
       ret fetchedIndex
     else
       when (negb quiet)
         (emit (SpinnerWarn (Lit "Could not fetch feed index, using default: 0"))) ;;;
       ret (JS.VNumber (JS.Int 0))) in
  completion step = Normal (or_fallback fetchedIndex (JS.VNumber (JS.Int 0))) /\
  Trace.network (trace step) = Trace.network (trace fetch) /\
  Trace.errors (trace step) = Trace.errors (trace fetch).
Proof.
  intros Hann Hfetch step. subst step.
  destruct fetch as [t c]. cbn [completion snd] in Hfetch. subst c.
  cbn [trace fst]. unfold or_fallback.
  destruct announce; try discriminate Hann;
    destruct quiet; step;
    destruct (is_null fetchedIndex); step;
    unfold Trace.network, Trace.errors;
    cbn [List.filter flat_map is_network app];
    rewrite ?List.filter_app, ?flat_map_app;
    cbn [List.filter flat_map is_network app];
    rewrite ?app_nil_r; repeat split; reflexivity.
Qed.

Lemma feed_index_block (w : World) (o : Feed.Options) (feedOwnerKey : string)
    (topic : list byte) :
  let gatewayUrl := or_default (Feed.gateway o) (DEFAULT_GATEWAY_URL w) in
  exists fetchedIndex,
    completion (fetchNextFeedIndex w feedOwnerKey gatewayUrl (Some topic))
    = Normal fetchedIndex /\
    completion (Feed.index_block w o feedOwnerKey topic)
    = Normal (if given (Feed.index o)
              then JS.VNumber (JS.parseInt (default "" (Feed.index o)) 0)
              else or_fallback fetchedIndex (JS.VNumber (JS.Int 0))) /\
    Trace.network (trace (Feed.index_block w o feedOwnerKey topic))
    = (if given (Feed.index o) then []
       else match Crypto.getAddressFromPrivateKey w feedOwnerKey with
            | Normal owner => [feed_lookup gatewayUrl owner topic]
            | Throw _ => []
            end) /\
    Trace.errors (trace (Feed.index_block w o feedOwnerKey topic)) = [].
Proof.
  intros gatewayUrl.
  destruct (fetchNextFeedIndex_normal w feedOwnerKey gatewayUrl (Some topic))
    as [fetchedIndex Hfetch].
  exists fetchedIndex. split; [exact Hfetch |].
  unfold Feed.index_block. fold gatewayUrl.
  destruct (given (Feed.index o)); [repeat split; reflexivity |].
  destruct (index_fetch_step (Feed.quiet o)
              (SpinnerText (Lit "Fetching next feed index..."))
              _ fetchedIndex eq_refl Hfetch) as (Hc & Hn & He).
  rewrite Hc, Hn, He, fetchNextFeedIndex_trace.
  destruct (Crypto.getAddressFromPrivateKey w feedOwnerKey); repeat split; reflexivity.
Qed.

End FeedSteps.

(** ** A run of [feed update] *)

Section FeedRun.

Import Swarm Cli.

Lemma network_idempotent (t : list Event) :
  Trace.rpc_calls (Trace.network t) = Trace.rpc_calls t /\
  Trace.http_gets (Trace.network t) = Trace.http_gets t /\
  Trace.writes (Trace.network t) = Trace.writes t /\
  Trace.uploads (Trace.network t) = Trace.uploads t.
Proof.
  induction t as [| ev t (H1 & H2 & H3 & H4)]; [repeat split |].
  destruct ev;
    cbn [Trace.network Trace.rpc_calls Trace.http_gets Trace.writes Trace.uploads
         List.filter flat_map is_network app];
    fold (Trace.network t); fold (Trace.rpc_calls t); fold (Trace.http_gets t);
    fold (Trace.writes t); fold (Trace.uploads t);
    fold (Trace.rpc_calls (Trace.network t)); fold (Trace.http_gets (Trace.network t));
    fold (Trace.writes (Trace.network t)); fold (Trace.uploads (Trace.network t));
    rewrite ?H1, ?H2, ?H3, ?H4; repeat split; reflexivity.
Qed.

Lemma feed_report (w : World) (o : Feed.Options) (feedOwnerKey : string)
    (index : JS.Value) :
  forallb unremarkable (trace (Feed.report w o feedOwnerKey index)) = true.
Proof.
  unfold Feed.report.
  destruct (Feed.quiet o); [reflexivity |].
  destruct (Crypto.getAddressFromPrivateKey w feedOwnerKey); [| reflexivity].
  destruct (given (Feed.project o)); reflexivity.
Qed.

(** The events of a run that passes validation and obtains its signer key:
    the resolution of the depth, the resolution of the index, and one write
    request. *)
Lemma feed_run (w : World) (o : Feed.Options) (signer : string) :
  completion (Feed.validate o) = Normal tt ->
  signer_key w (Feed.key o) (Feed.project o) = Normal signer ->
  let gatewayUrl := or_default (Feed.gateway o) (DEFAULT_GATEWAY_URL w) in
  let run := trace (Feed.update_action w o) in
  exists fetchedDepth fetchedIndex after,
    completion (fetchBatchDepth w (default "" (Feed.batchId o)) (Some gatewayUrl))
    = Normal fetchedDepth /\
    completion (fetchNextFeedIndex w signer gatewayUrl (Some (Feed.topic_of o)))
    = Normal fetchedIndex /\
    Trace.network run
    = ((if given (Feed.depth o) then [] else [feed_depth_read w o]) ++
       (if given (Feed.index o) then []
        else match Crypto.getAddressFromPrivateKey w signer with
             | Normal owner => [feed_lookup gatewayUrl owner (Feed.topic_of o)]
             | Throw _ => []
             end) ++
       [WriteFeedUpdate
          (Feed.request_of w o
             (if given (Feed.project o) then JS.VString signer else JS.VUndefined)
             (if given (Feed.index o)
              then JS.VNumber (JS.parseInt (default "" (Feed.index o)) 0)
              else or_fallback fetchedIndex (JS.VNumber (JS.Int 0)))
             (if given (Feed.depth o)
              then JS.VNumber (JS.parseInt (default "" (Feed.depth o)) 0)
              else or_fallback fetchedDepth (JS.VNumber (JS.Int 20))))])%list /\
    Trace.warnings run
    = ((if given (Feed.depth o) || Feed.quiet o || negb (is_null fetchedDepth) then []
        else [Lit "Could not fetch batch depth, using default: 20"]) ++ after)%list.
Proof.
  intros Hval Hsigner gatewayUrl run.
  destruct (feed_keys_block w o) as [Hkeys_t Hkeys_c]. rewrite Hsigner in Hkeys_c.
  destruct (unremarkable_projections _ Hkeys_t) as (Kn & _ & _ & _ & _ & Kw & _).
  destruct (feed_depth_block w o) as (fetchedDepth & Hfd & Hd_c & Hd_n & Hd_w & _).
  destruct (feed_index_block w o signer (Feed.topic_of o))
    as (fetchedIndex & Hfi & Hi_c & Hi_n & _).
  pose proof (feed_report w o signer
                (if given (Feed.index o)
                 then JS.VNumber (JS.parseInt (default "" (Feed.index o)) 0)
                 else or_fallback fetchedIndex (JS.VNumber (JS.Int 0)))) as Hreport.
  destruct (unremarkable_projections _ Hreport) as (Rn & _ & _ & _ & _ & Rw & _).
  rewrite feed_validate in Hval. cbn [completion snd] in Hval.
  assert (Hrun : exists tail,
    run = ((if Feed.quiet o then [] else [SpinnerStart (Lit "Updating feed...")]) ++
           trace (Feed.keys_block w o) ++
           trace (Feed.depth_block w o) ++
           trace (Feed.index_block w o signer (Feed.topic_of o)) ++
           (if Feed.quiet o then []
            else [SpinnerText
                    (Template "Writing feed update at index "
                       (if given (Feed.index o)
                        then JS.VNumber (JS.parseInt (default "" (Feed.index o)) 0)
                        else or_fallback fetchedIndex (JS.VNumber (JS.Int 0)))
                       "...")]) ++
           [WriteFeedUpdate
              (Feed.request_of w o
                 (if given (Feed.project o) then JS.VString signer else JS.VUndefined)
                 (if given (Feed.index o)
                  then JS.VNumber (JS.parseInt (default "" (Feed.index o)) 0)
                  else or_fallback fetchedIndex (JS.VNumber (JS.Int 0)))
                 (if given (Feed.depth o)
                  then JS.VNumber (JS.parseInt (default "" (Feed.depth o)) 0)
                  else or_fallback fetchedDepth (JS.VNumber (JS.Int 20))))] ++
           tail)%list /\
    Trace.network tail = [] /\ exists w', Trace.warnings tail = w').
  { subst run. unfold Feed.update_action, Feed.update_try. run.
    rewrite feed_validate. cbn [completion trace fst snd]. rewrite Hval.
    run. rewrite Hkeys_c. run. rewrite Hd_c. run. rewrite Hi_c. run.
    set (request := Feed.request_of w o _ _ _).
    destruct (Feed.quiet o); cbn [negb app]; eexists; (split; [
      repeat (rewrite <- ?app_assoc; cbn [app]); do 3 f_equal; try f_equal;
      reflexivity |]);
      (split; [| eexists; reflexivity]);
      destruct (writeFeedUpdate w request);
      rewrite ?app_nil_r; autorewrite with project; rewrite ?Rn;
      try (destruct (completion (Feed.report w o signer _)));
      reflexivity. }
  destruct Hrun as (tail & -> & Tn & tw & Tw).
  exists fetchedDepth, fetchedIndex.
  eexists. split; [exact Hfd | split; [exact Hfi |]].
  autorewrite with project. rewrite Kn, Kw, Hd_n, Hd_w, Hi_n, Tn, Tw.
  fold gatewayUrl.
  split.
  - destruct (Feed.quiet o); cbn [Trace.network List.filter is_network app];
      rewrite ?app_nil_r; reflexivity.
  - destruct (Feed.quiet o); cbn [Trace.warnings flat_map app]; reflexivity.
Qed.

End FeedRun.

(** ** The steps of [upload] *)

Section UploadSteps.

Import Swarm Cli.

Lemma upload_validate (o : Upload.Options) :
  Upload.validate o =
  ([], if negb (matches_hex64 (Upload.batchId o))
       then Throw (Error "Invalid batch ID format (expected 64 hex characters)")
       else if negb (matches_hex64 (Upload.key o))
       then Throw (Error "Invalid key format (expected 64 hex characters)")
       else Normal tt).
Proof.
  unfold Upload.validate.
  destruct (matches_hex64 (Upload.batchId o)), (matches_hex64 (Upload.key o));
    reflexivity.
Qed.

Lemma pathsToFiles_unremarkable (w : World) (filePaths : list string) (basePath : string) :
  forallb unremarkable (trace (Upload.pathsToFiles w filePaths basePath)) = true.
Proof.
  induction filePaths as [| filePath more IH]; [reflexivity |].
  cbn [Upload.pathsToFiles]. run.
  destruct (readFile w _); [| reflexivity].
  cbn [forallb unremarkable andb app]. run.
  rewrite forallb_app, IH.
  destruct (completion (Upload.pathsToFiles w more basePath)); reflexivity.
Qed.

Lemma upload_files_block (w : World) (uploadPath : string) (o : Upload.Options) :
  forallb unremarkable (trace (Upload.files_block w uploadPath o)) = true.
Proof.
  unfold Upload.files_block. run.
  destruct (stat_isDirectory w _) as [[] | e]; run; cbn [forallb unremarkable andb].
  - destruct (Upload.quiet o); cbn [negb app forallb unremarkable andb];
      (destruct (glob w _) as [filePaths | e]; [| reflexivity]);
      run; (destruct (List.length filePaths =? 0)%nat; [reflexivity |]);
      run; cbn [negb app forallb unremarkable andb];
      apply pathsToFiles_unremarkable.
  - apply pathsToFiles_unremarkable.
  - reflexivity.
Qed.


Lemma upload_depth_block (w : World) (o : Upload.Options) :
  let fetched := returned JS.VNull
                   (fetchBatchDepth w (Upload.batchId o) (Upload.gnosisRpc o)) in
  completion (Upload.depth_block w o)
  = Normal (resolved_depth (Upload.depth o) fetched) /\
  Trace.network (trace (Upload.depth_block w o))
  = (if given (Upload.depth o) then [] else [upload_depth_read o]) /\
  Trace.warnings (trace (Upload.depth_block w o))
  = (if given (Upload.depth o) || Upload.quiet o || negb (is_null fetched) then []
     else [DEPTH_WARNING]) /\
  Trace.errors (trace (Upload.depth_block w o)) = [].
Proof.
  intros fetched. subst fetched. unfold returned, resolved_depth.
  rewrite fetchBatchDepth_completion.
  unfold Upload.depth_block, upload_depth_read, depth_read, prefixed, fetchBatchDepth.
  destruct (readContract w _ _ _ _) as [z | e];
    destruct (given (Upload.depth o)), (Upload.quiet o); repeat split; reflexivity.
Qed.


(** What the [catch] of [upload] shows under [--verbose]: lines on
    [console.error], and nothing else. *)
Lemma verbose_error_details_shown (e : Exception) :
  completion (Upload.verbose_error_details e) = Normal tt /\
  forallb (fun ev => match ev with ConsoleError _ => true | _ => false end)
          (trace (Upload.verbose_error_details e)) = true.
Proof.
  destruct e as [message | origin | origin response url method];
    try (split; reflexivity).
  unfold Upload.verbose_error_details, Upload.http_error_details.
  destruct (JS.truthy (JS.get response "headers")),
    (JS.truthy (JS.get response "data")); split; reflexivity.
Qed.

Lemma console_errors_projections (t : list Event) :
  forallb (fun ev => match ev with ConsoleError _ => true | _ => false end) t = true ->
  Trace.network t = [] /\ Trace.warnings t = [] /\ Trace.writes t = [] /\
  Trace.http_gets t = [] /\ Trace.rpc_calls t = [] /\ Trace.uploads t = [].
Proof.
  induction t as [| ev t IH]; intros H; [repeat split |].
  cbn [forallb] in H. apply andb_prop in H as [Hev Ht].
  destruct (IH Ht) as (H1 & H2 & H3 & H4 & H5 & H6).
  destruct ev; try discriminate Hev.
  repeat split; assumption.
Qed.

(** The [catch] of [upload]. *)
Lemma upload_catch_trace (o : Upload.Options) (e : Exception) :
  (when (negb (Upload.quiet o)) (emit (SpinnerFail (Lit "Upload failed"))) ;;;
   emit (ConsoleError [Lit "Error:"; error_message e]) ;;;
   when (Upload.verbose o) (Upload.verbose_error_details e) ;;;
   emit (ProcessExit 1))
  = (((if Upload.quiet o then [] else [SpinnerFail (Lit "Upload failed")])
      ++ ConsoleError [Lit "Error:"; error_message e]
      :: (if Upload.verbose o then trace (Upload.verbose_error_details e) else [])
      ++ [ProcessExit 1])%list,
     Normal tt).
Proof.
  destruct (verbose_error_details_shown e) as [Hc _].
  destruct (Upload.verbose_error_details e) as [t c].
  cbn [completion snd] in Hc. subst c.
  destruct (Upload.quiet o), (Upload.verbose o); reflexivity.
Qed.

End UploadSteps.

(** ** A run of [upload] *)

Section UploadRun.

Import Swarm Cli.

Variables (w : World) (o : Upload.Options) (result : UploadResult)
          (feedIndex depth : JS.Value).

Local Abbreviation argument :=
  (JS.VObject (Upload.updateFeed_argument o result feedIndex depth)).

Lemma argument_topic : JS.get argument "topic" = JS.VUndefined.
Proof. reflexivity. Qed.

Lemma argument_vaultKey : JS.get argument "vaultKey" = JS.VUndefined.
Proof. reflexivity. Qed.

Lemma argument_index : JS.get argument "index" = feedIndex.
Proof. reflexivity. Qed.

Lemma argument_depth : JS.get argument "depth" = depth.
Proof. reflexivity. Qed.

Lemma argument_gateway : JS.get argument "gateway" = JS.of_option (Upload.gateway o).
Proof. reflexivity. Qed.

Lemma argument_project : JS.get argument "project" = JS.of_option (Upload.project o).
Proof. reflexivity. Qed.

Lemma argument_reference : JS.get argument "reference" = JS.VString (reference result).
Proof. reflexivity. Qed.

Lemma argument_batchId : JS.get argument "batchId" = JS.VString (Upload.batchId o).
Proof. reflexivity. Qed.

(** [updateFeed] on the object of the upload command: the key it reads as
    [vaultKey] is [undefined]. *)
Lemma updateFeed_upload :
  Feed.updateFeed w (Upload.updateFeed_argument o result feedIndex depth)
  = (signerPrivateKey <-
       (if given (Upload.project o) then
          projectSlug <- lift (normalizeProjectSlug w (JS.of_option (Upload.project o))) ;;
          projectKey <- lift (deriveProjectKey w JS.VUndefined projectSlug) ;;
          ret (JS.VString projectKey)
        else ret JS.VUndefined) ;;
     emit (WriteFeedUpdate (upload_request o result signerPrivateKey feedIndex depth)) ;;;
     lift (writeFeedUpdate w (upload_request o result signerPrivateKey feedIndex depth))).
Proof.
  unfold Feed.updateFeed.
  rewrite argument_topic, argument_vaultKey, argument_index, argument_depth,
    argument_gateway, argument_project, argument_reference, argument_batchId.
  cbn [JS.truthy]. rewrite bind_ret. reflexivity.
Qed.

End UploadRun.

Section UploadFeedBlock.

Import Swarm Cli.

Variables (w : World) (o : Upload.Options).


(** The events of a run that passes validation and reads its files: the
    resolution of the depth, the upload, and the update of the feed when it
    was asked for. *)
Lemma upload_run (uploadPath : string) (files : list File) :
  completion (Upload.validate o) = Normal tt ->
  completion (Upload.files_block w uploadPath o) = Normal files ->
  let config := Upload.config_of w o (upload_depth w o) in
  let run := trace (Upload.upload_action w uploadPath o) in
  Trace.network run
  = ((if given (Upload.depth o) then [] else [upload_depth_read o]) ++
     match newStampedUploader w config with
     | Normal _ =>
         UploadFiles config files (Upload.indexDocument o) (Upload.spa o)
         :: match uploadFiles w config files (Upload.indexDocument o) (Upload.spa o) with
            | Normal result =>
                if Upload.feed o
                then Trace.network (trace (Upload.feed_block w o result (upload_depth w o)))
                else []
            | Throw _ => []
            end
     | Throw _ => []
     end)%list /\
  exists after,
    Trace.warnings run
    = ((if given (Upload.depth o) || Upload.quiet o
           || negb (is_null (returned JS.VNull
                               (fetchBatchDepth w (Upload.batchId o) (Upload.gnosisRpc o))))
        then [] else [DEPTH_WARNING]) ++ after)%list.
Proof.
  intros Hval Hfiles config run.
  pose proof (upload_files_block w uploadPath o) as Ft.
  destruct (unremarkable_projections _ Ft) as (Fn & _ & _ & _ & _ & Fw & _).
  destruct (upload_depth_block w o) as (Dc & Dn & Dw & _).
  fold (upload_depth w o) in Dc.
  rewrite upload_validate in Hval. cbn [completion snd] in Hval.
  assert (Rn : forall r, Trace.network (trace (Upload.report o r)) = []).
  { intros r. unfold Upload.report.
    destruct (given (Upload.output o) && _); [reflexivity |].
    destruct (Upload.quiet o); reflexivity. }
  assert (Htry :
    Trace.network (trace (Upload.upload_try w uploadPath o))
    = ((if given (Upload.depth o) then [] else [upload_depth_read o]) ++
       match newStampedUploader w config with
       | Normal _ =>
           UploadFiles config files (Upload.indexDocument o) (Upload.spa o)
           :: match uploadFiles w config files (Upload.indexDocument o) (Upload.spa o) with
              | Normal result =>
                  if Upload.feed o
                  then Trace.network
                         (trace (Upload.feed_block w o result (upload_depth w o)))
                  else []
              | Throw _ => []
              end
       | Throw _ => []
       end)%list /\
    exists after,
      Trace.warnings (trace (Upload.upload_try w uploadPath o))
      = (Trace.warnings (trace (Upload.depth_block w o)) ++ after)%list).
  { unfold Upload.upload_try. run.
    rewrite upload_validate. cbn [completion trace fst snd]. rewrite Hval.
    run. rewrite Hfiles. run. rewrite Dc. run. fold config.
    autorewrite with project. rewrite Fn, Fw, Dn.
    split; [| eexists; reflexivity].
    cbn [app]. f_equal.
    destruct (newStampedUploader w config); [| reflexivity]. run.
    destruct (Upload.quiet o); cbn [negb];
      (destruct (uploadFiles w config files _ _) as [result | e];
       [| network; reflexivity]);
      run;
      (destruct (Upload.feed o);
       [ destruct (completion (Upload.feed_block w o result (upload_depth w o)))
       | ]);
      network; rewrite ?Rn, ?app_nil_r; reflexivity. }
  destruct Htry as [Hn (after & Hw)].
  subst run. unfold Upload.upload_action. run. autorewrite with project.
  rewrite Hn, Hw, Dw.
  assert (Hhandler : forall e,
    Trace.network
      (trace (when (negb (Upload.quiet o)) (emit (SpinnerFail (Lit "Upload failed"))) ;;;
              emit (ConsoleError [Lit "Error:"; error_message e]) ;;;
              when (Upload.verbose o) (Upload.verbose_error_details e) ;;;
              emit (ProcessExit 1))) = []).
  { intros e. rewrite upload_catch_trace. cbn [trace fst].
    destruct (verbose_error_details_shown e) as [_ Hshown].
    destruct (console_errors_projections _ Hshown) as (Vn & _).
    destruct (Upload.quiet o), (Upload.verbose o); network; rewrite ?Vn; reflexivity. }
  split.
  - destruct (completion (Upload.upload_try w uploadPath o)) as [u | e];
      [| rewrite Hhandler];
      destruct (Upload.quiet o); network; reflexivity.
  - destruct (Upload.quiet o); eexists; cbn [negb Trace.warnings flat_map app];
      rewrite <- ?app_assoc; reflexivity.
Qed.

End UploadFeedBlock.

(** ** Where the depth is asked, and what is checked before *)

Section DepthQuery.

Import Swarm Cli.

Lemma rpc_calls_of_network (t : list Event) :
  Trace.rpc_calls t = Trace.rpc_calls (Trace.network t).
Proof. symmetry. apply network_idempotent. Qed.

(** A run of [upload] whose batch id or key does not match the pattern
    reports the error and leaves before anything reaches the network or the
    file system. *)
Lemma upload_validation_comes_first (w : World) (uploadPath : string)
    (o : Upload.Options) :
  matches_hex64 (Upload.batchId o) && matches_hex64 (Upload.key o) = false ->
  Trace.network (trace (Upload.upload_action w uploadPath o)) = [] /\
  In (ProcessExit 1) (trace (Upload.upload_action w uploadPath o)) /\
  forallb (fun ev => match ev with FsStat _ | Glob _ | ReadFile _ => false | _ => true end)
          (trace (Upload.upload_action w uploadPath o)) = true.
Proof.
  intros H. unfold Upload.upload_action, Upload.upload_try.
  rewrite upload_validate.
  destruct (matches_hex64 (Upload.batchId o)), (matches_hex64 (Upload.key o));
    try discriminate H;
    destruct (Upload.quiet o), (Upload.verbose o); cbn; intuition.
Qed.

(** A run of [feed update] whose reference or key does not match the
    pattern, or that has no batch id, does the same. *)
Lemma feed_validation_comes_first (w : World) (o : Feed.Options) :
  matches_hex64 (Feed.reference o) && matches_hex64 (Feed.key o)
    && given (Feed.batchId o) = false ->
  Trace.network (trace (Feed.update_action w o)) = [] /\
  In (ProcessExit 1) (trace (Feed.update_action w o)).
Proof.
  intros H. unfold Feed.update_action, Feed.update_try.
  rewrite feed_validate.
  destruct (matches_hex64 (Feed.reference o)), (matches_hex64 (Feed.key o)),
    (given (Feed.batchId o));
    try discriminate H;
    destruct (Feed.quiet o); cbn; intuition.
Qed.

End DepthQuery.

(** C2.  [fetchBatchDepth] reads [batchDepth] on the PostageStamp contract
    through the RPC URL it is given, [https://rpc.gnosis.gateway.fm] when it
    is given none; the upload command gives it [--gnosis-rpc].  The feed
    command gives it the gateway URL: a run of [feed update] with the
    gateway [https://bzz.sh] and no [--depth] asks the depth at
    [https://bzz.sh]. *)
Theorem feed_depth_query_goes_to_gateway :
  (forall (w : World) (batchId : string) (rpcUrl : option string),
      Trace.rpc_calls (trace (Swarm.fetchBatchDepth w batchId rpcUrl))
      = [(default "https://rpc.gnosis.gateway.fm" rpcUrl,
          Swarm.POSTAGE_STAMP_ADDRESS, "batchDepth", [prefixed batchId])]) /\
  (forall (w : World) (o : Upload.Options),
      Trace.rpc_calls (trace (Upload.depth_block w o))
      = if Cli.given (Upload.depth o) then []
        else [(default "https://rpc.gnosis.gateway.fm" (Upload.gnosisRpc o),
               Swarm.POSTAGE_STAMP_ADDRESS, "batchDepth", [prefixed (Upload.batchId o)])]) /\
  (forall (w : World) (o : Feed.Options),
      Trace.rpc_calls (trace (Feed.depth_block w o))
      = if Cli.given (Feed.depth o) then []
        else [(Cli.or_default (Feed.gateway o) (DEFAULT_GATEWAY_URL w),
               Swarm.POSTAGE_STAMP_ADDRESS, "batchDepth",
               [prefixed (default "" (Feed.batchId o))])]) /\
  Trace.rpc_calls
    (trace (Feed.update_action
              (Example.world (Normal 22) (Example.respond 404 [] JS.VUndefined))
              Example.feed_options))
  = [("https://bzz.sh", Swarm.POSTAGE_STAMP_ADDRESS, "batchDepth", ["0x" ++ Example.BATCH])].
Proof.
  split; [| split; [| split]].
  - intros w batchId rpcUrl. rewrite fetchBatchDepth_trace. reflexivity.
  - intros w o. rewrite rpc_calls_of_network.
    destruct (upload_depth_block w o) as (_ & -> & _).
    destruct (Cli.given (Upload.depth o)); reflexivity.
  - intros w o. rewrite rpc_calls_of_network.
    destruct (feed_depth_block w o) as (fetched & _ & _ & -> & _).
    destruct (Cli.given (Feed.depth o)); reflexivity.
  - vm_compute. reflexivity.
Qed.

(** C5.  The feed command checks that a batch id is there, not what it looks
    like: with [--batch-id xyz] validation passes, and the run goes on to
    ask the chain and the gateway and to hand [writeFeedUpdate] the batch id
    [xyz]; no error is reported. *)
Theorem feed_update_accepts_malformed_batch_id :
  Cli.matches_hex64 "xyz" = false /\
  Feed.validate Example.xyz_feed_options = ([], Normal tt) /\
  Trace.errors
    (trace (Feed.update_action
              (Example.world Example.unreachable (Example.respond 404 [] JS.VUndefined))
              Example.xyz_feed_options)) = [] /\
  Trace.http_gets
    (trace (Feed.update_action
              (Example.world Example.unreachable (Example.respond 404 [] JS.VUndefined))
              Example.xyz_feed_options))
  = ["https://bzz.sh/feeds/1111111111111111111111111111111111111111/0000000000000000000000000000000000000000000000000000000000000000"] /\
  map Eff.batchId
    (Trace.writes
       (trace (Feed.update_action
                 (Example.world Example.unreachable (Example.respond 404 [] JS.VUndefined))
                 Example.xyz_feed_options)))
  = [JS.VString "xyz"].
Proof. repeat split; vm_compute; reflexivity. Qed.

(** ** The keys of a write request *)

Section WriteKeys.

Import Swarm Cli.

Lemma updateFeed_upload_trace (w : World) (o : Upload.Options) (result : UploadResult)
    (feedIndex depth : JS.Value) :
  trace (Feed.updateFeed w (Upload.updateFeed_argument o result feedIndex depth))
  = match upload_update_signer w o with
    | Normal signerPrivateKey =>
        [WriteFeedUpdate (upload_request o result signerPrivateKey feedIndex depth)]
    | Throw _ => []
    end.
Proof.
  rewrite updateFeed_upload. unfold upload_update_signer.
  destruct (given (Upload.project o)).
  - destruct (normalizeProjectSlug w _) as [slug | e]; step; [| reflexivity].
    destruct (deriveProjectKey w _ slug) as [k | e]; step; [| reflexivity].
    reflexivity.
  - step. reflexivity.
Qed.

End WriteKeys.

(** C1.  The feed command hands [writeFeedUpdate] the reserve key as
    [vaultPrivateKey], and as [signerPrivateKey] the project key when a
    project is given, nothing otherwise.  The upload command passes its key
    to [updateFeed] as [reserveKey], and [updateFeed] reads [vaultKey]: every
    request it hands to [writeFeedUpdate] has [vaultPrivateKey] undefined,
    and with a project the project key is derived from [undefined].  A run
    of [upload --feed] with key [K] ends in a request without vault key. *)
Theorem upload_feed_update_loses_reserve_key :
  (forall (w : World) (o : Feed.Options) (signerPrivateKey index depth : JS.Value),
      vaultPrivateKey (Feed.request_of w o signerPrivateKey index depth)
      = JS.VString (Feed.key o)) /\
  (forall (w : World) (o : Upload.Options) (result : UploadResult)
          (feedIndex depth : JS.Value),
      Trace.writes
        (trace (Feed.updateFeed w (Upload.updateFeed_argument o result feedIndex depth)))
      = match upload_update_signer w o with
        | Normal signerPrivateKey =>
            [upload_request o result signerPrivateKey feedIndex depth]
        | Throw _ => []
        end) /\
  (forall (o : Upload.Options) (result : UploadResult)
          (signerPrivateKey feedIndex depth : JS.Value),
      vaultPrivateKey (upload_request o result signerPrivateKey feedIndex depth)
      = JS.VUndefined) /\
  map vaultPrivateKey
    (Trace.writes
       (trace (Upload.upload_action
                 (Example.world (Normal 22) (Example.respond 404 [] JS.VUndefined))
                 "dist" Example.upload_options)))
  = [JS.VUndefined].
Proof.
  split; [| split; [| split]].
  - reflexivity.
  - intros w o result feedIndex depth. rewrite updateFeed_upload_trace.
    destruct (upload_update_signer w o); reflexivity.
  - reflexivity.
  - vm_compute. reflexivity.
Qed.

(** ** The depth and the index a run resolves *)

Section Resolution.

Import Swarm Cli.



Lemma resolved_absent (explicit : option string) (fallback : Z) :
  given explicit = false ->
  (if given explicit then JS.VNumber (JS.parseInt (default "" explicit) 0)
   else or_fallback JS.VNull (JS.VNumber (JS.Int fallback)))
  = JS.VNumber (JS.Int fallback).
Proof. intros ->. reflexivity. Qed.


(** What a run of [feed update] sends over the network. *)
Lemma feed_run_resolved (w : World) (o : Feed.Options) (signer : string) :
  completion (Feed.validate o) = Normal tt ->
  signer_key w (Feed.key o) (Feed.project o) = Normal signer ->
  let gatewayUrl := or_default (Feed.gateway o) (DEFAULT_GATEWAY_URL w) in
  let run := trace (Feed.update_action w o) in
  Trace.network run
  = ((if given (Feed.depth o) then [] else [feed_depth_read w o]) ++
     index_lookup w (Feed.index o) signer gatewayUrl (Feed.topic_of o) ++
     [WriteFeedUpdate
        (Feed.request_of w o
           (if given (Feed.project o) then JS.VString signer else JS.VUndefined)
           (feed_index w o signer) (feed_depth w o))])%list /\
  exists after,
    Trace.warnings run
    = ((if given (Feed.depth o) || Feed.quiet o
           || negb (is_null (returned JS.VNull
                               (fetchBatchDepth w (default "" (Feed.batchId o))
                                  (Some gatewayUrl))))
        then [] else [DEPTH_WARNING]) ++ after)%list.
Proof.
  intros Hval Hsigner gatewayUrl run.
  destruct (feed_run w o signer Hval Hsigner)
    as (fetchedDepth & fetchedIndex & after & Hfd & Hfi & Hn & Hw).
  fold gatewayUrl in Hfd, Hfi. fold run in Hn, Hw.
  unfold feed_index, feed_depth, resolved_index, resolved_depth, returned, index_lookup.
  fold gatewayUrl. rewrite Hfd, Hfi. split; [exact Hn |].
  exists after. exact Hw.
Qed.



End Resolution.

Section DepthResolution.

Import Swarm Cli.


End DepthResolution.






Section ReferenceLookup.




End ReferenceLookup.



(** * Further properties *)

(** ** The codec on texts it was not written for *)

Section CodecEdges.

Import Crypto.

Lemma hex_char_cases (c : ascii) : Cli.is_hex_char c = true -> In c hex_digits.
Proof.
  destruct c as [[] [] [] [] [] [] [] []]; vm_compute; intros H;
    try discriminate H; tauto.
Qed.

Lemma decode_pair_any_case (c1 c2 : ascii) :
  Cli.is_hex_char c1 = true -> Cli.is_hex_char c2 = true ->
  byte_hex (decode_pair c1 c2) = String (lower_char c1) (String (lower_char c2) "") /\
  decode_pair (lower_char c1) (lower_char c2) = decode_pair c1 c2.
Proof.
  intros H1 H2.
  apply hex_char_cases in H1. apply hex_char_cases in H2.
  unfold hex_digits in *. cbn [list_ascii_of_string In] in H1, H2.
  repeat (destruct H1 as [<- | H1]; [| ]); try contradiction;
    repeat (destruct H2 as [<- | H2]; [| ]); try contradiction;
    split; reflexivity.
Qed.

Lemma remove_0x_all_hex (s : string) : all_hex s = true -> remove_0x s = s.
Proof.
  intros H. destruct s as [| c1 [| c2 s]]; [reflexivity | |].
  { destruct c1 as [[] [] [] [] [] [] [] []]; reflexivity. }
  unfold all_hex in H. cbn [list_ascii_of_string forallb] in H.
  apply andb_prop in H as [_ H]. apply andb_prop in H as [H _].
  unfold remove_0x.
  destruct c1 as [[] [] [] [] [] [] [] []]; try reflexivity.
  destruct c2 as [[] [] [] [] [] [] [] []]; try reflexivity.
  discriminate H.
Qed.

Lemma all_hex_lower (s : string) : all_hex s = true -> all_hex (lower_text s) = true.
Proof.
  unfold all_hex. induction s as [| c s IH]; [reflexivity |].
  cbn [lower_text list_ascii_of_string forallb]. intros H.
  apply andb_prop in H as [Hc Hs]. rewrite (IH Hs), andb_true_r.
  apply hex_char_cases in Hc. unfold hex_digits in Hc.
  cbn [list_ascii_of_string In] in Hc.
  repeat (destruct Hc as [<- | Hc]; [reflexivity |]). contradiction.
Qed.

Lemma decode_any_case (n : nat) :
  forall s, (String.length s <= 2 * n)%nat ->
            Nat.even (String.length s) = true -> all_hex s = true ->
            bytesToHex (decode s) = lower_text s /\
            decode (lower_text s) = decode s.
Proof.
  induction n as [| n IH]; intros s Hlen Heven Hhex.
  - destruct s; [split; reflexivity | cbn in Hlen; lia].
  - destruct s as [| c1 [| c2 s]]; [split; reflexivity | discriminate Heven |].
    unfold all_hex in Hhex. cbn [list_ascii_of_string forallb] in Hhex.
    apply andb_prop in Hhex as [H1 Hhex]. apply andb_prop in Hhex as [H2 Hhex].
    destruct (decode_pair_any_case c1 c2 H1 H2) as [Henc Hlow].
    destruct (IH s) as [IH1 IH2]; [cbn in Hlen; lia | exact Heven | exact Hhex |].
    cbn [lower_text]. rewrite !decode_cons2, bytesToHex_cons, Henc, append_pair.
    rewrite IH1, IH2, Hlow. split; reflexivity.
Qed.

Lemma decode_odd_tail (n : nat) :
  forall s c, (String.length s <= 2 * n)%nat ->
              Nat.even (String.length s) = true ->
              decode (s ++ String c "") = decode s.
Proof.
  induction n as [| n IH]; intros s c Hlen Heven.
  - destruct s; [reflexivity | cbn in Hlen; lia].
  - destruct s as [| c1 [| c2 s]]; [reflexivity | discriminate Heven |].
    change (String c1 (String c2 s) ++ String c "")
      with (String c1 (String c2 (s ++ String c ""))).
    rewrite !decode_cons2. f_equal.
    apply IH; [cbn in Hlen; lia | exact Heven].
Qed.

Lemma remove_0x_length (s : string) :
  String.length (remove_0x s) = String.length s \/
  (String.length s = 2 + String.length (remove_0x s))%nat.
Proof.
  destruct s as [| c1 [| c2 s]]; [left; reflexivity | |].
  { left. destruct c1 as [[] [] [] [] [] [] [] []]; reflexivity. }
  destruct (ascii_dec c1 "0") as [-> |]; [destruct (ascii_dec c2 "x") as [-> |] |].
  - right. reflexivity.
  - left. unfold remove_0x.
    destruct c2 as [[] [] [] [] [] [] [] []]; try reflexivity; try contradiction.
  - left. unfold remove_0x.
    destruct c1 as [[] [] [] [] [] [] [] []]; try reflexivity; try contradiction.
Qed.

Lemma remove_0x_app (s : string) (c : ascii) :
  Nat.even (String.length s) = true ->
  remove_0x (s ++ String c "") = remove_0x s ++ String c "".
Proof.
  intros Heven.
  destruct s as [| c1 [| c2 s]]; [| discriminate Heven |].
  { cbn. destruct c as [[] [] [] [] [] [] [] []]; reflexivity. }
  change (String c1 (String c2 s) ++ String c "")
    with (String c1 (String c2 (s ++ String c ""))).
  destruct (ascii_dec c1 "0") as [-> |]; [destruct (ascii_dec c2 "x") as [-> |] |].
  - reflexivity.
  - unfold remove_0x.
    destruct c2 as [[] [] [] [] [] [] [] []]; try reflexivity; try contradiction.
  - unfold remove_0x.
    destruct c1 as [[] [] [] [] [] [] [] []]; try reflexivity; try contradiction.
Qed.

Lemma inert_facts (c : ascii) :
  is_inert c = true ->
  JS.is_white_space c = false /\
  (forall r, match String c r with
             | String "-" r' => (-1, r')
             | String "+" r' => (1, r')
             | _ => (1, String c r)
             end = (1, String c r)) /\
  (forall r, JS.strip_hex_prefix (String c r) = String c r) /\
  (forall r, JS.digits_prefix 16 (String c r) = []).
Proof.
  destruct c as [[] [] [] [] [] [] [] []]; intros H; try discriminate H;
    repeat split; reflexivity.
Qed.

Lemma inert_head (c : ascii) (r : string) :
  is_inert c = true -> JS.parseInt (String c r) 16 = JS.NaN.
Proof.
  intros H. destruct (inert_facts c H) as (Hw & Hsign & Hstrip & Hdigits).
  unfold JS.parseInt. unfold JS.trim_start; fold JS.trim_start.
  rewrite Hw, Hsign. cbn [Z.eqb Pos.eqb negb andb orb].
  rewrite Hstrip, String.eqb_refl. cbn [negb andb Z.eqb Pos.eqb].
  now rewrite Hdigits.
Qed.

Lemma inert_pair (c1 c2 : ascii) : is_inert c1 = true -> decode_pair c1 c2 = x00.
Proof. intros H. unfold decode_pair. now rewrite inert_head. Qed.

Lemma decode_inert (n : nat) :
  forall s, (String.length s <= 2 * n)%nat -> all_inert s = true ->
            decode s = repeat x00 (String.length s / 2).
Proof.
  induction n as [| n IH]; intros s Hlen Hin.
  - destruct s; [reflexivity | cbn in Hlen; lia].
  - destruct s as [| c1 [| c2 s]]; [reflexivity | reflexivity |].
    unfold all_inert in Hin. cbn [list_ascii_of_string forallb] in Hin.
    apply andb_prop in Hin as [H1 Hin]. apply andb_prop in Hin as [_ Hin].
    rewrite decode_cons2, (inert_pair c1 c2 H1), IH;
      [| cbn in Hlen; lia | exact Hin].
    cbn [String.length].
    change (S (S (String.length s))) with (1 * 2 + String.length s)%nat.
    rewrite Nat.div_add_l by discriminate. reflexivity.
Qed.

Lemma remove_0x_inert (s : string) : all_inert s = true -> remove_0x s = s.
Proof.
  intros H. destruct s as [| c1 s]; [reflexivity |].
  unfold all_inert in H. cbn [list_ascii_of_string forallb] in H.
  apply andb_prop in H as [H _]. unfold remove_0x.
  destruct c1 as [[] [] [] [] [] [] [] []]; try reflexivity; try discriminate H;
    destruct s; reflexivity.
Qed.

End CodecEdges.

(** X1.  On a text of hexadecimal digits of even length, in either case:
    encoding what [hexToBytes] read gives the text in lower case; the case
    of the digits does not change the bytes; and neither does [0x] in
    front. *)
Theorem hexToBytes_any_case (s : string) :
  all_hex s = true -> Nat.even (String.length s) = true ->
  Crypto.bytesToHex (Crypto.hexToBytes s) = lower_text s /\
  Crypto.hexToBytes (lower_text s) = Crypto.hexToBytes s /\
  Crypto.hexToBytes ("0x" ++ s) = Crypto.hexToBytes s.
Proof.
  intros Hhex Heven.
  destruct (decode_any_case (String.length s) s ltac:(lia) Heven Hhex) as [H1 H2].
  rewrite !hexToBytes_decode, (remove_0x_all_hex s Hhex),
    (remove_0x_all_hex _ (all_hex_lower s Hhex)).
  repeat split; assumption.
Qed.

Lemma hexToBytes_any_case_witness :
  Crypto.bytesToHex (Crypto.hexToBytes "DEadBEef") = "deadbeef" /\
  Crypto.hexToBytes "deadbeef" = Crypto.hexToBytes "DEadBEef" /\
  Crypto.hexToBytes "0xDEadBEef" = Crypto.hexToBytes "DEadBEef".
Proof. apply (hexToBytes_any_case "DEadBEef"); reflexivity. Defined.

(** X2.  [hexToBytes] returns one byte for every two characters after the
    prefix, and a last character without a partner is dropped: a text of
    even length and the same text with one more character decode alike. *)
Theorem hexToBytes_drops_odd_character (s : string) (c : ascii) :
  Nat.even (String.length s) = true ->
  List.length (Crypto.hexToBytes s) = (String.length (Crypto.remove_0x s) / 2)%nat /\
  Crypto.hexToBytes (s ++ String c "") = Crypto.hexToBytes s.
Proof.
  intros Heven. split; [apply hexToBytes_length |].
  rewrite !hexToBytes_decode, remove_0x_app by exact Heven.
  apply (decode_odd_tail (String.length (Crypto.remove_0x s))); [lia |].
  destruct (remove_0x_length s) as [-> | H]; [exact Heven |].
  rewrite H in Heven. exact Heven.
Qed.

Lemma hexToBytes_drops_odd_character_witness :
  List.length (Crypto.hexToBytes "0x00ff") = 2%nat /\
  Crypto.hexToBytes "0x00ff1" = Crypto.hexToBytes "0x00ff".
Proof. apply (hexToBytes_drops_odd_character "0x00ff" "1"); reflexivity. Defined.

(** X3.  [hexToBytes] rejects nothing: a text without any hexadecimal digit,
    white space or sign decodes to zero bytes, one for every two characters.
    The feed command does not check [--topic], so such a topic of 64
    characters is the topic of 32 zero bytes, the one used when no topic is
    given. *)
Theorem hexToBytes_garbage_is_zero (s : string) :
  all_inert s = true ->
  Crypto.hexToBytes s = repeat x00 (String.length s / 2) /\
  forall o : Feed.Options,
    Feed.topic o = Some s -> String.length s = 64%nat ->
    Feed.topic_of o = Swarm.NULL_TOPIC.
Proof.
  intros Hin.
  assert (H : Crypto.hexToBytes s = repeat x00 (String.length s / 2)).
  { rewrite hexToBytes_decode, (remove_0x_inert s Hin).
    apply (decode_inert (String.length s)); [lia | exact Hin]. }
  split; [exact H |].
  intros o Ho Hlen. unfold Feed.topic_of. rewrite Ho.
  destruct s as [| c s]; [discriminate Hlen |].
  change (Cli.given (Some (String c s))) with true. cbv iota.
  change (default "" (Some (String c s))) with (String c s).
  rewrite H, Hlen. reflexivity.
Qed.

Lemma hexToBytes_garbage_is_zero_witness :
  Crypto.hexToBytes "unknown!" = [x00; x00; x00; x00].
Proof.
  apply (proj1 (hexToBytes_garbage_is_zero "unknown!" eq_refl)).
Defined.

(** X4.  A text the commands accept as key, batch id or reference (64
    hexadecimal digits, [0x] in front or not) decodes to 32 bytes, and these
    encode to the 64 digits in lower case, without prefix. *)
Theorem validated_text_round_trip (text : string) :
  Cli.matches_hex64 text = true ->
  List.length (Crypto.hexToBytes text) = 32%nat /\
  Crypto.bytesToHex (Crypto.hexToBytes text) = lower_text (Crypto.remove_0x text) /\
  String.length (Crypto.bytesToHex (Crypto.hexToBytes text)) = 64%nat.
Proof.
  intros H. pose proof (matches_hex64_length text H) as Hlen.
  unfold Cli.matches_hex64 in H. apply andb_prop in H as [Hn Hhex].
  apply Nat.eqb_eq in Hn.
  split; [exact Hlen | split].
  - rewrite hexToBytes_decode.
    apply (decode_any_case 32); [lia | now rewrite Hn | exact Hhex].
  - rewrite bytesToHex_length, Hlen. reflexivity.
Qed.

Lemma validated_text_round_trip_witness :
  List.length (Crypto.hexToBytes Example.K) = 32%nat /\
  Crypto.bytesToHex (Crypto.hexToBytes Example.K)
  = lower_text (Crypto.remove_0x Example.K) /\
  String.length (Crypto.bytesToHex (Crypto.hexToBytes Example.K)) = 64%nat.
Proof. apply (validated_text_round_trip Example.K); reflexivity. Defined.

(** ** The resolvers when nothing can be resolved *)

(** X5.  When [fetchNextFeedIndex] gives up.  A key the curve rejects: no
    request is sent, the answer is [null].  Otherwise exactly one GET goes to
    the feed of the key's address and the topic, with a timeout of 5000 ms;
    when no response arrives, or one with a status other than 200 and 404,
    the answer is [null]. *)
Theorem fetchNextFeedIndex_gives_up (w : World) (vaultPrivateKey gatewayUrl : string)
    (topic : option (list byte)) :
  let call := Swarm.fetchNextFeedIndex w vaultPrivateKey gatewayUrl topic in
  (forall e, Crypto.getAddressFromPrivateKey w vaultPrivateKey = Throw e ->
             trace call = [] /\ completion call = Normal JS.VNull) /\
  (forall owner,
      Crypto.getAddressFromPrivateKey w vaultPrivateKey = Normal owner ->
      let url := Swarm.feed_url gatewayUrl owner (default Swarm.NULL_TOPIC topic) in
      trace call = [HttpGet url 5000] /\
      (http w url = NoResponse -> completion call = Normal JS.VNull) /\
      (forall response,
          http w url = Responded response ->
          status response <> 200 -> status response <> 404 ->
          completion call = Normal JS.VNull)).
Proof.
  intros call. subst call. split.
  - intros e He. rewrite fetchNextFeedIndex_trace, He. split; [reflexivity |].
    unfold Swarm.fetchNextFeedIndex. run. rewrite He. reflexivity.
  - intros owner Hown url. rewrite fetchNextFeedIndex_trace, Hown.
    split; [reflexivity | split].
    + intros Hhttp. unfold Swarm.fetchNextFeedIndex, Swarm.axios_get. run.
      rewrite Hown. run. fold url. rewrite Hhttp. reflexivity.
    + intros response Hhttp H200 H404.
      unfold Swarm.fetchNextFeedIndex, Swarm.axios_get. run.
      rewrite Hown. run. fold url. rewrite Hhttp.
      apply Z.eqb_neq in H200, H404. rewrite H200, H404. reflexivity.
Qed.

(** The gateway answers 500: one request, and [null]. *)
Lemma fetchNextFeedIndex_gives_up_witness :
  let call :=
    Swarm.fetchNextFeedIndex
      (Example.world Example.unreachable (Example.respond 500 [] JS.VUndefined))
      Example.K "https://bzz.sh" None in
  List.length (trace call) = 1%nat /\ completion call = Normal JS.VNull.
Proof.
  intros call.
  destruct (proj2 (fetchNextFeedIndex_gives_up
                     (Example.world Example.unreachable
                        (Example.respond 500 [] JS.VUndefined))
                     Example.K "https://bzz.sh" None) _ eq_refl)
    as (Ht & _ & Hrefused).
  split.
  - exact (f_equal (@List.length Event) Ht).
  - apply (Hrefused _ eq_refl); discriminate.
Defined.

(** X6.  [fetchBatchDepth] reads the contract exactly once, at the
    PostageStamp address, with the batch id under one [0x]: a batch id is
    asked the same way with the prefix and without.  It answers [null] when
    the read failed and only then; a depth a [uint8] can hold, 0 included,
    is returned as that number. *)
Theorem fetchBatchDepth_outcome (w : World) (batchId : string) (rpcUrl : option string) :
  let url := default Swarm.FETCH_BATCH_DEPTH_DEFAULT_RPC rpcUrl in
  let read := readContract w url Swarm.POSTAGE_STAMP_ADDRESS "batchDepth"
                [prefixed batchId] in
  let call := Swarm.fetchBatchDepth w batchId rpcUrl in
  trace call = [ReadContract url Swarm.POSTAGE_STAMP_ADDRESS "batchDepth"
                  [prefixed batchId]] /\
  Swarm.fetchBatchDepth w (prefixed batchId) rpcUrl = call /\
  (completion call = Normal JS.VNull <-> exists e, read = Throw e) /\
  (forall depth, read = Normal depth -> 0 <= depth <= 255 ->
                 completion call = Normal (JS.VNumber (JS.Int depth))).
Proof.
  intros url read call. subst call.
  assert (Hp : prefixed (prefixed batchId) = prefixed batchId).
  { unfold prefixed. destruct (String.prefix "0x" batchId) eqn:H; [now rewrite H |].
    change ("0x" ++ batchId) with (String "0" (String "x" batchId)).
    replace (String.prefix "0x" (String "0" (String "x" batchId))) with true;
      [reflexivity |].
    symmetry. apply String.prefix_correct. destruct batchId; reflexivity. }
  split; [apply fetchBatchDepth_trace | split; [| split]].
  - unfold Swarm.fetchBatchDepth. fold (prefixed (prefixed batchId)).
    fold (prefixed batchId). rewrite Hp. reflexivity.
  - rewrite fetchBatchDepth_completion. fold (prefixed batchId). fold url.
    change Swarm.BATCH_DEPTH_FUNCTION with "batchDepth". fold read.
    destruct read as [depth | e]; split.
    + discriminate.
    + intros [e He]. discriminate He.
    + intros _. now exists e.
    + reflexivity.
  - intros depth Hread Hrange.
    rewrite fetchBatchDepth_completion. fold (prefixed batchId). fold url.
    change Swarm.BATCH_DEPTH_FUNCTION with "batchDepth". fold read. rewrite Hread.
    unfold JS.number_of_Z.
    replace (Z.abs depth <=? JS.MAX_SAFE_INTEGER) with true; [reflexivity |].
    symmetry. apply Z.leb_le. unfold JS.MAX_SAFE_INTEGER. lia.
Qed.

(** The chain reports depth 0 for the batch: the answer is 0, not [null]. *)
Lemma fetchBatchDepth_outcome_witness :
  completion (Swarm.fetchBatchDepth
                (Example.world (Normal 0) (fun _ => NoResponse)) Example.BATCH None)
  = Normal (JS.VNumber (JS.Int 0)).
Proof.
  apply (proj2 (proj2 (proj2 (fetchBatchDepth_outcome
           (Example.world (Normal 0) (fun _ => NoResponse)) Example.BATCH None)))
           0 eq_refl).
  lia.
Defined.

(** ** What a run shows, and how it leaves *)

Section Work.

Context {A B : Type}.
Variable P : Event -> bool.

Lemma work_bind (m : M A) (k : A -> M B) :
  forallb P (trace m) = true ->
  (forall a, forallb P (trace (k a)) = true) ->
  forallb P (trace (Eff.bind m k)) = true.
Proof.
  intros Hm Hk. rewrite trace_bind, forallb_app, Hm.
  destruct (completion m); [apply Hk | reflexivity].
Qed.

Lemma work_try (m : M A) (handler : Exception -> M A) :
  forallb P (trace m) = true ->
  (forall e, forallb P (trace (handler e)) = true) ->
  forallb P (trace (try_catch m handler)) = true.
Proof.
  intros Hm Hh. rewrite trace_try_catch, forallb_app, Hm.
  destruct (completion m); [reflexivity | apply Hh].
Qed.

End Work.

Lemma work_when (P : Event -> bool) (c : bool) (m : M unit) :
  forallb P (trace m) = true -> forallb P (trace (when c m)) = true.
Proof. destruct c; [trivial | reflexivity]. Qed.

Lemma forallb_weaken (P Q : Event -> bool) (t : list Event) :
  (forall ev, P ev = true -> Q ev = true) ->
  forallb P t = true -> forallb Q t = true.
Proof.
  intros H. induction t as [| ev t IH]; [reflexivity |].
  cbn [forallb]. intros Ht. apply andb_prop in Ht as [Hev Ht].
  now rewrite (H ev Hev), (IH Ht).
Qed.

Lemma console_logs_app (s t : list Event) :
  console_logs (s ++ t) = (console_logs s ++ console_logs t)%list.
Proof. apply flat_map_app. Qed.

Lemma at_work_projections (quiet : bool) (t : list Event) :
  forallb (at_work quiet) t = true ->
  console_logs t = [] /\ Trace.errors t = [] /\
  forallb (fun ev => negb (is_exit ev)) t = true /\
  (quiet = true -> forallb (fun ev => negb (is_spinner ev)) t = true).
Proof.
  induction t as [| ev t IH]; intros H; [repeat split |].
  cbn [forallb] in H. apply andb_prop in H as [Hev Ht].
  destruct (IH Ht) as (H1 & H2 & H3 & H4).
  destruct ev; try discriminate Hev;
    cbn [console_logs Trace.errors flat_map forallb is_exit is_spinner negb andb app];
    (repeat split; try assumption);
    intros ->; try discriminate Hev; auto.
Qed.

(** Go through a computation, block by block. *)
Ltac work :=
  repeat first
    [ reflexivity
    | assumption
    | apply work_bind; [| intros ?]
    | apply work_when
    | apply work_try; [| intros ?]
    | match goal with
      | |- forallb _ (trace (if ?c then _ else _)) = true => destruct c
      | |- forallb _ (trace (match ?c with _ => _ end)) = true => destruct c
      end ].

Section Blocks.

Import Swarm Cli.

Variables (w : World) (quiet : bool).

Lemma fetchBatchDepth_work (batchId : string) (rpcUrl : option string) :
  forallb (at_work quiet) (trace (fetchBatchDepth w batchId rpcUrl)) = true.
Proof. rewrite fetchBatchDepth_trace. reflexivity. Qed.

Lemma fetchNextFeedIndex_work (key gatewayUrl : string) (topic : option (list byte)) :
  forallb (at_work quiet) (trace (fetchNextFeedIndex w key gatewayUrl topic)) = true.
Proof.
  rewrite fetchNextFeedIndex_trace.
  destruct (Crypto.getAddressFromPrivateKey w key); reflexivity.
Qed.

Lemma updateFeed_work (options : gmap string JS.Value) :
  forallb (at_work quiet) (trace (Feed.updateFeed w options)) = true.
Proof. unfold Feed.updateFeed. work. Qed.

Lemma pathsToFiles_work (filePaths : list string) (basePath : string) :
  forallb (at_work quiet) (trace (Upload.pathsToFiles w filePaths basePath)) = true.
Proof.
  induction filePaths as [| filePath more IH]; [reflexivity |].
  cbn [Upload.pathsToFiles]. work.
Qed.

End Blocks.

Section UploadWork.

Import Swarm Cli.

Variables (w : World) (o : Upload.Options).

Lemma upload_files_work (uploadPath : string) :
  forallb (at_work (Upload.quiet o)) (trace (Upload.files_block w uploadPath o)) = true.
Proof.
  unfold Upload.files_block.
  destruct (Upload.quiet o); cbn [negb];
    work; apply pathsToFiles_work.
Qed.

Lemma upload_depth_work :
  forallb (at_work (Upload.quiet o)) (trace (Upload.depth_block w o)) = true.
Proof.
  unfold Upload.depth_block.
  destruct (Upload.quiet o); cbn [negb];
    (destruct (given (Upload.depth o)); [reflexivity |]);
    (apply work_bind; [reflexivity | intros _]);
    (apply work_bind; [apply fetchBatchDepth_work | intros fetched]);
    work.
Qed.

Lemma upload_feed_work (result : UploadResult) (depth : JS.Value) :
  forallb (at_work (Upload.quiet o)) (trace (Upload.feed_block w o result depth)) = true.
Proof.
  unfold Upload.feed_block, Upload.keys_block, Upload.index_block.
  destruct (Upload.quiet o); cbn [negb];
    repeat first
      [ apply fetchNextFeedIndex_work
      | apply updateFeed_work
      | reflexivity
      | apply work_bind; [| intros ?]
      | apply work_when
      | match goal with
        | |- forallb _ (trace (if ?c then _ else _)) = true => destruct c
        end ].
Qed.

End UploadWork.

Section Shape.

Context {A R : Type}.
Variables (quiet : bool) (ok : R -> Prop) (rep : R -> M unit).

Lemma shape_bind (m : M A) (k : A -> M unit) :
  forallb (at_work quiet) (trace m) = true ->
  (forall a, completion m = Normal a -> works_then_reports quiet ok rep (k a)) ->
  works_then_reports quiet ok rep (Eff.bind m k).
Proof.
  destruct m as [t [a | e]]; cbn [trace completion fst snd]; intros Ht Hk.
  - destruct (Hk a eq_refl) as (before & Hb & [(e & He) | (r & Hr & He)]);
      exists (t ++ before)%list; (split; [now rewrite forallb_app, Ht, Hb |]).
    + left. exists e. cbn [Eff.bind]. now rewrite He.
    + right. exists r. split; [exact Hr |]. cbn [Eff.bind].
      now rewrite He, app_assoc.
  - exists t. split; [exact Ht |]. left. now exists e.
Qed.

Lemma shape_report (r : R) : ok r -> works_then_reports quiet ok rep (rep r).
Proof.
  intros Hr. exists []. split; [reflexivity |]. right. exists r.
  split; [exact Hr |]. now destruct (rep r).
Qed.

End Shape.

Section UploadShape.

Import Swarm Cli.

Variables (w : World) (uploadPath : string) (o : Upload.Options).

Lemma upload_report_logs (result : UploadResult) :
  completion (Upload.report o result) = Normal tt /\
  Trace.errors (trace (Upload.report o result)) = [] /\
  forallb (fun ev => negb (is_exit ev) && negb (is_spinner ev))
          (trace (Upload.report o result)) = true /\
  (Upload.quiet o = true ->
   console_logs (trace (Upload.report o result))
   = [if given (Upload.output o) && String.eqb (default "" (Upload.output o)) "json"
      then [Lit "reference"; Lit (reference result); Lit "url"; Lit (url result);
            Lit "cid"; Lit (cid result)]
      else [Lit (reference result)]]).
Proof.
  unfold Upload.report.
  destruct (given (Upload.output o) && _); [repeat split |].
  destruct (Upload.quiet o); repeat split. discriminate.
Qed.

(** The [try] of [upload]: work, then the report of what the upload
    returned. *)
Lemma upload_try_shape :
  works_then_reports (Upload.quiet o)
    (fun result =>
       exists config files,
         uploadFiles w config files (Upload.indexDocument o) (Upload.spa o)
         = Normal result)
    (Upload.report o) (Upload.upload_try w uploadPath o).
Proof.
  unfold Upload.upload_try.
  apply shape_bind; [rewrite upload_validate; reflexivity | intros _ _].
  apply shape_bind; [apply upload_files_work | intros files _].
  apply shape_bind; [apply upload_depth_work | intros depth _].
  apply shape_bind; [reflexivity | intros _ _].
  apply shape_bind; [destruct (Upload.quiet o); reflexivity | intros _ _].
  apply shape_bind; [reflexivity | intros _ _].
  apply shape_bind; [reflexivity | intros result Hresult].
  apply shape_bind; [apply work_when, upload_feed_work | intros _ _].
  apply shape_report. now exists (Upload.config_of w o depth), files.
Qed.

(** What the [catch] of [upload] adds to a run. *)
Lemma upload_catch (e : Exception) (t : list Event) :
  let run := trace (Upload.upload_action w uploadPath o) in
  Upload.upload_try w uploadPath o = (t, Throw e) ->
  exists (shown : list Event) (more : list (list Text)),
    run = ((if Upload.quiet o then [] else [SpinnerStart (Lit "Preparing upload...")])
           ++ t ++ shown ++ [ProcessExit 1])%list /\
    forallb (fun ev => negb (is_exit ev)) shown = true /\
    console_logs shown = [] /\
    Trace.errors shown = [Lit "Error:"; error_message e] :: more /\
    (Upload.quiet o = true -> forallb (fun ev => negb (is_spinner ev)) shown = true) /\
    forallb (fun ev => negb (is_network ev) && negb (touches_files ev)) shown = true /\
    (Upload.verbose o = false -> more = []).
Proof.
  intros run Htry. subst run.
  destruct (verbose_error_details_shown e) as [_ Hshown].
  set (details := if Upload.verbose o then trace (Upload.verbose_error_details e)
                  else []).
  assert (Hdetails : forallb (fun ev => match ev with ConsoleError _ => true
                                                   | _ => false end) details = true).
  { subst details. now destruct (Upload.verbose o). }
  assert (Hall : forall P : Event -> bool,
             (forall items, P (ConsoleError items) = true) ->
             forallb P details = true).
  { intros P HP. eapply forallb_weaken; [| exact Hdetails].
    intros ev Hev. destruct ev; try discriminate Hev. apply HP. }
  exists ((if Upload.quiet o then [] else [SpinnerFail (Lit "Upload failed")])
          ++ ConsoleError [Lit "Error:"; error_message e] :: details)%list.
  exists (Trace.errors details).
  assert (Hrun : trace (Upload.upload_action w uploadPath o)
    = ((if Upload.quiet o then [] else [SpinnerStart (Lit "Preparing upload...")])
       ++ t
       ++ ((if Upload.quiet o then [] else [SpinnerFail (Lit "Upload failed")])
           ++ ConsoleError [Lit "Error:"; error_message e] :: details)
       ++ [ProcessExit 1])%list).
  { unfold Upload.upload_action. rewrite Htry. cbn [try_catch].
    rewrite upload_catch_trace. fold details.
    destruct (Upload.quiet o); cbn; rewrite <- ?app_assoc; reflexivity. }
  assert (Hlogs : console_logs details = []).
  { clear - Hdetails. induction details as [| ev d IH]; [reflexivity |].
    cbn [forallb] in Hdetails. apply andb_prop in Hdetails as [Hev Hd].
    destruct ev; try discriminate Hev. cbn [console_logs flat_map app].
    exact (IH Hd). }
  split; [exact Hrun |].
  repeat split.
  - rewrite forallb_app. cbn [forallb is_exit negb andb].
    rewrite (Hall _ (fun _ => eq_refl)). now destruct (Upload.quiet o).
  - rewrite console_logs_app. cbn [console_logs flat_map app].
    fold (console_logs details). rewrite Hlogs. now destruct (Upload.quiet o).
  - rewrite errors_app. cbn [Trace.errors flat_map app].
    now destruct (Upload.quiet o).
  - intros ->. cbn [app forallb is_spinner negb andb].
    apply (Hall _ (fun _ => eq_refl)).
  - rewrite forallb_app. cbn [forallb is_network touches_files negb andb].
    rewrite (Hall _ (fun _ => eq_refl)). now destruct (Upload.quiet o).
  - intros Hv. subst details. now rewrite Hv.
Qed.

Lemma upload_done (t : list Event) :
  Upload.upload_try w uploadPath o = (t, Normal tt) ->
  trace (Upload.upload_action w uploadPath o)
  = ((if Upload.quiet o then [] else [SpinnerStart (Lit "Preparing upload...")]) ++ t)%list.
Proof.
  intros Htry. unfold Upload.upload_action. rewrite Htry.
  destruct (Upload.quiet o); cbn; now rewrite ?app_nil_r.
Qed.

End UploadShape.

Section FeedShape.

Import Swarm Cli.

Variables (w : World) (o : Feed.Options).

Lemma feed_keys_work :
  forallb (at_work (Feed.quiet o)) (trace (Feed.keys_block w o)) = true.
Proof. unfold Feed.keys_block. destruct (Feed.quiet o); cbn [negb]; work. Qed.

Lemma feed_depth_work :
  forallb (at_work (Feed.quiet o)) (trace (Feed.depth_block w o)) = true.
Proof.
  unfold Feed.depth_block.
  destruct (Feed.quiet o); cbn [negb];
    (destruct (given (Feed.depth o)); [reflexivity |]);
    (apply work_bind; [reflexivity | intros _]);
    (apply work_bind; [apply fetchBatchDepth_work | intros fetched]);
    work.
Qed.

Lemma feed_index_work (feedOwnerKey : string) (topic : list byte) :
  forallb (at_work (Feed.quiet o)) (trace (Feed.index_block w o feedOwnerKey topic)) = true.
Proof.
  unfold Feed.index_block.
  destruct (Feed.quiet o); cbn [negb];
    (destruct (given (Feed.index o)); [reflexivity |]);
    (apply work_bind; [reflexivity | intros _]);
    (apply work_bind; [apply fetchNextFeedIndex_work | intros fetched]);
    work.
Qed.

Lemma feed_report_logs (feedOwnerKey : string) (index : JS.Value) :
  let report := Feed.report w o feedOwnerKey index in
  Trace.errors (trace report) = [] /\
  forallb (fun ev => negb (is_exit ev)) (trace report) = true /\
  (Feed.quiet o = true ->
   report = ([ConsoleLog [Lit "success"]], Normal tt)) /\
  (Feed.quiet o = false ->
   completion report
   = match Crypto.getAddressFromPrivateKey w feedOwnerKey with
     | Normal _ => Normal tt
     | Throw e => Throw e
     end).
Proof.
  unfold Feed.report.
  destruct (Feed.quiet o); [repeat split; discriminate |].
  destruct (Crypto.getAddressFromPrivateKey w feedOwnerKey);
    [destruct (given (Feed.project o)) |]; repeat split; discriminate.
Qed.

(** The [try] of [feed update]: work that ends with the write, then the
    report. *)
Lemma feed_try_shape :
  works_then_reports (Feed.quiet o)
    (fun r : string * JS.Value =>
       exists signer depth,
         writeFeedUpdate w (Feed.request_of w o signer (snd r) depth) = Normal tt)
    (fun r => Feed.report w o (fst r) (snd r)) (Feed.update_try w o).
Proof.
  unfold Feed.update_try.
  apply shape_bind; [rewrite feed_validate; reflexivity | intros _ _].
  apply shape_bind; [apply feed_keys_work | intros keys _].
  apply shape_bind; [apply feed_depth_work | intros depth _].
  apply shape_bind; [apply feed_index_work | intros index _].
  apply shape_bind; [destruct (Feed.quiet o); reflexivity | intros _ _].
  apply shape_bind; [reflexivity | intros _ _].
  apply shape_bind; [reflexivity | intros [] Hwrite].
  apply (shape_report _ _ (fun r => Feed.report w o (fst r) (snd r)) (snd keys, index)).
  now exists (fst keys), depth.
Qed.

Lemma feed_try_events :
  Trace.errors (trace (Feed.update_try w o)) = [] /\
  forallb (fun ev => negb (is_exit ev)) (trace (Feed.update_try w o)) = true.
Proof.
  destruct feed_try_shape as (before & Hb & [(e & ->) | (r & _ & ->)]);
    destruct (at_work_projections _ _ Hb) as (_ & He & Hx & _);
    cbn [trace fst]; [now split |].
  destruct (feed_report_logs (fst r) (snd r)) as (Re & Rx & _).
  rewrite errors_app, forallb_app, He, Hx, Re, Rx. now split.
Qed.

(** What the [catch] of [feed update] adds to a run. *)
Lemma feed_catch (e : Exception) (t : list Event) :
  Feed.update_try w o = (t, Throw e) ->
  trace (Feed.update_action w o)
  = ((if Feed.quiet o then [] else [SpinnerStart (Lit "Updating feed...")])
     ++ t
     ++ (if Feed.quiet o then [] else [SpinnerFail (Lit "Feed update failed")])
     ++ [ConsoleError [Lit "Error:"; error_message e]; ProcessExit 1])%list.
Proof.
  intros Htry. unfold Feed.update_action. rewrite Htry.
  destruct (Feed.quiet o); cbn; rewrite <- ?app_assoc; reflexivity.
Qed.

Lemma feed_done (t : list Event) :
  Feed.update_try w o = (t, Normal tt) ->
  trace (Feed.update_action w o)
  = ((if Feed.quiet o then [] else [SpinnerStart (Lit "Updating feed...")]) ++ t)%list.
Proof.
  intros Htry. unfold Feed.update_action. rewrite Htry.
  destruct (Feed.quiet o); cbn; now rewrite ?app_nil_r.
Qed.

End FeedShape.

(** X7.  Under [--quiet] neither command touches the spinner, and a run
    prints at most one line with [console.log]: [upload] prints the
    reference of what it uploaded (the JSON object under [--output json]),
    [feed update] prints [success]; a run that failed prints none. *)
Theorem quiet_run_prints_one_line (w : World) :
  (forall (uploadPath : string) (o : Upload.Options),
      Upload.quiet o = true ->
      let run := trace (Upload.upload_action w uploadPath o) in
      forallb (fun ev => negb (is_spinner ev)) run = true /\
      match completion (Upload.upload_try w uploadPath o) with
      | Throw _ => console_logs run = []
      | Normal _ =>
          exists result,
            (exists config files,
                uploadFiles w config files (Upload.indexDocument o) (Upload.spa o)
                = Normal result) /\
            console_logs run
            = [if Cli.given (Upload.output o)
                  && String.eqb (default "" (Upload.output o)) "json"
               then [Lit "reference"; Lit (reference result); Lit "url";
                     Lit (url result); Lit "cid"; Lit (cid result)]
               else [Lit (reference result)]]
      end) /\
  (forall o : Feed.Options,
      Feed.quiet o = true ->
      let run := trace (Feed.update_action w o) in
      forallb (fun ev => negb (is_spinner ev)) run = true /\
      console_logs run
      = match completion (Feed.update_try w o) with
        | Normal _ => [[Lit "success"]]
        | Throw _ => []
        end).
Proof.
  split.
  - intros uploadPath o Hq run. subst run.
    destruct (upload_try_shape w uploadPath o)
      as (before & Hb & [(e & Htry) | (result & Hok & Htry)]);
      destruct (at_work_projections _ _ Hb) as (Hl & _ & _ & Hs);
      specialize (Hs Hq).
    + destruct (upload_catch w uploadPath o e before Htry)
        as (shown & more & -> & _ & Sl & _ & Ss & _ & _).
      rewrite Htry, Hq. cbn [completion snd app].
      rewrite !forallb_app, !console_logs_app, Hs, Hl, Sl, (Ss Hq). now split.
    + destruct (upload_report_logs o result) as (Rc & _ & Rs & Rl).
      rewrite Rc in Htry. rewrite (upload_done w uploadPath o _ Htry), Htry, Hq.
      cbn [completion snd app].
      rewrite forallb_app, console_logs_app, Hs, Hl, (Rl Hq). split.
      * eapply forallb_weaken; [| exact Rs].
        intros ev Hev. now apply andb_prop in Hev as [_ Hev].
      * now exists result.
  - intros o Hq run. subst run.
    destruct (feed_try_shape w o) as (before & Hb & [(e & Htry) | (r & _ & Htry)]);
      destruct (at_work_projections _ _ Hb) as (Hl & _ & _ & Hs);
      specialize (Hs Hq).
    + rewrite (feed_catch w o e before Htry), Htry, Hq. cbn [completion snd app].
      rewrite !forallb_app, !console_logs_app, Hs, Hl. now split.
    + destruct (feed_report_logs w o (fst r) (snd r)) as (_ & _ & Rq & _).
      rewrite (Rq Hq) in Htry. cbn [trace completion fst snd] in Htry.
      rewrite (feed_done w o _ Htry), Htry, Hq. cbn [completion snd app].
      rewrite forallb_app, console_logs_app, Hs, Hl. now split.
Qed.

(** X8.  How a run of [upload] leaves.  When nothing in the [try] throws,
    nothing is written with [console.error] and the process is not ended.
    When something throws, [Error:] and the message come first on
    [console.error], and alone without [--verbose]; nothing was written with
    [console.log], and the run ends with [process.exit(1)], the only exit of
    the run. *)
Theorem upload_exit_code (w : World) (uploadPath : string) (o : Upload.Options) :
  let run := trace (Upload.upload_action w uploadPath o) in
  match completion (Upload.upload_try w uploadPath o) with
  | Normal _ =>
      Trace.errors run = [] /\ forallb (fun ev => negb (is_exit ev)) run = true
  | Throw e =>
      console_logs run = [] /\
      (exists more,
          Trace.errors run = [Lit "Error:"; Cli.error_message e] :: more /\
          (Upload.verbose o = false -> more = [])) /\
      exists before,
        run = (before ++ [ProcessExit 1])%list /\
        forallb (fun ev => negb (is_exit ev)) before = true
  end.
Proof.
  intros run. subst run.
  destruct (upload_try_shape w uploadPath o)
    as (before & Hb & [(e & Htry) | (result & Hok & Htry)]);
    destruct (at_work_projections _ _ Hb) as (Hl & He & Hx & _).
  - destruct (upload_catch w uploadPath o e before Htry)
      as (shown & more & -> & Sx & Sl & Se & _ & _ & Sv).
    rewrite Htry. cbn [completion snd]. split; [| split].
    + rewrite !console_logs_app, Hl, Sl. now destruct (Upload.quiet o).
    + exists more. split; [| exact Sv]. rewrite !errors_app, He, Se.
      destruct (Upload.quiet o); cbn; now rewrite app_nil_r.
    + exists ((if Upload.quiet o then []
               else [SpinnerStart (Lit "Preparing upload...")]) ++ before ++ shown)%list.
      split; [now rewrite <- !app_assoc |].
      rewrite !forallb_app, Hx, Sx. now destruct (Upload.quiet o).
  - destruct (upload_report_logs o result) as (Rc & Re & Rx & _).
    rewrite Rc in Htry. rewrite (upload_done w uploadPath o _ Htry), Htry.
    cbn [completion snd].
    rewrite !errors_app, !forallb_app, He, Hx, Re.
    split; [now destruct (Upload.quiet o) |].
    replace (forallb (fun ev => negb (is_exit ev)) (trace (Upload.report o result)))
      with true; [now destruct (Upload.quiet o) |].
    symmetry. eapply forallb_weaken; [| exact Rx].
    intros ev Hev. now apply andb_prop in Hev as [Hev _].
Qed.

(** X9.  How a run of [feed update] leaves.  When nothing in the [try]
    throws, nothing is written with [console.error] and the process is not
    ended.  When something throws, the one line on [console.error] is
    [Error:] and the message, and the run ends with [process.exit(1)], the
    only exit of the run; unless the run is quiet the spinner shows
    [Feed update failed]. *)
Theorem feed_exit_code (w : World) (o : Feed.Options) :
  let run := trace (Feed.update_action w o) in
  match completion (Feed.update_try w o) with
  | Normal _ =>
      Trace.errors run = [] /\ forallb (fun ev => negb (is_exit ev)) run = true
  | Throw e =>
      Trace.errors run = [[Lit "Error:"; Cli.error_message e]] /\
      (Feed.quiet o = false -> In (SpinnerFail (Lit "Feed update failed")) run) /\
      exists before,
        run = (before ++ [ProcessExit 1])%list /\
        forallb (fun ev => negb (is_exit ev)) before = true
  end.
Proof.
  intros run. subst run.
  destruct (feed_try_events w o) as [He Hx].
  destruct (Feed.update_try w o) as [t [[] | e]] eqn:Htry;
    cbn [trace completion fst snd] in *.
  - rewrite (feed_done w o t Htry), errors_app, forallb_app, He, Hx.
    now destruct (Feed.quiet o).
  - rewrite (feed_catch w o e t Htry). split; [| split].
    + rewrite !errors_app, He. now destruct (Feed.quiet o).
    + intros ->. apply in_or_app. right. apply in_or_app. right. now left.
    + exists ((if Feed.quiet o then [] else [SpinnerStart (Lit "Updating feed...")])
              ++ t
              ++ (if Feed.quiet o then []
                  else [SpinnerFail (Lit "Feed update failed")])
              ++ [ConsoleError [Lit "Error:"; Cli.error_message e]])%list.
      split; [now rewrite <- !app_assoc |].
      rewrite !forallb_app, Hx. now destruct (Feed.quiet o).
Qed.

(** ** What is checked first, and what is read *)

(** X10.  [upload] checks the batch id, then the key, before anything else:
    when one of them is not 64 hexadecimal digits (with [0x] or without),
    the run reaches neither the network nor the file system, the error
    shown names the first of the two that is malformed, and the process
    leaves with code 1. *)
Theorem upload_rejects_malformed_input (w : World) (uploadPath : string)
    (o : Upload.Options) :
  Cli.matches_hex64 (Upload.batchId o) && Cli.matches_hex64 (Upload.key o) = false ->
  let run := trace (Upload.upload_action w uploadPath o) in
  Trace.network run = [] /\
  forallb (fun ev => negb (touches_files ev)) run = true /\
  (exists more,
      Trace.errors run
      = [Lit "Error:";
         Lit (if Cli.matches_hex64 (Upload.batchId o)
              then "Invalid key format (expected 64 hex characters)"
              else "Invalid batch ID format (expected 64 hex characters)")] :: more) /\
  In (ProcessExit 1) run.
Proof.
  intros H run. subst run. unfold Upload.upload_action, Upload.upload_try.
  rewrite upload_validate.
  destruct (Cli.matches_hex64 (Upload.batchId o)), (Cli.matches_hex64 (Upload.key o));
    try discriminate H;
    destruct (Upload.quiet o), (Upload.verbose o); cbn;
    (repeat split; [eexists; reflexivity | intuition]).
Qed.

Lemma upload_rejects_malformed_input_witness :
  Trace.network (trace (Upload.upload_action
                          (Example.world Example.unreachable (fun _ => NoResponse))
                          "site" Cases.short_key_upload_options)) = [].
Proof.
  exact (proj1 (upload_rejects_malformed_input
                  (Example.world Example.unreachable (fun _ => NoResponse))
                  "site" Cases.short_key_upload_options eq_refl)).
Defined.

(** X11.  [feed update] checks the reference, then the key, then that a
    batch id was given, before anything else: when one check fails nothing
    reaches the network, the one error shown is that of the first check
    that failed, and the process leaves with code 1. *)
Theorem feed_rejects_malformed_input (w : World) (o : Feed.Options) :
  Cli.matches_hex64 (Feed.reference o) && Cli.matches_hex64 (Feed.key o)
    && Cli.given (Feed.batchId o) = false ->
  let run := trace (Feed.update_action w o) in
  Trace.network run = [] /\
  Trace.errors run
  = [[Lit "Error:";
      Lit (if negb (Cli.matches_hex64 (Feed.reference o))
           then "Invalid reference format (expected 64 hex characters)"
           else if negb (Cli.matches_hex64 (Feed.key o))
           then "Invalid key format (expected 64 hex characters)"
           else "--batch-id is required for feed updates")]] /\
  In (ProcessExit 1) run.
Proof.
  intros H run. subst run. unfold Feed.update_action, Feed.update_try.
  rewrite feed_validate.
  destruct (Cli.matches_hex64 (Feed.reference o)), (Cli.matches_hex64 (Feed.key o)),
    (Cli.given (Feed.batchId o));
    try discriminate H;
    destruct (Feed.quiet o); cbn; intuition.
Qed.

Lemma feed_rejects_malformed_input_witness :
  Trace.errors (trace (Feed.update_action
                         (Example.world Example.unreachable (fun _ => NoResponse))
                         Cases.no_batch_feed_options))
  = [[Lit "Error:"; Lit "--batch-id is required for feed updates"]].
Proof.
  exact (proj1 (proj2 (feed_rejects_malformed_input
                         (Example.world Example.unreachable (fun _ => NoResponse))
                         Cases.no_batch_feed_options eq_refl))).
Defined.

Section Reads.

Variables (w : World) (basePath : string).

Lemma pathsToFiles_all_read (filePaths : list string) (contents : list (list byte)) :
  Forall2 (fun p d => readFile w (path_resolve w p) = Normal d) filePaths contents ->
  Upload.pathsToFiles w filePaths basePath
  = (map (fun p => ReadFile (path_resolve w p)) filePaths,
     Normal (map (fun pd : string * list byte =>
                    {| file_name := path_relative w basePath (path_resolve w (fst pd));
                       file_data := snd pd |})
                 (combine filePaths contents))).
Proof.
  intros H. induction H as [| p d ps ds Hp _ IH]; [reflexivity |].
  cbn [Upload.pathsToFiles]. rewrite Hp, IH. cbn. now rewrite app_nil_r.
Qed.

Lemma pathsToFiles_first_failure (before : list string) (contents : list (list byte))
    (filePath : string) (after : list string) (e : Exception) :
  Forall2 (fun p d => readFile w (path_resolve w p) = Normal d) before contents ->
  readFile w (path_resolve w filePath) = Throw e ->
  Upload.pathsToFiles w (before ++ filePath :: after) basePath
  = (map (fun p => ReadFile (path_resolve w p)) (before ++ [filePath]), Throw e).
Proof.
  intros H He. induction H as [| p d ps ds Hp _ IH].
  - cbn [app Upload.pathsToFiles]. rewrite He. reflexivity.
  - cbn [app Upload.pathsToFiles]. rewrite Hp, IH. reflexivity.
Qed.

End Reads.

(** X12.  [pathsToFiles] reads the files in the order of the paths.  When
    every read succeeds it returns one file for each path, in that order,
    named by the path relative to the base and holding what was read.  When
    a read fails, the paths after it are not read and the failure is the
    one thrown. *)
Theorem pathsToFiles_spec (w : World) (basePath : string) :
  let read p := ReadFile (path_resolve w p) in
  let file_of (pd : string * list byte) :=
    {| file_name := path_relative w basePath (path_resolve w (fst pd));
       file_data := snd pd |} in
  let reads_as p d := readFile w (path_resolve w p) = Normal d in
  (forall (filePaths : list string) (contents : list (list byte)),
      Forall2 reads_as filePaths contents ->
      Upload.pathsToFiles w filePaths basePath
      = (map read filePaths, Normal (map file_of (combine filePaths contents)))) /\
  (forall (before : list string) (contents : list (list byte))
          (filePath : string) (after : list string) (e : Exception),
      Forall2 reads_as before contents ->
      readFile w (path_resolve w filePath) = Throw e ->
      Upload.pathsToFiles w (before ++ filePath :: after) basePath
      = (map read (before ++ [filePath]), Throw e)).
Proof.
  intros read file_of reads_as. split.
  - apply pathsToFiles_all_read.
  - apply pathsToFiles_first_failure.
Qed.

(** The second of three files cannot be read: two reads, and the failure. *)
Lemma pathsToFiles_spec_witness :
  Upload.pathsToFiles
    (Cases.directory_world []
       (fun p => if String.eqb p "b" then Throw (LibraryError "EACCES") else Normal []))
    ["a"; "b"; "c"] "."
  = ([ReadFile "a"; ReadFile "b"], Throw (LibraryError "EACCES")).
Proof.
  apply (proj2 (pathsToFiles_spec
                  (Cases.directory_world []
                     (fun p => if String.eqb p "b" then Throw (LibraryError "EACCES")
                               else Normal []))
                  ".") ["a"] [[]] "b" ["c"] (LibraryError "EACCES")).
  - repeat constructor.
  - reflexivity.
Defined.

Lemma network_none (t : list Event) :
  forallb (fun ev => negb (is_network ev)) t = true -> Trace.network t = [].
Proof.
  induction t as [| ev t IH]; [reflexivity |]. cbn [forallb]. intros H.
  apply andb_prop in H as [Hev Ht]. rewrite network_cons, (IH Ht).
  now destruct (is_network ev).
Qed.

Section UploadUnread.

Import Swarm Cli.

Variables (w : World) (uploadPath : string) (o : Upload.Options).

(** A run of [upload] that cannot read what it was given. *)
Lemma upload_unread (e : Exception) :
  completion (Upload.validate o) = Normal tt ->
  completion (Upload.files_block w uploadPath o) = Throw e ->
  let run := trace (Upload.upload_action w uploadPath o) in
  Trace.network run = [] /\
  (exists more, Trace.errors run = [Lit "Error:"; error_message e] :: more) /\
  In (ProcessExit 1) run.
Proof.
  intros Hval Hfiles run.
  pose proof (upload_files_block w uploadPath o) as Ft.
  destruct (unremarkable_projections _ Ft) as (Fn & _ & _ & _ & _ & _ & Fe).
  assert (Htry : Upload.upload_try w uploadPath o
                 = (trace (Upload.files_block w uploadPath o), Throw e)).
  { unfold Upload.upload_try. rewrite upload_validate in Hval |- *.
    cbn [completion snd] in Hval.
    destruct (negb (matches_hex64 (Upload.batchId o))); [discriminate Hval |].
    destruct (negb (matches_hex64 (Upload.key o))); [discriminate Hval |].
    destruct (Upload.files_block w uploadPath o) as [t [files | e']];
      cbn [completion snd] in Hfiles; [discriminate Hfiles |].
    injection Hfiles as ->. reflexivity. }
  destruct (upload_catch w uploadPath o e _ Htry)
    as (shown & more & Hrun & _ & _ & Se & _ & Sn & _).
  fold run in Hrun. rewrite Hrun. split; [| split].
  - rewrite !network_app, Fn.
    rewrite (network_none shown).
    + now destruct (Upload.quiet o).
    + eapply forallb_weaken; [| exact Sn].
      intros ev Hev. now apply andb_prop in Hev as [Hev _].
  - exists more. rewrite !errors_app, Fe, Se.
    destruct (Upload.quiet o); cbn; now rewrite app_nil_r.
  - rewrite !app_assoc. apply in_or_app. right. now left.
Qed.

End UploadUnread.

(** X13.  [upload] with nothing to read.  When the path cannot be
    inspected, when the directory cannot be listed, and when the directory
    holds no file (the error is then [No files found in directory]):
    nothing reaches the network, the error is shown and the process leaves
    with code 1. *)
Theorem upload_with_nothing_to_read (w : World) (uploadPath : string)
    (o : Upload.Options) :
  completion (Upload.validate o) = Normal tt ->
  let fullPath := path_resolve w uploadPath in
  let run := trace (Upload.upload_action w uploadPath o) in
  let fails_with (e : Exception) :=
    Trace.network run = [] /\
    (exists more, Trace.errors run = [Lit "Error:"; Cli.error_message e] :: more) /\
    In (ProcessExit 1) run in
  (forall e, stat_isDirectory w fullPath = Throw e -> fails_with e) /\
  (stat_isDirectory w fullPath = Normal true ->
   forall e, glob w (path_join w fullPath "**/*") = Throw e -> fails_with e) /\
  (stat_isDirectory w fullPath = Normal true ->
   glob w (path_join w fullPath "**/*") = Normal [] ->
   fails_with (Error "No files found in directory") /\
   Upload.files_block w uploadPath o
   = (FsStat fullPath
      :: (if Upload.quiet o then [] else [SpinnerText (Lit "Scanning directory...")])
      ++ [Glob (path_join w fullPath "**/*")],
      Throw (Error "No files found in directory"))).
Proof.
  intros Hval fullPath run fails_with.
  assert (Hfail : forall e,
             completion (Upload.files_block w uploadPath o) = Throw e -> fails_with e).
  { intros e He. exact (upload_unread w uploadPath o e Hval He). }
  split; [| split].
  - intros e Hstat. apply Hfail. unfold Upload.files_block. fold fullPath.
    rewrite Hstat. reflexivity.
  - intros Hstat e Hglob. apply Hfail. unfold Upload.files_block. fold fullPath.
    rewrite Hstat. step. rewrite Hglob. now destruct (Upload.quiet o).
  - intros Hstat Hglob.
    assert (Hblock : Upload.files_block w uploadPath o
      = (FsStat fullPath
         :: (if Upload.quiet o then [] else [SpinnerText (Lit "Scanning directory...")])
         ++ [Glob (path_join w fullPath "**/*")],
         Throw (Error "No files found in directory"))).
    { unfold Upload.files_block. fold fullPath.
      rewrite Hstat. step. rewrite Hglob. now destruct (Upload.quiet o). }
    split; [| exact Hblock]. apply Hfail. now rewrite Hblock.
Qed.

(** An empty directory. *)
Lemma upload_with_nothing_to_read_witness :
  let run :=
    trace (Upload.upload_action (Cases.directory_world [] (fun _ => Normal []))
             "site" Example.upload_options) in
  Trace.network run = [] /\
  (exists more,
      Trace.errors run
      = [Lit "Error:"; Lit "No files found in directory"] :: more) /\
  In (ProcessExit 1) run.
Proof.
  exact (proj1 (proj2 (proj2 (upload_with_nothing_to_read
                  (Cases.directory_world [] (fun _ => Normal []))
                  "site" Example.upload_options eq_refl)) eq_refl eq_refl)).
Defined.

(** X14.  [upload] leaves the feed alone unless it was asked for and the
    upload went through: without [--feed], and when the uploader cannot be
    created or the upload fails, no feed is looked up and none is written. *)
Theorem upload_leaves_feed_alone (w : World) (uploadPath : string)
    (o : Upload.Options) :
  let config := Upload.config_of w o (upload_depth w o) in
  let run := trace (Upload.upload_action w uploadPath o) in
  Upload.feed o = false \/
  (exists e, newStampedUploader w config = Throw e) \/
  (forall files, exists e,
      uploadFiles w config files (Upload.indexDocument o) (Upload.spa o) = Throw e) ->
  Trace.writes run = [] /\ Trace.http_gets run = [].
Proof.
  intros config run H.
  destruct (network_idempotent run) as (_ & Hg & Hw & _).
  rewrite <- Hg, <- Hw.
  assert (Hnone : Trace.network run = [] ->
                  Trace.writes (Trace.network run) = [] /\
                  Trace.http_gets (Trace.network run) = []).
  { intros ->. now split. }
  destruct (Cli.matches_hex64 (Upload.batchId o) && Cli.matches_hex64 (Upload.key o))
    eqn:Hm.
  2:{ apply Hnone. exact (proj1 (upload_validation_comes_first w uploadPath o Hm)). }
  assert (Hval : completion (Upload.validate o) = Normal tt).
  { rewrite upload_validate. apply andb_prop in Hm as [-> ->]. reflexivity. }
  destruct (completion (Upload.files_block w uploadPath o)) as [files | e] eqn:Hfiles.
  2:{ apply Hnone. exact (proj1 (upload_unread w uploadPath o e Hval Hfiles)). }
  destruct (upload_run w o uploadPath files Hval Hfiles) as [Hn _].
  fold run in Hn. fold config in Hn. rewrite Hn.
  assert (Hdepth : forall t : list Event,
    Trace.writes ((if Cli.given (Upload.depth o) then [] else [upload_depth_read o]) ++ t)
    = Trace.writes t /\
    Trace.http_gets ((if Cli.given (Upload.depth o) then [] else [upload_depth_read o]) ++ t)
    = Trace.http_gets t).
  { intros t. now destruct (Cli.given (Upload.depth o)). }
  destruct (Hdepth
    match newStampedUploader w config with
    | Normal _ =>
        UploadFiles config files (Upload.indexDocument o) (Upload.spa o)
        :: match uploadFiles w config files (Upload.indexDocument o) (Upload.spa o) with
           | Normal result =>
               if Upload.feed o
               then Trace.network (trace (Upload.feed_block w o result (upload_depth w o)))
               else []
           | Throw _ => []
           end
    | Throw _ => []
    end) as [-> ->].
  destruct H as [Hfeed | [[e He] | Hup]].
  - rewrite Hfeed.
    destruct (newStampedUploader w config); [| now split].
    destruct (uploadFiles w config files _ _); now split.
  - rewrite He. now split.
  - destruct (Hup files) as [e He]. rewrite He.
    destruct (newStampedUploader w config); now split.
Qed.

Lemma upload_leaves_feed_alone_witness :
  let run :=
    trace (Upload.upload_action
             (Example.world (Normal 21) (Example.respond 200 [] JS.VUndefined))
             "index.html" Cases.plain_upload_options) in
  Trace.writes run = [] /\ Trace.http_gets run = [].
Proof.
  exact (upload_leaves_feed_alone
           (Example.world (Normal 21) (Example.respond 200 [] JS.VUndefined))
           "index.html" Cases.plain_upload_options (or_introl eq_refl)).
Defined.

Section RejectedKey.

Import Swarm Cli.

Lemma fetchNextFeedIndex_rejected (w : World) (vaultPrivateKey gatewayUrl : string)
    (topic : option (list byte)) (e : Exception) :
  Crypto.getAddressFromPrivateKey w vaultPrivateKey = Throw e ->
  fetchNextFeedIndex w vaultPrivateKey gatewayUrl topic = ([], Normal JS.VNull).
Proof. intros He. unfold fetchNextFeedIndex. rewrite He. reflexivity. Qed.

(** How the [try] of a run of [feed update] ends once the inputs are
    accepted and the signer key is there: as the write does when it fails,
    as the report does otherwise. *)
Lemma feed_try_completion (w : World) (o : Feed.Options) (signer : string) :
  completion (Feed.validate o) = Normal tt ->
  signer_key w (Feed.key o) (Feed.project o) = Normal signer ->
  completion (Feed.update_try w o)
  = match writeFeedUpdate w
            (Feed.request_of w o
               (if given (Feed.project o) then JS.VString signer else JS.VUndefined)
               (feed_index w o signer) (feed_depth w o)) with
    | Normal _ => completion (Feed.report w o signer (feed_index w o signer))
    | Throw e => Throw e
    end.
Proof.
  intros Hval Hsigner.
  destruct (feed_keys_block w o) as [_ Hkeys_c]. rewrite Hsigner in Hkeys_c.
  destruct (feed_depth_block w o) as (fetchedDepth & Hfd & Hd_c & _).
  destruct (feed_index_block w o signer (Feed.topic_of o))
    as (fetchedIndex & Hfi & Hi_c & _).
  unfold feed_index, feed_depth, resolved_index, resolved_depth, returned.
  rewrite Hfd, Hfi.
  unfold Feed.update_try. run. rewrite Hval. run. rewrite Hkeys_c. run.
  rewrite Hd_c. run. rewrite Hi_c. run.
  cbn [fst snd].
  destruct (writeFeedUpdate w _); reflexivity.
Qed.

End RejectedKey.

(** X15.  [feed update] with a key the curve rejects, no project and no
    [--index].  The key is not looked at before the write: no feed is
    looked up, and the write is handed to the library at index 0.  Unless
    the run is quiet it then leaves with code 1 in any case; when the
    library carried out the write, the error shown is the curve's, raised
    by the display of the owner's address. *)
Theorem feed_update_with_rejected_key (w : World) (o : Feed.Options) (e : Exception) :
  completion (Feed.validate o) = Normal tt ->
  Cli.given (Feed.project o) = false ->
  Cli.given (Feed.index o) = false ->
  Crypto.getAddressFromPrivateKey w (Feed.key o) = Throw e ->
  let run := trace (Feed.update_action w o) in
  let request :=
    Feed.request_of w o JS.VUndefined (JS.VNumber (JS.Int 0)) (feed_depth w o) in
  Trace.http_gets run = [] /\
  Trace.writes run = [request] /\
  (Feed.quiet o = false ->
   In (ProcessExit 1) run /\
   (writeFeedUpdate w request = Normal tt ->
    Trace.errors run = [[Lit "Error:"; Cli.error_message e]])).
Proof.
  intros Hval Hproject Hindex Hkey run request.
  assert (Hsigner : signer_key w (Feed.key o) (Feed.project o) = Normal (Feed.key o)).
  { unfold signer_key. now rewrite Hproject. }
  assert (Hzero : feed_index w o (Feed.key o) = JS.VNumber (JS.Int 0)).
  { unfold feed_index, resolved_index, returned.
    rewrite Hindex, (fetchNextFeedIndex_rejected _ _ _ _ e Hkey). reflexivity. }
  destruct (feed_run_resolved w o (Feed.key o) Hval Hsigner) as [Hn _].
  fold run in Hn. unfold index_lookup in Hn.
  rewrite Hproject, Hindex, Hkey, Hzero in Hn. fold request in Hn.
  destruct (network_idempotent run) as (_ & Hg & Hw & _).
  pose proof (feed_try_completion w o (Feed.key o) Hval Hsigner) as Htry.
  rewrite Hproject, Hzero in Htry. fold request in Htry.
  split; [| split].
  - rewrite <- Hg, Hn. now destruct (Cli.given (Feed.depth o)).
  - rewrite <- Hw, Hn. now destruct (Cli.given (Feed.depth o)).
  - intros Hquiet.
    destruct (feed_report_logs w o (Feed.key o) (JS.VNumber (JS.Int 0)))
      as (_ & _ & _ & Hreport).
    rewrite (Hreport Hquiet), Hkey in Htry.
    destruct (feed_try_events w o) as [He _].
    destruct (Feed.update_try w o) as [t c] eqn:Hrun.
    cbn [completion trace fst snd] in Htry, He.
    assert (Hthrow : exists e', c = Throw e' /\
                                (writeFeedUpdate w request = Normal tt -> e' = e)).
    { destruct (writeFeedUpdate w request) as [[] | e'].
      - exists e. now split.
      - exists e'. split; [exact Htry | discriminate]. }
    destruct Hthrow as (e' & -> & He').
    subst run. rewrite (feed_catch w o e' t Hrun), Hquiet. split.
    + apply in_or_app. right. apply in_or_app. right. right. right. now left.
    + intros Hwrite. rewrite (He' Hwrite), !errors_app, He. reflexivity.
Qed.

Lemma feed_update_with_rejected_key_witness :
  let run := trace (Feed.update_action Cases.rejecting_world Example.feed_options) in
  List.length (Trace.writes run) = 1%nat /\
  Trace.errors run = [[Lit "Error:"; Lit "invalid private key"]].
Proof.
  destruct (feed_update_with_rejected_key Cases.rejecting_world Example.feed_options
              (LibraryError "invalid private key") eq_refl eq_refl eq_refl eq_refl)
    as (_ & Hw & Hq).
  split.
  - exact (f_equal (@List.length WriteRequest) Hw).
  - exact (proj2 (Hq eq_refl) eq_refl).
Defined.

(** ** Numbers and keys on the command line *)

Section Numbers.

Lemma not_decimal_stops (c : ascii) (rest : string) :
  is_decimal_char c = false -> JS.digits_prefix 10 (String c rest) = [].
Proof.
  intros H. cbn [JS.digits_prefix].
  destruct c as [[] [] [] [] [] [] [] []]; try reflexivity; discriminate H.
Qed.

Lemma digits_prefix_stops (digits : string) (c : ascii) (rest : string) :
  forallb is_decimal_char (list_ascii_of_string digits) = true ->
  is_decimal_char c = false ->
  JS.digits_prefix 10 (digits ++ String c rest) = JS.digits_prefix 10 digits.
Proof.
  intros Hd Hc. induction digits as [| d digits IH].
  - change ("" ++ String c rest) with (String c rest).
    now rewrite not_decimal_stops.
  - change (String d digits ++ String c rest)
      with (String d (digits ++ String c rest)).
    cbn [list_ascii_of_string forallb] in Hd. apply andb_prop in Hd as [Hd Hds].
    cbn [JS.digits_prefix]. rewrite (IH Hds). reflexivity.
Qed.

(** [parseInt] without radix on a text that starts with no digit, no white
    space and no sign. *)
Lemma parseInt_no_number (c : ascii) (rest : string) :
  is_decimal_char c = false -> JS.is_white_space c = false ->
  c <> "+"%char -> c <> "-"%char ->
  JS.parseInt (String c rest) 0 = JS.NaN.
Proof.
  intros Hc Hw Hplus Hminus.
  unfold JS.parseInt. unfold JS.trim_start; fold JS.trim_start. rewrite Hw.
  assert (Hsign :
    match String c rest with
    | String "-" r => (-1, r)
    | String "+" r => (1, r)
    | _ => (1, String c rest)
    end = (1, String c rest)).
  { destruct c as [[] [] [] [] [] [] [] []]; try reflexivity;
      [now destruct Hplus | now destruct Hminus]. }
  rewrite Hsign. cbn [Z.eqb negb andb orb].
  assert (Hx : JS.strip_hex_prefix (String c rest) = String c rest).
  { destruct c as [[] [] [] [] [] [] [] []]; try reflexivity; discriminate Hc. }
  rewrite Hx, String.eqb_refl. cbn [negb andb].
  now rewrite not_decimal_stops.
Qed.

(** [parseInt] without radix on decimal digits followed by something else:
    the digits are read, the rest is ignored. *)
Lemma parseInt_ignores_tail (digits : string) (c : ascii) (rest : string) :
  is_decimal_text digits = true -> is_decimal_char c = false ->
  (digits = "0" -> c <> "x"%char /\ c <> "X"%char) ->
  JS.parseInt (digits ++ String c rest) 0 = JS.number_of_Z (base10 digits).
Proof.
  unfold is_decimal_text. intros H Hc H0. apply andb_prop in H as [Hne Hall].
  destruct digits as [| d ds]; [discriminate Hne |].
  pose proof Hall as Hs.
  cbn [list_ascii_of_string forallb] in Hs. apply andb_prop in Hs as [Hd Hs].
  pose proof (digits_prefix_stops (String d ds) c rest Hall Hc) as Hstop.
  change (String d ds ++ String c rest) with (String d (ds ++ String c rest)) in *.
  set (tail := ds ++ String c rest) in *.
  assert (Hx : JS.strip_hex_prefix (String d tail) = String d tail).
  { destruct ds as [| d2 ds].
    - change tail with (String c rest).
      destruct d as [[] [] [] [] [] [] [] []]; try reflexivity; try discriminate Hd.
      destruct (H0 eq_refl) as [Hx1 Hx2].
      destruct c as [[] [] [] [] [] [] [] []]; try reflexivity;
        [now destruct Hx2 | now destruct Hx1].
    - change tail with (String d2 (ds ++ String c rest)).
      cbn [list_ascii_of_string forallb] in Hs. apply andb_prop in Hs as [Hd2 _].
      destruct d as [[] [] [] [] [] [] [] []]; try reflexivity.
      destruct d2 as [[] [] [] [] [] [] [] []]; try reflexivity; discriminate Hd2. }
  unfold JS.parseInt. unfold JS.trim_start; fold JS.trim_start.
  destruct (decimal_char_digit d Hd) as (_ & _ & ->).
  assert (Hsign :
    match String d tail with
    | String "-" r => (-1, r)
    | String "+" r => (1, r)
    | _ => (1, String d tail)
    end = (1, String d tail)).
  { destruct d as [[] [] [] [] [] [] [] []]; try reflexivity; discriminate Hd. }
  rewrite Hsign. cbn [Z.eqb negb andb orb].
  rewrite Hx, String.eqb_refl. cbn [negb andb]. rewrite Hstop.
  destruct (digits_prefix_decimal (String d ds) Hall 0) as [Hval Hne'].
  destruct (JS.digits_prefix 10 (String d ds)) as [| x xs]; [now destruct Hne' |].
  unfold JS.digits_value. rewrite Hval, Z.mul_1_l. reflexivity.
Qed.

End Numbers.

(** X16.  Neither command checks a number given as [--depth], [--index] or
    [--feed-index]; it is read by [parseInt] and used.  A text that starts
    with no digit, no white space and no sign is used as NaN.  Decimal
    digits followed by something else are used as the number the digits
    write, the rest is ignored; a [0] followed by [x] is left aside, there
    [parseInt] reads hexadecimal digits.  In both cases nothing is
    fetched. *)
Theorem numeric_options_are_not_checked (w : World) (s : string) (n : JS.Number') :
  (exists c rest,
      s = String c rest /\ is_decimal_char c = false /\
      JS.is_white_space c = false /\ c <> "+"%char /\ c <> "-"%char /\
      n = JS.NaN) \/
  (exists digits c rest,
      s = digits ++ String c rest /\ is_decimal_text digits = true /\
      is_decimal_char c = false /\
      (digits = "0" -> c <> "x"%char /\ c <> "X"%char) /\
      n = JS.number_of_Z (base10 digits)) ->
  (forall o : Upload.Options,
      Upload.depth o = Some s ->
      Upload.depth_block w o = ([], Normal (JS.VNumber n))) /\
  (forall (o : Upload.Options) (feedOwnerKey : string),
      Upload.feedIndex o = Some s ->
      Upload.index_block w o feedOwnerKey = ([], Normal (JS.VNumber n))) /\
  (forall o : Feed.Options,
      Feed.depth o = Some s ->
      Feed.depth_block w o = ([], Normal (JS.VNumber n))) /\
  (forall (o : Feed.Options) (feedOwnerKey : string) (topic : list byte),
      Feed.index o = Some s ->
      Feed.index_block w o feedOwnerKey topic = ([], Normal (JS.VNumber n))).
Proof.
  intros H.
  assert (Hread : Cli.given (Some s) = true /\ JS.parseInt s 0 = n).
  { destruct H as [(c & rest & -> & Hc & Hw & Hp & Hm & ->)
                  | (digits & c & rest & -> & Hd & Hc & H0 & ->)].
    - split; [reflexivity | now apply parseInt_no_number].
    - split; [| now apply parseInt_ignores_tail].
      destruct digits as [| d ds]; [discriminate Hd | reflexivity]. }
  destruct Hread as [Hgiven Hparse].
  repeat split; intros o; intros;
    unfold Upload.depth_block, Upload.index_block, Feed.depth_block, Feed.index_block;
    match goal with Ho : _ = Some s |- _ => rewrite Ho end;
    rewrite Hgiven; change (default "" (Some s)) with s; rewrite Hparse;
    reflexivity.
Qed.

(** [--depth 20abc] is depth 20. *)
Lemma numeric_options_are_not_checked_witness :
  Upload.depth_block (Example.world Example.unreachable (fun _ => NoResponse))
    Cases.depth_20abc_upload_options
  = ([], Normal (JS.VNumber (JS.Int 20))).
Proof.
  refine (proj1 (numeric_options_are_not_checked
                   (Example.world Example.unreachable (fun _ => NoResponse))
                   "20abc" (JS.Int 20) _) Cases.depth_20abc_upload_options eq_refl).
  right. exists "20", "a"%char, "bc".
  repeat split; try reflexivity; congruence.
Defined.

(** X17.  How a key is spelled makes no difference.  For a key of
    hexadecimal digits of even length, the address is the same with [0x] in
    front and without, and in upper and in lower case; so is the lookup of
    the feed: the same request, the same answer. *)
Theorem key_spelling_makes_no_difference (w : World) (key gatewayUrl : string)
    (topic : option (list byte)) :
  all_hex key = true -> Nat.even (String.length key) = true ->
  Crypto.getAddressFromPrivateKey w ("0x" ++ key)
  = Crypto.getAddressFromPrivateKey w key /\
  Crypto.getAddressFromPrivateKey w (lower_text key)
  = Crypto.getAddressFromPrivateKey w key /\
  Swarm.fetchNextFeedIndex w ("0x" ++ key) gatewayUrl topic
  = Swarm.fetchNextFeedIndex w key gatewayUrl topic /\
  Swarm.fetchNextFeedIndex w (lower_text key) gatewayUrl topic
  = Swarm.fetchNextFeedIndex w key gatewayUrl topic.
Proof.
  intros Hhex Heven.
  destruct (decode_any_case (String.length key) key ltac:(lia) Heven Hhex) as [_ Hlow].
  assert (H0x : Crypto.hexToBytes ("0x" ++ key) = Crypto.hexToBytes key).
  { rewrite !hexToBytes_decode, (remove_0x_all_hex key Hhex). reflexivity. }
  assert (Hlower : Crypto.hexToBytes (lower_text key) = Crypto.hexToBytes key).
  { rewrite !hexToBytes_decode, (remove_0x_all_hex key Hhex),
      (remove_0x_all_hex _ (all_hex_lower key Hhex)). exact Hlow. }
  assert (A0x : Crypto.getAddressFromPrivateKey w ("0x" ++ key)
                = Crypto.getAddressFromPrivateKey w key).
  { unfold Crypto.getAddressFromPrivateKey. now rewrite H0x. }
  assert (Alower : Crypto.getAddressFromPrivateKey w (lower_text key)
                   = Crypto.getAddressFromPrivateKey w key).
  { unfold Crypto.getAddressFromPrivateKey. now rewrite Hlower. }
  repeat split; try assumption; unfold Swarm.fetchNextFeedIndex;
    [now rewrite A0x | now rewrite Alower].
Qed.

Lemma key_spelling_makes_no_difference_witness :
  Crypto.getAddressFromPrivateKey
    (Example.world Example.unreachable (fun _ => NoResponse)) ("0x" ++ Example.K)
  = Crypto.getAddressFromPrivateKey
      (Example.world Example.unreachable (fun _ => NoResponse)) Example.K.
Proof.
  exact (proj1 (key_spelling_makes_no_difference
                  (Example.world Example.unreachable (fun _ => NoResponse))
                  Example.K "https://bzz.sh" None eq_refl eq_refl)).
Defined.

Section UploadReads.

Import Swarm Cli.

Variables (w : World) (uploadPath : string) (o : Upload.Options).

(** What [upload] does with its path is part of the run. *)
Lemma upload_files_in_run (ev : Event) :
  completion (Upload.validate o) = Normal tt ->
  In ev (trace (Upload.files_block w uploadPath o)) ->
  In ev (trace (Upload.upload_action w uploadPath o)).
Proof.
  intros Hval Hev. unfold Upload.upload_action, Upload.upload_try. run.
  rewrite Hval. apply in_or_app. right. apply in_or_app. left.
  apply in_or_app. right. apply in_or_app. left. exact Hev.
Qed.

(** The upload of the files read is part of the run, when the uploader can
    be created. *)
Lemma upload_sent (files : list File) :
  completion (Upload.validate o) = Normal tt ->
  completion (Upload.files_block w uploadPath o) = Normal files ->
  newStampedUploader w (Upload.config_of w o (upload_depth w o)) = Normal tt ->
  In (UploadFiles (Upload.config_of w o (upload_depth w o)) files
        (Upload.indexDocument o) (Upload.spa o))
     (trace (Upload.upload_action w uploadPath o)).
Proof.
  intros Hval Hfiles Hnew.
  destruct (upload_run w o uploadPath files Hval Hfiles) as [Hn _].
  rewrite Hnew in Hn.
  assert (H : In (UploadFiles (Upload.config_of w o (upload_depth w o)) files
                    (Upload.indexDocument o) (Upload.spa o))
                 (Trace.network (trace (Upload.upload_action w uploadPath o)))).
  { rewrite Hn. apply in_or_app. right. now left. }
  unfold Trace.network in H. now apply List.filter_In in H as [H _].
Qed.

End UploadReads.

(** X19.  [upload] sends what it read.  Given a single file, it reads that
    file and sends it under its name relative to its directory.  Given a
    directory in which [glob] finds files, it reads them in the order found
    and sends one file for each, named relative to the directory; unless the
    run is quiet it says how many were found.  (The uploader is taken to be
    created without failure.) *)
Theorem upload_sends_what_it_read (w : World) (uploadPath : string)
    (o : Upload.Options) :
  completion (Upload.validate o) = Normal tt ->
  let fullPath := path_resolve w uploadPath in
  let config := Upload.config_of w o (upload_depth w o) in
  let run := trace (Upload.upload_action w uploadPath o) in
  let sent files :=
    newStampedUploader w config = Normal tt ->
    In (UploadFiles config files (Upload.indexDocument o) (Upload.spa o)) run in
  (forall d,
      stat_isDirectory w fullPath = Normal false ->
      readFile w (path_resolve w fullPath) = Normal d ->
      sent [{| file_name := path_relative w (path_dirname w fullPath)
                              (path_resolve w fullPath);
               file_data := d |}]) /\
  (forall (filePaths : list string) (contents : list (list byte)),
      stat_isDirectory w fullPath = Normal true ->
      glob w (path_join w fullPath "**/*") = Normal filePaths ->
      filePaths <> [] ->
      Forall2 (fun p d => readFile w (path_resolve w p) = Normal d) filePaths contents ->
      let files :=
        map (fun pd : string * list byte =>
               {| file_name := path_relative w fullPath (path_resolve w (fst pd));
                  file_data := snd pd |})
            (combine filePaths contents) in
      List.length files = List.length filePaths /\
      sent files /\
      (Upload.quiet o = false ->
       In (SpinnerSucceed
             (Template "Found "
                (JS.VNumber (JS.Int (Z.of_nat (List.length filePaths)))) " files"))
          run)).
Proof.
  intros Hval fullPath config run sent. split.
  - intros d Hstat Hread Hnew.
    apply (upload_sent w uploadPath o _ Hval); [| exact Hnew].
    unfold Upload.files_block. fold fullPath. rewrite Hstat. step.
    rewrite (pathsToFiles_all_read w (path_dirname w fullPath) [fullPath] [d])
      by (repeat constructor; exact Hread).
    reflexivity.
  - intros filePaths contents Hstat Hglob Hsome Hreads files.
    assert (Hblock : Upload.files_block w uploadPath o
      = ((FsStat fullPath
          :: (if Upload.quiet o then [] else [SpinnerText (Lit "Scanning directory...")])
          ++ Glob (path_join w fullPath "**/*")
          :: (if Upload.quiet o then []
              else [SpinnerSucceed
                      (Template "Found "
                         (JS.VNumber (JS.Int (Z.of_nat (List.length filePaths))))
                         " files");
                    SpinnerStart (Lit "Preparing files...")])
          ++ map (fun p => ReadFile (path_resolve w p)) filePaths)%list,
         Normal files)).
    { unfold Upload.files_block. fold fullPath. rewrite Hstat. step.
      rewrite Hglob, (pathsToFiles_all_read w fullPath filePaths contents Hreads).
      destruct filePaths as [| p ps]; [now destruct Hsome |].
      destruct (Upload.quiet o); cbn; rewrite ?app_nil_r; reflexivity. }
    split; [| split].
    + subst files. rewrite length_map, length_combine.
      apply Forall2_length in Hreads. lia.
    + intros Hnew. apply (upload_sent w uploadPath o _ Hval); [| exact Hnew].
      now rewrite Hblock.
    + intros Hquiet. apply (upload_files_in_run w uploadPath o _ Hval).
      rewrite Hblock, Hquiet. cbn [trace fst app]. right. right. right. now left.
Qed.

(** A directory with two files. *)
Lemma upload_sends_what_it_read_witness :
  let w := Cases.directory_world ["site/a"; "site/b"] (fun _ => Normal [x01]) in
  In (UploadFiles (Upload.config_of w Example.upload_options
                     (upload_depth w Example.upload_options))
        [{| file_name := "site/a"; file_data := [x01] |};
         {| file_name := "site/b"; file_data := [x01] |}]
        (Some "index.html") false)
     (trace (Upload.upload_action w "site" Example.upload_options)).
Proof.
  intros w.
  refine (proj1 (proj2 (proj2 (upload_sends_what_it_read w "site" Example.upload_options
                   eq_refl) ["site/a"; "site/b"] [[x01]; [x01]] eq_refl eq_refl _ _))
            eq_refl).
  - discriminate.
  - repeat constructor.
Defined.

(** ** [updateFeed] called as declared *)

(** X18.  [updateFeed], given the options of a [feed update] under the
    names its parameter declares and a resolved index and depth, hands the
    library the request the command itself would: one write, signed by the
    project key when a project is named.  The two differ only in the
    gateway used when none is given, [https://bzz.sh] here.  When the
    project key cannot be derived, nothing is written. *)
Theorem updateFeed_agrees_with_command (w : World) (o : Feed.Options)
    (index depth : JS.Value) :
  JS.nullish index (JS.VNumber (JS.Int 0)) = index ->
  JS.nullish depth (JS.VNumber (JS.Int 20)) = depth ->
  Cli.or_default (Feed.gateway o) "https://bzz.sh"
  = Cli.or_default (Feed.gateway o) (DEFAULT_GATEWAY_URL w) ->
  Feed.updateFeed w (updateFeed_call o index depth)
  = match signer_key w (Feed.key o) (Feed.project o) with
    | Normal signer =>
        let request :=
          Feed.request_of w o
            (if Cli.given (Feed.project o) then JS.VString signer else JS.VUndefined)
            index depth in
        ([WriteFeedUpdate request], writeFeedUpdate w request)
    | Throw e => ([], Throw e)
    end.
Proof.
  intros Hindex Hdepth Hgateway.
  unfold Feed.updateFeed.
  change (JS.get (JS.VObject (updateFeed_call o index depth)) "topic")
    with (JS.of_option (Feed.topic o)).
  change (JS.get (JS.VObject (updateFeed_call o index depth)) "index") with index.
  change (JS.get (JS.VObject (updateFeed_call o index depth)) "depth") with depth.
  change (JS.get (JS.VObject (updateFeed_call o index depth)) "gateway")
    with (JS.of_option (Feed.gateway o)).
  change (JS.get (JS.VObject (updateFeed_call o index depth)) "project")
    with (JS.of_option (Feed.project o)).
  change (JS.get (JS.VObject (updateFeed_call o index depth)) "vaultKey")
    with (JS.VString (Feed.key o)).
  change (JS.get (JS.VObject (updateFeed_call o index depth)) "reference")
    with (JS.VString (Feed.reference o)).
  change (JS.get (JS.VObject (updateFeed_call o index depth)) "batchId")
    with (JS.VString (default "" (Feed.batchId o))).
  rewrite Hindex, Hdepth.
  assert (Hg : JS.or (JS.of_option (Feed.gateway o)) (JS.VString "https://bzz.sh")
               = JS.VString (Cli.or_default (Feed.gateway o) (DEFAULT_GATEWAY_URL w))).
  { rewrite <- Hgateway. unfold JS.or, Cli.or_default.
    destruct (Feed.gateway o) as [g |]; [| reflexivity].
    cbn [JS.of_option JS.truthy]. now destruct (String.eqb g ""). }
  rewrite Hg.
  assert (Ht : (if JS.truthy (JS.of_option (Feed.topic o))
                then lift (Crypto.hexToBytes_value (JS.of_option (Feed.topic o)))
                else ret Swarm.NULL_TOPIC)
               = ret (Feed.topic_of o)).
  { unfold Feed.topic_of, Cli.given.
    destruct (Feed.topic o) as [t |]; [| reflexivity].
    cbn [JS.of_option]. now destruct (JS.truthy (JS.VString t)). }
  rewrite Ht, bind_ret.
  unfold signer_key, Cli.given, Feed.request_of.
  destruct (JS.truthy (JS.of_option (Feed.project o))); [| reflexivity].
  destruct (normalizeProjectSlug w _) as [slug | e]; [| reflexivity].
  step.
  destruct (deriveProjectKey w _ slug) as [k | e]; reflexivity.
Qed.

Lemma updateFeed_agrees_with_command_witness :
  let w := Example.world Example.unreachable (fun _ => NoResponse) in
  Feed.updateFeed w
    (updateFeed_call Example.project_feed_options
       (JS.VNumber (JS.Int 7)) (JS.VNumber (JS.Int 20)))
  = ([WriteFeedUpdate
        (Feed.request_of w Example.project_feed_options
           (JS.VString Example.PROJECT_KEY)
           (JS.VNumber (JS.Int 7)) (JS.VNumber (JS.Int 20)))],
     Normal tt).
Proof.
  intros w.
  exact (updateFeed_agrees_with_command w Example.project_feed_options
           (JS.VNumber (JS.Int 7)) (JS.VNumber (JS.Int 20)) eq_refl eq_refl eq_refl).
Defined.

(** X20.  Where the feed of a topic is looked up.  A [--topic] of 64
    hexadecimal digits, with [0x] or without, in either case, stands for 32
    bytes, and the address looked up ends in its digits in lower case;
    without [--topic] it ends in 64 zeros. *)
Theorem feed_address_of_topic (o : Feed.Options) (gatewayUrl : string)
    (owner : list byte) :
  (forall t,
      Feed.topic o = Some t -> Cli.matches_hex64 t = true ->
      List.length (Feed.topic_of o) = 32%nat /\
      Swarm.feed_url gatewayUrl owner (Feed.topic_of o)
      = gatewayUrl ++ "/feeds/" ++ Crypto.bytesToHex owner ++ "/"
        ++ lower_text (Crypto.remove_0x t)) /\
  (Cli.given (Feed.topic o) = false ->
   Swarm.feed_url gatewayUrl owner (Feed.topic_of o)
   = gatewayUrl ++ "/feeds/" ++ Crypto.bytesToHex owner ++ "/"
     ++ "0000000000000000000000000000000000000000000000000000000000000000").
Proof.
  split.
  - intros t Ht Hm. pose proof (matches_hex64_length t Hm) as Hlen.
    assert (Hgiven : Cli.given (Some t) = true).
    { destruct t as [| c t]; [discriminate Hm | reflexivity]. }
    unfold Feed.topic_of. rewrite Ht, Hgiven.
    change (default "" (Some t)) with t.
    split; [exact Hlen |].
    unfold Swarm.feed_url. do 4 f_equal.
    unfold Cli.matches_hex64 in Hm. apply andb_prop in Hm as [Hn Hhex].
    apply Nat.eqb_eq in Hn. rewrite hexToBytes_decode.
    apply (decode_any_case 32); [lia | now rewrite Hn | exact Hhex].
  - intros Hnone. unfold Feed.topic_of. rewrite Hnone. reflexivity.
Qed.

(** ** The order of what a run sends *)



(** ** The warning for an index that could not be fetched *)

Section IndexWarning.

Import Swarm Cli.

Variable w : World.

Lemma fetchNextFeedIndex_warnings (key gatewayUrl : string) (topic : option (list byte)) :
  Trace.warnings (trace (fetchNextFeedIndex w key gatewayUrl topic)) = [].
Proof.
  rewrite fetchNextFeedIndex_trace.
  destruct (Crypto.getAddressFromPrivateKey w key); reflexivity.
Qed.

Lemma feed_index_warnings (o : Feed.Options) (feedOwnerKey : string) (topic : list byte) :
  let fetched :=
    returned JS.VNull
      (fetchNextFeedIndex w feedOwnerKey
         (or_default (Feed.gateway o) (DEFAULT_GATEWAY_URL w)) (Some topic)) in
  Trace.warnings (trace (Feed.index_block w o feedOwnerKey topic))
  = if given (Feed.index o) || Feed.quiet o || negb (is_null fetched) then []
    else [INDEX_WARNING].
Proof.
  intros fetched. subst fetched. unfold returned, Feed.index_block.
  destruct (given (Feed.index o)); [reflexivity |].
  pose proof (fetchNextFeedIndex_warnings feedOwnerKey
                (or_default (Feed.gateway o) (DEFAULT_GATEWAY_URL w)) (Some topic)) as Hw.
  destruct (fetchNextFeedIndex_normal w feedOwnerKey
              (or_default (Feed.gateway o) (DEFAULT_GATEWAY_URL w)) (Some topic))
    as [fetchedIndex Hfetch].
  destruct (fetchNextFeedIndex w feedOwnerKey _ (Some topic)) as [t c].
  cbn [completion trace fst snd] in Hfetch, Hw. subst c.
  unfold Trace.warnings in *.
  destruct (Feed.quiet o); step; destruct (is_null fetchedIndex); step;
    cbn [flat_map app]; rewrite ?flat_map_app, ?Hw; reflexivity.
Qed.

Lemma upload_index_warnings (o : Upload.Options) (feedOwnerKey : string) :
  let fetched :=
    returned JS.VNull
      (fetchNextFeedIndex w feedOwnerKey
         (or_default (Upload.gateway o) (DEFAULT_GATEWAY_URL w)) None) in
  Trace.warnings (trace (Upload.index_block w o feedOwnerKey))
  = if given (Upload.feedIndex o) || Upload.quiet o || negb (is_null fetched) then []
    else [INDEX_WARNING].
Proof.
  intros fetched. subst fetched. unfold returned, Upload.index_block.
  destruct (given (Upload.feedIndex o)); [reflexivity |].
  pose proof (fetchNextFeedIndex_warnings feedOwnerKey
                (or_default (Upload.gateway o) (DEFAULT_GATEWAY_URL w)) None) as Hw.
  destruct (fetchNextFeedIndex_normal w feedOwnerKey
              (or_default (Upload.gateway o) (DEFAULT_GATEWAY_URL w)) None)
    as [fetchedIndex Hfetch].
  destruct (fetchNextFeedIndex w feedOwnerKey _ None) as [t c].
  cbn [completion trace fst snd] in Hfetch, Hw. subst c.
  unfold Trace.warnings in *.
  destruct (Upload.quiet o); step; destruct (is_null fetchedIndex); step;
    cbn [flat_map app]; rewrite ?flat_map_app, ?Hw; reflexivity.
Qed.

(** The warnings of a run of [feed update]. *)
Lemma feed_run_warnings (o : Feed.Options) (signer : string) :
  completion (Feed.validate o) = Normal tt ->
  signer_key w (Feed.key o) (Feed.project o) = Normal signer ->
  Trace.warnings (trace (Feed.update_action w o))
  = (Trace.warnings (trace (Feed.depth_block w o)) ++
     Trace.warnings (trace (Feed.index_block w o signer (Feed.topic_of o))))%list.
Proof.
  intros Hval Hsigner.
  destruct (feed_keys_block w o) as [Hkeys_t Hkeys_c]. rewrite Hsigner in Hkeys_c.
  destruct (unremarkable_projections _ Hkeys_t) as (_ & _ & _ & _ & _ & Kw & _).
  destruct (feed_depth_block w o) as (fetchedDepth & _ & Hd_c & _).
  destruct (feed_index_block w o signer (Feed.topic_of o))
    as (fetchedIndex & _ & Hi_c & _).
  assert (Rw : forall index, Trace.warnings (trace (Feed.report w o signer index)) = []).
  { intros index.
    now destruct (unremarkable_projections _ (feed_report w o signer index))
      as (_ & _ & _ & _ & _ & Rw & _). }
  rewrite feed_validate in Hval. cbn [completion snd] in Hval.
  unfold Feed.update_action, Feed.update_try. run.
  rewrite feed_validate. cbn [completion trace fst snd]. rewrite Hval.
  run. rewrite Hkeys_c. run. rewrite Hd_c. run. rewrite Hi_c. run.
  autorewrite with project. rewrite Kw.
  cbn [fst snd].
  set (request := Feed.request_of w o _ _ _).
  destruct (Feed.quiet o); cbn [negb app Trace.warnings flat_map];
    destruct (writeFeedUpdate w request);
    autorewrite with project; rewrite ?Rw;
    try (destruct (completion (Feed.report w o signer _)));
    cbn [app Trace.warnings flat_map]; rewrite ?app_nil_r; reflexivity.
Qed.

End IndexWarning.

(** X22.  The warnings of a run.  [feed update], once the inputs are
    accepted and the signer key is there, warns at most twice: that the
    depth could not be fetched, then that the index could not be fetched,
    each exactly when the value was not given, the fetch answered [null] and
    the run is not quiet.  The index step of [upload --feed] warns under the
    same condition. *)
Theorem fallbacks_are_announced (w : World) :
  (forall (o : Feed.Options) (signer : string),
      completion (Feed.validate o) = Normal tt ->
      signer_key w (Feed.key o) (Feed.project o) = Normal signer ->
      let gatewayUrl := Cli.or_default (Feed.gateway o) (DEFAULT_GATEWAY_URL w) in
      let fetchedDepth :=
        returned JS.VNull
          (Swarm.fetchBatchDepth w (default "" (Feed.batchId o)) (Some gatewayUrl)) in
      let fetchedIndex :=
        returned JS.VNull
          (Swarm.fetchNextFeedIndex w signer gatewayUrl (Some (Feed.topic_of o))) in
      Trace.warnings (trace (Feed.update_action w o))
      = ((if Cli.given (Feed.depth o) || Feed.quiet o
             || negb (Swarm.is_null fetchedDepth)
          then [] else [DEPTH_WARNING]) ++
         (if Cli.given (Feed.index o) || Feed.quiet o
             || negb (Swarm.is_null fetchedIndex)
          then [] else [INDEX_WARNING]))%list) /\
  (forall (o : Upload.Options) (feedOwnerKey : string),
      let fetchedIndex :=
        returned JS.VNull
          (Swarm.fetchNextFeedIndex w feedOwnerKey
             (Cli.or_default (Upload.gateway o) (DEFAULT_GATEWAY_URL w)) None) in
      Trace.warnings (trace (Upload.index_block w o feedOwnerKey))
      = if Cli.given (Upload.feedIndex o) || Upload.quiet o
           || negb (Swarm.is_null fetchedIndex)
        then [] else [INDEX_WARNING]).
Proof.
  split.
  - intros o signer Hval Hsigner gatewayUrl fetchedDepth fetchedIndex.
    rewrite (feed_run_warnings w o signer Hval Hsigner), feed_index_warnings.
    fold gatewayUrl. fold fetchedIndex. f_equal.
    destruct (feed_depth_block w o) as (fetched & Hfetched & _ & _ & Hw & _).
    fold gatewayUrl in Hfetched. subst fetchedDepth. unfold returned.
    rewrite Hfetched. exact Hw.
  - intros o feedOwnerKey. apply upload_index_warnings.
Qed.
